(** * The API credit ledger of the calorie-estimation server

    A shallow embedding of [server/services/creditService.js], of the two
    Mongoose schemas it persists through ([models/userModel.js],
    [models/creditTransactionModel.js]) and of the administrative
    [POST /api/users/:id/reset-count] handler of [routes/userRoutes.js],
    followed by the properties of the ledger.  The callers of the service
    are embedded as well: [middleware/authMiddleware.js], the handlers of
    [routes/creditRoutes.js] that read or write a balance, the credit check
    of [POST /api/estimate-calories] in [server.js], [DELETE /api/users/:id]
    and the routes that create or edit accounts.

    Conventions of the embedding.
    - Credit counters and amounts are JavaScript Numbers holding integers;
      they are modelled as [Z], which is exact inside the safe-integer range.
      Fractional Numbers are outside the model.
    - The MongoDB collections are an explicit state [DB]; every [await]ed
      store call is a computation in the monad [Store], which threads the state
      and may throw.  Requests are run one after the other.
    - What the surroundings decide for one service call (the clock, whether a
      store call rejects, and the conventions of the driver the source does not
      fix) is an explicit [Env]. *)

From Stdlib Require Import ZArith List Lia.
From stdpp Require Import gmap strings list fin_maps pretty sorting.

Local Open Scope string_scope.
Local Open Scope list_scope.
Local Open Scope Z_scope.

(* ===================================================================== *)
(** ** JavaScript values met by the ledger                                *)
(* ===================================================================== *)

(** The values a property read on the [costMap] object literal can yield: a
    Number, one of the built-in functions inherited from [Object.prototype],
    or [Object.prototype] itself (through the [__proto__] accessor). *)
Inductive JsValue :=
| JsNumber (n : Z)
| JsFunction (fname : string)
| JsObjectPrototype.

(** [ToBoolean]: of the values above only the Number 0 is falsy. *)
Definition truthy (v : JsValue) : bool :=
  match v with
  | JsNumber n => negb (n =? 0)
  | JsFunction _ | JsObjectPrototype => true
  end.

(** [ToBoolean] of a string: only the empty string is falsy. *)
Definition truthy_string (s : string) : bool :=
  match s with
  | EmptyString => false
  | String _ _ => true
  end.

(** [ToBoolean] of a string that may be [undefined]. *)
Definition truthy_opt (o : option string) : bool :=
  match o with
  | Some s => truthy_string s
  | None => false
  end.

(** The properties every object literal inherits from [Object.prototype]. *)
Definition ObjectPrototype_methods : list string :=
  [ "constructor"; "hasOwnProperty"; "isPrototypeOf"; "propertyIsEnumerable";
    "toLocaleString"; "toString"; "valueOf";
    "__defineGetter__"; "__defineSetter__";
    "__lookupGetter__"; "__lookupSetter__" ].

Definition ObjectPrototype_get (key : string) : option JsValue :=
  if decide (key = "__proto__") then Some JsObjectPrototype
  else if decide (key ∈ ObjectPrototype_methods)
       then Some (JsFunction (if decide (key = "constructor") then "Object" else key))
       else None.

(** Errors that reach the [catch] blocks. *)
Inductive JsError :=
| TypeError          (* property read on null, assignment to a constant *)
| CastError          (* a value that is no ObjectId where the schema wants one *)
| ValidationError    (* Mongoose refuses a document *)
| StoreError         (* the store call itself rejects *)
| Error (message : string).

(* ===================================================================== *)
(** ** Data model                                                         *)
(* ===================================================================== *)

(** An ObjectId, written as its 24 lower-case hexadecimal digits. *)
Definition ObjectId := string.

(** A value handed to Mongoose where the schema wants an ObjectId: an
    ObjectId (the [_id] of a document) or a string taken from the request
    (a route parameter). *)
Inductive IdValue :=
| IdObject (o : ObjectId)
| IdString (s : string).

(** A hexadecimal digit, in lower case. *)
Definition hex_digit (c : Ascii.ascii) : option Ascii.ascii :=
  let n := Ascii.nat_of_ascii c in
  if ((48 <=? n) && (n <=? 57))%nat then Some c
  else if ((97 <=? n) && (n <=? 102))%nat then Some c
  else if ((65 <=? n) && (n <=? 70))%nat then Some (Ascii.ascii_of_nat (n + 32))
  else None.

(** The string in lower case when all its characters are hexadecimal
    digits. *)
Fixpoint hex_string (s : string) : option string :=
  match s with
  | EmptyString => Some EmptyString
  | String c rest =>
      match hex_digit c, hex_string rest with
      | Some d, Some ds => Some (String d ds)
      | _, _ => None
      end
  end.

(** [userSchema]: the declared paths and the [updatedAt] stamp of
    [timestamps: true].  [createdAt], which is written once when the
    document is created, and the version key are left out. *)
Record User := {
  _id : ObjectId;
  name : string;
  email : string;
  password : option string;
  googleId : option string;
  apiKey : option string;
  apiCreditsUsed : Z;
  apiCreditsTotal : Z;
  isAdmin : bool;
  updatedAt : Z
}.

Global Instance User_eq_dec : EqDecision User.
Proof. solve_decision. Defined.

(** The schema defaults applied by [User.create] at registration. *)
Definition default_apiCreditsUsed : Z := 0.
Definition default_apiCreditsTotal : Z := 100.

Definition set_apiCreditsUsed (v : Z) (u : User) : User :=
  {| _id := _id u; name := name u; email := email u; password := password u;
     googleId := googleId u; apiKey := apiKey u;
     apiCreditsUsed := v; apiCreditsTotal := apiCreditsTotal u;
     isAdmin := isAdmin u; updatedAt := updatedAt u |}.

Definition set_apiCreditsTotal (v : Z) (u : User) : User :=
  {| _id := _id u; name := name u; email := email u; password := password u;
     googleId := googleId u; apiKey := apiKey u;
     apiCreditsUsed := apiCreditsUsed u; apiCreditsTotal := v;
     isAdmin := isAdmin u; updatedAt := updatedAt u |}.

Definition set_updatedAt (v : Z) (u : User) : User :=
  {| _id := _id u; name := name u; email := email u; password := password u;
     googleId := googleId u; apiKey := apiKey u;
     apiCreditsUsed := apiCreditsUsed u; apiCreditsTotal := apiCreditsTotal u;
     isAdmin := isAdmin u; updatedAt := v |}.

(** The validators of [userSchema], run by [save()] on every path of the
    document: [name] and [email] are required (for a String path: not
    empty), and so is [password] unless [googleId] is set.  The counters
    and [isAdmin] always hold a value in this model. *)
Definition validates (u : User) : bool :=
  truthy_string (name u) && truthy_string (email u)
  && (truthy_opt (googleId u) || truthy_opt (password u)).

(** The [enum] of [creditTransactionSchema.type]. *)
Inductive TransactionType := consume | refill | adjustment.

Global Instance TransactionType_eq_dec : EqDecision TransactionType.
Proof. solve_decision. Defined.

(** [creditTransactionSchema], with the [createdAt] stamp of
    [timestamps: true]. *)
Record CreditTransaction := {
  user : ObjectId;
  amount : Z;
  type : TransactionType;
  description : string;
  endpointPath : option string;
  balanceAfter : Z;
  createdAt : Z
}.

(** The argument of [CreditTransaction.create]: the document without its
    timestamp. *)
Record CreditTransactionFields := {
  f_user : ObjectId;
  f_amount : Z;
  f_type : TransactionType;
  f_description : string;
  f_endpointPath : option string;
  f_balanceAfter : Z
}.

(** The two collections.  [transactions] is kept in insertion order, oldest
    first. *)
Record DB := {
  users : gmap ObjectId User;
  transactions : list CreditTransaction
}.

(** What the surroundings decide during one service call: the clock read
    when a transaction document is created ([now]) and when a user document
    is saved ([save_time]); for each kind of store call, whether the store
    rejects it (connection loss, a unique index, ...); and two conventions
    of the driver that the source does not fix: what it makes of a
    12-character string where an ObjectId is wanted (releases of the driver
    before 6.0 read it as the 12 bytes of an id, later ones refuse it), and
    what a query returns for a limit that is zero or negative. *)
Record Env := {
  now : Z;
  save_time : Z;
  findById_rejects : bool;
  save_rejects : bool;
  create_rejects : bool;
  find_rejects : bool;
  legacy_cast : string -> option ObjectId;
  nonpositive_limit : Z -> list CreditTransaction -> list CreditTransaction
}.

(** An environment in which every store call is answered, with a driver
    that accepts only 24 hexadecimal digits and reads a limit that is not
    positive as no limit. *)
Definition calm (t : Z) : Env :=
  {| now := t; save_time := t;
     findById_rejects := false; save_rejects := false;
     create_rejects := false; find_rejects := false;
     legacy_cast := fun _ => None;
     nonpositive_limit := fun _ docs => docs |}.

(** The cast Mongoose applies to a value where the schema wants an
    ObjectId.  An ObjectId is taken as it is; a string must be 24
    hexadecimal digits (the id is the same whatever the case of the
    letters). *)
Definition castObjectId (env : Env) (v : IdValue) : option ObjectId :=
  match v with
  | IdObject o => Some o
  | IdString s =>
      if (String.length s =? 24)%nat then hex_string s
      else if (String.length s =? 12)%nat then legacy_cast env s
      else None
  end.

(* ===================================================================== *)
(** ** The store monad                                                    *)
(* ===================================================================== *)

Inductive Outcome (A : Type) :=
| Returned (a : A)
| Thrown (e : JsError).
Arguments Returned {A} a.
Arguments Thrown {A} e.

(** A computation reads the environment, threads the database and either
    returns or throws.  Writes made before a throw stay in the database: the
    code opens no session and has no undo. *)
Definition Store (A : Type) : Type := Env -> DB -> Outcome A * DB.

Definition ret {A} (a : A) : Store A := fun _ db => (Returned a, db).

Definition throw {A} (e : JsError) : Store A := fun _ db => (Thrown e, db).

Definition bind {A B} (m : Store A) (k : A -> Store B) : Store B :=
  fun env db =>
    match m env db with
    | (Returned a, db') => k a env db'
    | (Thrown e, db') => (Thrown e, db')
    end.

(** [try { m } catch (error) { h error }]. *)
Definition try_catch {A} (m : Store A) (h : JsError -> Store A) : Store A :=
  fun env db =>
    match m env db with
    | (Returned a, db') => (Returned a, db')
    | (Thrown e, db') => h e env db'
    end.

Declare Scope store_scope.
Delimit Scope store_scope with store.
Notation "x <- m ;; k" := (bind m (fun x => k))
  (at level 100, m at next level, right associativity) : store_scope.
Notation "m ;; k" := (bind m (fun _ => k))
  (at level 100, right associativity) : store_scope.
Local Open Scope store_scope.

(** [User.findById(id)]: the document, or [null].  The id is cast before
    the query is sent; a value that is no ObjectId makes the call throw. *)
Definition User_findById (id : IdValue) : Store (option User) :=
  fun env db =>
    match castObjectId env id with
    | None => (Thrown CastError, db)
    | Some oid =>
        if findById_rejects env then (Thrown StoreError, db)
        else (Returned (users db !! oid), db)
    end.

(** The document in memory after an accepted [save()]: when a path was
    changed since the document was read as [loaded], the timestamp plugin
    sets [updatedAt]. *)
Definition saved_doc (env : Env) (loaded u : User) : User :=
  if decide (u = loaded) then u else set_updatedAt (save_time env) u.

(** The database after an accepted [save()]: nothing is sent to the store
    when no path was changed. *)
Definition saved (env : Env) (loaded u : User) (db : DB) : DB :=
  if decide (u = loaded) then db
  else {| users := <[_id u := set_updatedAt (save_time env) u]> (users db);
          transactions := transactions db |}.

(** [doc.save()] of a user document that was read as [loaded] and now
    holds [u].  The validators run first; the document is returned as it is
    after the save. *)
Definition User_save (loaded u : User) : Store User :=
  fun env db =>
    if negb (validates u) then (Thrown ValidationError, db)
    else if save_rejects env then (Thrown StoreError, db)
    else (Returned (saved_doc env loaded u), saved env loaded u db).

(** [CreditTransaction.create(fields)].  Of the validators of
    [creditTransactionSchema] one can fail on the documents the service
    builds: [description] is required, so it must not be empty. *)
Definition CreditTransaction_create (f : CreditTransactionFields) : Store unit :=
  fun env db =>
    if negb (truthy_string (f_description f)) then (Thrown ValidationError, db)
    else if create_rejects env then (Thrown StoreError, db)
    else (Returned tt,
          {| users := users db;
             transactions :=
               transactions db ++
               [ {| user := f_user f; amount := f_amount f; type := f_type f;
                    description := f_description f;
                    endpointPath := f_endpointPath f;
                    balanceAfter := f_balanceAfter f;
                    createdAt := now env |} ] |}).

(* ===================================================================== *)
(** ** creditService                                                      *)
(* ===================================================================== *)

(** What the service functions resolve to: [{ success: true, ... }] or
    [{ success: false, message, statusCode }]. *)
Inductive ServiceResult (A : Type) :=
| Success (payload : A)
| Failure (message : string) (statusCode : Z).
Arguments Success {A} payload.
Arguments Failure {A} message statusCode.

Definition success {A} (r : ServiceResult A) : bool :=
  match r with Success _ => true | Failure _ _ => false end.

Definition statusCode {A} (r : ServiceResult A) : option Z :=
  match r with Success _ => None | Failure _ c => Some c end.

(** *** getEndpointCreditCost *)

(** The own properties of the [costMap] literal. *)
Definition costMap : gmap string Z := {[ "/api/estimate-calories" := 1 ]}.

(** [costMap[endpointPath]]: an own property, else a property found along the
    prototype chain, else [undefined] ([None]). *)
Definition costMap_get (endpointPath : string) : option JsValue :=
  match costMap !! endpointPath with
  | Some c => Some (JsNumber c)
  | None => ObjectPrototype_get endpointPath
  end.

(** [return costMap[endpointPath] || 1]. *)
Definition getEndpointCreditCost (endpointPath : string) : JsValue :=
  match costMap_get endpointPath with
  | Some v => if truthy v then v else JsNumber 1
  | None => JsNumber 1
  end.

(** *** consumeCredits *)

Module ConsumeResult.
Record t := { remainingCredits : Z; creditsUsed : Z }.
End ConsumeResult.

Definition insufficient_message (creditCost remainingCredits : Z) : string :=
  "Insufficient API credits. You need " +:+ pretty creditCost +:+
  " credits but have only " +:+ pretty remainingCredits +:+ " remaining.".

Definition consumeCredits (user0 : User) (endpointPath0 : string)
  : Store (ServiceResult ConsumeResult.t) :=
  let creditCost := getEndpointCreditCost endpointPath0 in
  try_catch
    (found <- User_findById (IdObject (_id user0)) ;;
     match found with
     | None => throw TypeError        (* freshUser.apiCreditsTotal on null *)
     | Some found =>
       match creditCost with
       | JsNumber creditCost =>
         let remainingCredits :=
           apiCreditsTotal found - apiCreditsUsed found in
         if remainingCredits <? creditCost then
           ret (Failure (insufficient_message creditCost remainingCredits) 429)
         else
           let freshUser :=
             set_apiCreditsUsed (apiCreditsUsed found + creditCost) found in
           User_save found freshUser ;;
           CreditTransaction_create
             {| f_user := _id freshUser;
                f_amount := - creditCost;
                f_type := consume;
                f_description := "API request to " +:+ endpointPath0;
                f_endpointPath := Some endpointPath0;
                f_balanceAfter :=
                  apiCreditsTotal freshUser - apiCreditsUsed freshUser |} ;;
           ret (Success
                  {| ConsumeResult.remainingCredits :=
                       apiCreditsTotal freshUser - apiCreditsUsed freshUser;
                     ConsumeResult.creditsUsed := apiCreditsUsed freshUser |})
       | JsFunction _ | JsObjectPrototype =>
         (* The comparison with a non-number is false (NaN), [+=] then
            concatenates strings, and the Number path of the schema refuses
            the result when the document is saved. *)
         throw ValidationError
       end
     end)
    (fun _ => ret (Failure "Error processing API credits" 500)).

(** *** addCredits *)

Module AddResult.
Record t := { totalCredits : Z; remainingCredits : Z }.
End AddResult.

Definition MAX_CREDITS : Z := 1000.

(** [userId] is a string (a route parameter).  [description = 'Credit
    refill'] is a default parameter: [None] stands for an omitted
    argument. *)
Definition addCredits (userId : string) (amount0 : Z)
    (description0 : option string) : Store (ServiceResult AddResult.t) :=
  let description1 := default "Credit refill" description0 in
  try_catch
    (found <- User_findById (IdString userId) ;;
     match found with
     | None => ret (Failure "User not found" 404)
     | Some found =>
       let newTotal := apiCreditsTotal found + amount0 in
       if newTotal >? MAX_CREDITS then
         ret (Failure ("Cannot exceed maximum credit limit of " +:+
                       pretty MAX_CREDITS) 400)
       else
         let user1 :=
           set_apiCreditsTotal (apiCreditsTotal found + amount0) found in
         User_save found user1 ;;
         CreditTransaction_create
           {| f_user := _id user1;
              f_amount := amount0;
              f_type := refill;
              f_description := description1;
              f_endpointPath := None;
              f_balanceAfter := apiCreditsTotal user1 - apiCreditsUsed user1 |} ;;
         ret (Success
                {| AddResult.totalCredits := apiCreditsTotal user1;
                   AddResult.remainingCredits :=
                     apiCreditsTotal user1 - apiCreditsUsed user1 |})
     end)
    (fun _ => ret (Failure "Error adding API credits" 500)).

(** *** resetCredits *)

Module ResetResult.
Record t := { previousUsed : Z; currentUsed : Z; remainingCredits : Z }.
End ResetResult.

Definition resetCredits (userId : string) : Store (ServiceResult ResetResult.t) :=
  try_catch
    (found <- User_findById (IdString userId) ;;
     match found with
     | None => ret (Failure "User not found" 404)
     | Some found =>
       let previousUsed := apiCreditsUsed found in
       let user1 := set_apiCreditsUsed 0 found in
       User_save found user1 ;;
       CreditTransaction_create
         {| f_user := _id user1;
            f_amount := previousUsed;
            f_type := adjustment;
            f_description := "Admin reset of used credits";
            f_endpointPath := None;
            f_balanceAfter := apiCreditsTotal user1 |} ;;
       ret (Success
              {| ResetResult.previousUsed := previousUsed;
                 ResetResult.currentUsed := 0;
                 ResetResult.remainingCredits := apiCreditsTotal user1 |})
     end)
    (fun _ => ret (Failure "Error resetting API credits" 500)).

(** *** getTransactionHistory *)

(** The order of [.sort({ createdAt: -1 })]: newest first. *)
Definition newer_first (a b : CreditTransaction) : Prop :=
  createdAt b <= createdAt a.

Global Instance newer_first_dec a b : Decision (newer_first a b).
Proof. unfold newer_first. apply _. Defined.

(** [.limit(n)]: a positive limit keeps the first [n] documents. *)
Definition Query_limit (env : Env) (n : Z) (docs : list CreditTransaction)
  : list CreditTransaction :=
  if 0 <? n then take (Z.to_nat n) docs else nonpositive_limit env n docs.

(** The documents matching [{ user: userId }]. *)
Definition of_user (userId : ObjectId) (log : list CreditTransaction)
  : list CreditTransaction :=
  filter (fun t => user t = userId) log.

(** The whole history of an account, newest first.  Documents with equal
    stamps are kept in insertion order. *)
Definition history (userId : ObjectId) (db : DB) : list CreditTransaction :=
  merge_sort newer_first (of_user userId (transactions db)).

(** [CreditTransaction.find({ user: userId }).sort({ createdAt: -1 }).limit(limit)].
    The filter is cast before the query is sent. *)
Definition CreditTransaction_find_sort_limit (userId : IdValue) (limit : Z)
  : Store (list CreditTransaction) :=
  fun env db =>
    match castObjectId env userId with
    | None => (Thrown CastError, db)
    | Some oid =>
        if find_rejects env then (Thrown StoreError, db)
        else (Returned (Query_limit env limit (history oid db)), db)
    end.

(** [userId] is the [_id] of [req.user] in [GET /api/credits] and a route
    parameter in the admin route.  [limit = 20] is a default parameter:
    [None] stands for an omitted argument; a limit that is given is an
    integer. *)
Definition getTransactionHistory (userId : IdValue) (limit0 : option Z)
  : Store (ServiceResult (list CreditTransaction)) :=
  let limit := default 20 limit0 in
  try_catch
    (transactions1 <- CreditTransaction_find_sort_limit userId limit ;;
     ret (Success transactions1))
    (fun _ => ret (Failure "Error fetching credit transaction history" 500)).

(* ===================================================================== *)
(** ** routes/userRoutes.js: POST /api/users/:id/reset-count              *)
(* ===================================================================== *)

(** The JSON bodies the handler can send. *)
Inductive ResetCountBody :=
| ResetCountDone (message : string) (uid : ObjectId) (uname uemail : string)
    (previousUsed currentUsed total remaining : Z)
| ResetCountError (error : JsError).

Record HttpResponse := { status : Z; body : ResetCountBody }.

(** The handler writes [apiCreditsUsed] itself and creates no transaction.
    The status set before the [throw] is overwritten in the [catch]. *)
Definition resetCountRoute (id : string) : Store HttpResponse :=
  try_catch
    (found <- User_findById (IdString id) ;;
     match found with
     | Some found =>
       let previousUsed := apiCreditsUsed found in
       let user1 := set_apiCreditsUsed 0 found in
       User_save found user1 ;;
       ret {| status := 200;
              body := ResetCountDone "API credits reset successfully"
                        (_id user1) (name user1) (email user1)
                        previousUsed 0
                        (apiCreditsTotal user1) (apiCreditsTotal user1) |}
     | None => throw (Error "User not found")
     end)
    (fun error => ret {| status := 400; body := ResetCountError error |}).

(* ===================================================================== *)
(** ** Sequences of requests                                              *)
(* ===================================================================== *)

(** The three mutating operations of the ledger, as calls with their
    arguments. *)
Inductive LedgerCall :=
| Consume (caller : User) (path : string)
| AddCredits (userId : string) (amount0 : Z) (description0 : option string)
| ResetUsed (userId : string).

(** The database left behind by one call. *)
Definition runCall (env : Env) (c : LedgerCall) (db : DB) : DB :=
  match c with
  | Consume caller path => snd (consumeCredits caller path env db)
  | AddCredits userId a d => snd (addCredits userId a d env db)
  | ResetUsed userId => snd (resetCredits userId env db)
  end.

(** Calls served one after the other, each in its own environment. *)
Fixpoint runCalls (cs : list (Env * LedgerCall)) (db : DB) : DB :=
  match cs with
  | [] => db
  | (env, c) :: cs' => runCalls cs' (runCall env c db)
  end.

(** The amounts handed to the ledger are positive.  The cost of a [Consume]
    is not an argument: the service computes it. *)
Definition positive_amount (c : LedgerCall) : Prop :=
  match c with
  | AddCredits _ a _ => 0 < a
  | Consume _ _ | ResetUsed _ => True
  end.

(** The invariant of the data model: the counters of every account satisfy
    [0 <= apiCreditsUsed <= apiCreditsTotal]. *)
Definition credits_ok (db : DB) : Prop :=
  forall id u, users db !! id = Some u ->
    0 <= apiCreditsUsed u /\ apiCreditsUsed u <= apiCreditsTotal u.

(** Every account is as registration leaves it. *)
Definition freshly_registered (db : DB) : Prop :=
  forall id u, users db !! id = Some u ->
    apiCreditsTotal u = default_apiCreditsTotal /\
    apiCreditsUsed u = default_apiCreditsUsed.

(** Documents are stored under their own id. *)
Definition keyed_by_id (db : DB) : Prop :=
  forall id u, users db !! id = Some u -> _id u = id.

(** Two user documents that agree on every declared path except
    [apiCreditsUsed]; the [updatedAt] stamp is left aside. *)
Definition same_but_used (u u' : User) : Prop :=
  _id u' = _id u /\ name u' = name u /\ email u' = email u /\
  password u' = password u /\ googleId u' = googleId u /\
  apiKey u' = apiKey u /\ apiCreditsTotal u' = apiCreditsTotal u /\
  isAdmin u' = isAdmin u.

(* ===================================================================== *)
(** ** Replaying the transaction log                                      *)
(* ===================================================================== *)

(** The effect of one logged transaction on [(creditsTotal, creditsUsed)],
    following the specification's reading of the three kinds: a consumption
    of [-amount] credits, a refill of [amount] credits, an adjustment handing
    [amount] used credits back. *)
Definition replay_step (acc : Z * Z) (t : CreditTransaction) : Z * Z :=
  let '(total, used) := acc in
  match type t with
  | consume => (total, used - amount t)
  | refill => (total + amount t, used)
  | adjustment => (total, used - amount t)
  end.

(** Replay of an account's part of the log from the creation state. *)
Definition replay (userId : ObjectId) (log : list CreditTransaction) : Z * Z :=
  fold_left replay_step (of_user userId log)
            (default_apiCreditsTotal, default_apiCreditsUsed).

(** The log accounts for the balances of every account. *)
Definition log_accounts_for_balances (db : DB) : Prop :=
  forall id u, users db !! id = Some u ->
    replay id (transactions db) = (apiCreditsTotal u, apiCreditsUsed u).

(** The state of a ledger whose log tells the whole story. *)
Definition accounted (db : DB) : Prop :=
  keyed_by_id db /\ log_accounts_for_balances db.

(* ===================================================================== *)
(** ** Sample data                                                        *)
(* ===================================================================== *)

Module Sample.

(** An account as registration leaves it. *)
Definition alice : User :=
  {| _id := "64b7f0c2a1d3e4f5a6b7c8d9"; name := "Alice";
     email := "alice@example.com"; password := Some "$2b$10$hash";
     googleId := None; apiKey := Some "0b9c2f6e-5d4a-4c1b-9a77-3f2e1d0c9b8a";
     apiCreditsUsed := 0; apiCreditsTotal := 100; isAdmin := false;
     updatedAt := 1716000000000 |}.

(** An account that has spent everything. *)
Definition bob : User :=
  {| _id := "64b7f0c2a1d3e4f5a6b7c8da"; name := "Bob";
     email := "bob@example.com"; password := None;
     googleId := Some "1093847561029384756";
     apiKey := Some "5e2a9d10-3c4b-4f6a-8d21-7b9c0e1f2a3b";
     apiCreditsUsed := 100; apiCreditsTotal := 100; isAdmin := false;
     updatedAt := 1716000100000 |}.

(** An administrator with 40 credits used. *)
Definition carol : User :=
  {| _id := "64b7f0c2a1d3e4f5a6b7c8db"; name := "Carol";
     email := "carol@example.com"; password := Some "$2b$10$hashc";
     googleId := None; apiKey := Some "c41d7e88-0a2b-4c3d-9e4f-5a6b7c8d9e0f";
     apiCreditsUsed := 40; apiCreditsTotal := 100; isAdmin := true;
     updatedAt := 1716000200000 |}.

(** An id under which nothing is stored. *)
Definition nobody : ObjectId := "64b7f0c2a1d3e4f5a6b7c8ff".

Definition ghost : User :=
  {| _id := nobody; name := "Ghost"; email := "ghost@example.com";
     password := Some "$2b$10$hashg"; googleId := None;
     apiKey := Some "9f8e7d6c-5b4a-4392-8171-605f4e3d2c1b";
     apiCreditsUsed := 0; apiCreditsTotal := 100; isAdmin := false;
     updatedAt := 1716000300000 |}.

Definition db0 : DB :=
  {| users := {[ _id alice := alice ]}; transactions := [] |}.

Definition db1 : DB :=
  {| users := <[ _id carol := carol ]> (<[ _id bob := bob ]> {[ _id alice := alice ]});
     transactions := [] |}.

(** The store answers reads and user writes but refuses the transaction
    document. *)
Definition append_refused (t : Z) : Env :=
  {| now := t; save_time := t;
     findById_rejects := false; save_rejects := false;
     create_rejects := true; find_rejects := false;
     legacy_cast := fun _ => None;
     nonpositive_limit := fun _ docs => docs |}.

(** The store is unreachable. *)
Definition offline (t : Z) : Env :=
  {| now := t; save_time := t;
     findById_rejects := true; save_rejects := true;
     create_rejects := true; find_rejects := true;
     legacy_cast := fun _ => None;
     nonpositive_limit := fun _ docs => docs |}.

Definition estimate : string := "/api/estimate-calories".

(** A log with three transactions of [alice] and one of [carol]. *)
Definition t1 : CreditTransaction :=
  {| user := _id alice; amount := -1; type := consume;
     description := "API request to /api/estimate-calories";
     endpointPath := Some estimate; balanceAfter := 99;
     createdAt := 1717000000000 |}.
Definition t2 : CreditTransaction :=
  {| user := _id carol; amount := 40; type := adjustment;
     description := "Admin reset of used credits";
     endpointPath := None; balanceAfter := 100;
     createdAt := 1717000001000 |}.
Definition t3 : CreditTransaction :=
  {| user := _id alice; amount := 50; type := refill;
     description := "Credit refill";
     endpointPath := None; balanceAfter := 149;
     createdAt := 1717000002000 |}.
Definition t4 : CreditTransaction :=
  {| user := _id alice; amount := -1; type := consume;
     description := "API request to /api/estimate-calories";
     endpointPath := Some estimate; balanceAfter := 148;
     createdAt := 1717000003000 |}.

Definition db2 : DB :=
  {| users :=
       <[ _id carol := set_updatedAt 1717000001000 (set_apiCreditsUsed 0 carol) ]>
         {[ _id alice :=
              set_updatedAt 1717000003000
                (set_apiCreditsTotal 150 (set_apiCreditsUsed 2 alice)) ]};
     transactions := [t1; t2; t3; t4] |}.

(** Seven calls for [alice], three of them met by a failing store. *)
Definition calls : list (Env * LedgerCall) :=
  [ (calm 1717000000000, Consume alice estimate);
    (append_refused 1717000001000, Consume alice estimate);
    (calm 1717000002000, AddCredits (_id alice) 50 None);
    (calm 1717000003000, ResetUsed (_id alice));
    (calm 1717000004000, AddCredits (_id alice) 900 None);
    (offline 1717000005000, ResetUsed (_id alice));
    (calm 1717000006000, Consume alice estimate) ].

Definition alice_after : User :=
  set_updatedAt 1717000006000
    (set_apiCreditsUsed 1 (set_apiCreditsTotal 150 alice)).

End Sample.

(* ===================================================================== *)
(** ** What one call can do to the ledger                                 *)
(* ===================================================================== *)

(** The value a call hands to [User.findById]. *)
Definition callId (c : LedgerCall) : IdValue :=
  match c with
  | Consume caller _ => IdObject (_id caller)
  | AddCredits userId _ _ => IdString userId
  | ResetUsed userId => IdString userId
  end.

(** The account a call is about, when its id is one. *)
Definition callTarget (env : Env) (c : LedgerCall) : option ObjectId :=
  castObjectId env (callId c).

(** The [type] a call logs. *)
Definition callType (c : LedgerCall) : TransactionType :=
  match c with
  | Consume _ _ => consume
  | AddCredits _ _ _ => refill
  | ResetUsed _ => adjustment
  end.

(** The [description] a call logs. *)
Definition callDescription (c : LedgerCall) : string :=
  match c with
  | Consume _ path => "API request to " +:+ path
  | AddCredits _ _ d => default "Credit refill" d
  | ResetUsed _ => "Admin reset of used credits"
  end.

(** The transaction document of the call is taken: the store does not
    reject it and its description is not empty. *)
Definition append_accepted (env : Env) (c : LedgerCall) : Prop :=
  create_rejects env = false /\ callDescription c <> "".

(** The [statusCode] of what a service function resolved to; [None] for
    [{ success: true }]. *)
Definition resolved_status {A} (o : Outcome (ServiceResult A)) : option Z :=
  match o with
  | Returned (Failure _ code) => Some code
  | Returned (Success _) | Thrown _ => None
  end.

Definition resolved_success {A} (o : Outcome (ServiceResult A)) : bool :=
  match o with
  | Returned (Success _) => true
  | Returned (Failure _ _) | Thrown _ => false
  end.

Definition callStatus (env : Env) (c : LedgerCall) (db : DB) : option Z :=
  match c with
  | Consume caller path => resolved_status (fst (consumeCredits caller path env db))
  | AddCredits userId a d => resolved_status (fst (addCredits userId a d env db))
  | ResetUsed userId => resolved_status (fst (resetCredits userId env db))
  end.

Definition callSucceeds (env : Env) (c : LedgerCall) (db : DB) : bool :=
  match c with
  | Consume caller path => resolved_success (fst (consumeCredits caller path env db))
  | AddCredits userId a d => resolved_success (fst (addCredits userId a d env db))
  | ResetUsed userId => resolved_success (fst (resetCredits userId env db))
  end.

(** The remaining credits of an account. *)
Definition remaining (u : User) : Z := apiCreditsTotal u - apiCreditsUsed u.

(** How a call moves the counters of the document it found. *)
Definition counters_step (c : LedgerCall) (u u' : User) : Prop :=
  match c with
  | Consume _ path =>
      exists cost, getEndpointCreditCost path = JsNumber cost /\
                   cost <= remaining u /\
                   u' = set_apiCreditsUsed (apiCreditsUsed u + cost) u
  | AddCredits _ a _ =>
      apiCreditsTotal u + a <= MAX_CREDITS /\
      u' = set_apiCreditsTotal (apiCreditsTotal u + a) u
  | ResetUsed _ => u' = set_apiCreditsUsed 0 u
  end.

(** The three things a call can do: write nothing, save the document with
    its counters moved and lose the log entry, or do both writes.  [u] is
    the document as it was found and [u'] the document handed to
    [save()]. *)
Inductive Effect (env : Env) (db : DB) (c : LedgerCall) : DB -> Prop :=
| eff_nothing :
    callSucceeds env c db = false ->
    Effect env db c db
| eff_unlogged (k : ObjectId) (u u' : User) :
    callTarget env c = Some k ->
    users db !! k = Some u ->
    counters_step c u u' ->
    validates u' = true ->
    ~ append_accepted env c ->
    callStatus env c db = Some 500 ->
    Effect env db c (saved env u u' db)
| eff_logged (k : ObjectId) (u u' : User) (t : CreditTransaction) :
    callTarget env c = Some k ->
    users db !! k = Some u ->
    counters_step c u u' ->
    validates u' = true ->
    callSucceeds env c db = true ->
    user t = _id u ->
    type t = callType c ->
    amount t = remaining u' - remaining u ->
    balanceAfter t = remaining u' ->
    createdAt t = now env ->
    Effect env db c
      {| users := users (saved env u u' db);
         transactions := transactions db ++ [t] |}.

(** Two user documents that differ at most in the two counters and in the
    [updatedAt] stamp. *)
Definition same_identity (u u' : User) : Prop :=
  _id u' = _id u /\ name u' = name u /\ email u' = email u /\
  password u' = password u /\ googleId u' = googleId u /\
  apiKey u' = apiKey u /\ isAdmin u' = isAdmin u.

(** No account holds more than the ceiling. *)
Definition capped (db : DB) : Prop :=
  forall id u, users db !! id = Some u -> apiCreditsTotal u <= MAX_CREDITS.

(** The sum of the [amount]s logged for an account. *)
Definition sum_amounts (userId : ObjectId) (log : list CreditTransaction) : Z :=
  foldr (fun t acc => amount t + acc) 0 (of_user userId log).

(** The newest log entry of every account shows its current balance. *)
Definition newest_entry_current (db : DB) : Prop :=
  forall id u t,
    users db !! id = Some u ->
    last (of_user id (transactions db)) = Some t ->
    balanceAfter t = remaining u.

(** The balance of every account is the initial grant plus everything
    logged for it. *)
Definition balances_add_up (db : DB) : Prop :=
  forall id u, users db !! id = Some u ->
    remaining u = default_apiCreditsTotal + sum_amounts id (transactions db).

(** The number of calls of a run that report success. *)
Fixpoint successes (cs : list (Env * LedgerCall)) (db : DB) : nat :=
  match cs with
  | [] => 0%nat
  | (env, c) :: cs' =>
      ((if callSucceeds env c db then 1 else 0)
       + successes cs' (runCall env c db))%nat
  end.

(** No store call of the three mutating functions is refused. *)
Definition writes_accepted (env : Env) : Prop :=
  findById_rejects env = false /\ save_rejects env = false /\
  create_rejects env = false.

(* ===================================================================== *)
(** ** middleware/authMiddleware.js                                       *)
(* ===================================================================== *)

(** What a middleware does with a request: hand it on with [next()], or set
    a status and throw. *)
Inductive Guard (A : Type) :=
| Next (a : A)
| Halt (status0 : Z) (e : JsError).
Arguments Next {A} a.
Arguments Halt {A} status0 e.

(** The two request headers [protect] reads; [None] for an absent header. *)
Record Headers := {
  authorization : option string;
  x_api_key : option string
}.

Module CreditInfo.
Record t := { remaining : Z; used : Z; total : option Z }.
End CreditInfo.

(** What [protect] attaches to the request. *)
Record AuthedRequest := {
  req_user : User;
  req_creditInfo : CreditInfo.t
}.

(** What the surroundings decide for [protect]: the outcome of
    [jwt.verify(token, process.env.JWT_SECRET)] followed by the read of
    [decoded.id] (the tokens the server signs carry the [_id] of a user,
    which the cast of [findById] gives back), and whether [User.findOne]
    rejects. *)
Record AuthEnv := {
  jwt_verify : option string -> Outcome ObjectId;
  findOne_rejects : bool
}.

(** [s.split(sep)] for a one-character separator. *)
Fixpoint split_on (sep : Ascii.ascii) (s : string) : list string :=
  match s with
  | EmptyString => [EmptyString]
  | String ch rest =>
      if Ascii.eqb ch sep then EmptyString :: split_on sep rest
      else match split_on sep rest with
           | [] => [String ch EmptyString]
           | w :: ws => String ch w :: ws
           end
  end.

(** [.select('-password')]. *)
Definition without_password (u : User) : User :=
  {| _id := _id u; name := name u; email := email u; password := None;
     googleId := googleId u; apiKey := apiKey u;
     apiCreditsUsed := apiCreditsUsed u; apiCreditsTotal := apiCreditsTotal u;
     isAdmin := isAdmin u; updatedAt := updatedAt u |}.

(** [User.findOne(filter)]: some document matching the filter, or [null]. *)
Definition User_findOne (rejects : bool) (matches : User -> bool)
  : Store (option User) :=
  fun _ db =>
    if rejects then (Thrown StoreError, db)
    else (Returned
            (snd <$> head (filter (fun kv => matches (snd kv) = true)
                                  (map_to_list (users db)))),
          db).

(** The test of the first branch:
    [req.headers.authorization && req.headers.authorization.startsWith('Bearer')]. *)
Definition bearer (headers : Headers) : bool :=
  match authorization headers with
  | Some auth => truthy_string auth && String.prefix "Bearer" auth
  | None => false
  end.

(** [req.headers.authorization.split(' ')[1]]. *)
Definition bearer_token (auth : string) : option string :=
  split_on Ascii.Space auth !! 1%nat.

(** The string holds no space. *)
Fixpoint no_space (s : string) : bool :=
  match s with
  | EmptyString => true
  | String ch rest => negb (Ascii.eqb ch Ascii.Space) && no_space rest
  end.

(** [protect].  In the API-key branch [user] is declared with [const], so
    the statement [user = freshUser] throws a TypeError; what follows it in
    the source is never reached. *)
Definition protect (aenv : AuthEnv) (headers : Headers)
  : Store (Guard AuthedRequest) :=
  if bearer headers then
    try_catch
      (let token := bearer_token (default "" (authorization headers)) in
       match jwt_verify aenv token with
       | Thrown e => throw e
       | Returned id =>
         found <- User_findById (IdObject id) ;;
         match found with
         | None => throw (Error "Not authorized, user not found")
         | Some u =>
           let u := without_password u in
           ret (Next
                  {| req_user := u;
                     req_creditInfo :=
                       {| CreditInfo.remaining :=
                            apiCreditsTotal u - apiCreditsUsed u;
                          CreditInfo.used := apiCreditsUsed u;
                          CreditInfo.total := None |} |})
         end
       end)
      (fun _ => ret (Halt 401 (Error "Not authorized, token failed")))
  else if truthy_string (default "" (x_api_key headers)) then
    try_catch
      (let key := default "" (x_api_key headers) in
       found <- User_findOne (findOne_rejects aenv)
                  (fun u => bool_decide (apiKey u = Some key)) ;;
       match found with
       | None => throw (Error "Invalid API key")
       | Some u =>
         freshUser <- User_findById (IdObject (_id u)) ;;
         throw TypeError
       end)
      (fun _ => ret (Halt 401 (Error "API key authentication failed")))
  else
    ret (Halt 401 (Error "Not authorized, no token or API key")).

(** [admin]. *)
Definition admin (reqUser : option User) : Guard unit :=
  match reqUser with
  | Some u =>
      if isAdmin u then Next tt
      else Halt 401 (Error "Not authorized as an admin")
  | None => Halt 401 (Error "Not authorized as an admin")
  end.

(** A route declared as [router.post(path, protect, admin, handler)]: the
    handler runs only when both middlewares have called [next()]. *)
Definition protect_admin {A} (aenv : AuthEnv) (headers : Headers)
    (handler : AuthedRequest -> Store A) : Store (Guard A) :=
  g <- protect aenv headers ;;
  match g with
  | Halt s e => ret (Halt s e)
  | Next req =>
    match admin (Some (req_user req)) with
    | Halt s e => ret (Halt s e)
    | Next _ => a <- handler req ;; ret (Next a)
    end
  end.

(* ===================================================================== *)
(** ** routes/creditRoutes.js                                             *)
(* ===================================================================== *)

(** [a || b] on Numbers. *)
Definition or_else (a b : Z) : Z := if a =? 0 then b else a.

(** The JSON bodies the credit routes send. *)
Inductive CreditsBody :=
| CreditsOverview (total0 used0 remaining0 : Z)
    (transactions0 : list CreditTransaction)
| CreditsAdded (result : AddResult.t)
| CreditsWasReset (result : ResetResult.t)
| CreditsMessage (message : string)
| CreditsError (error : JsError).

Record CreditsResponse := { credits_status : Z; credits_body : CreditsBody }.

(** [GET /api/credits]: the balance is read off [req.user], the history is
    fetched with the default limit. *)
Definition getCreditsRoute (reqUser : User) : Store CreditsResponse :=
  try_catch
    (historyResult <- getTransactionHistory (IdObject (_id reqUser)) None ;;
     match historyResult with
     | Failure message code =>
         ret {| credits_status := or_else code 500;
                credits_body := CreditsMessage message |}
     | Success transactions0 =>
         ret {| credits_status := 200;
                credits_body :=
                  CreditsOverview (apiCreditsTotal reqUser)
                    (apiCreditsUsed reqUser)
                    (apiCreditsTotal reqUser - apiCreditsUsed reqUser)
                    transactions0 |}
     end)
    (fun error => ret {| credits_status := 500;
                         credits_body := CreditsError error |}).

(** [!amount || isNaN(amount) || amount <= 0], for a body whose [amount] is
    absent ([None]) or an integer Number. *)
Definition invalid_amount (amount0 : option Z) : bool :=
  match amount0 with
  | None => true
  | Some a => (a =? 0) || false || (a <=? 0)
  end.

(** [POST /api/credits/:userId/add]. *)
Definition addCreditsRoute (reqUser : User) (userId : string)
    (amount0 : option Z) : Store CreditsResponse :=
  try_catch
    (if invalid_amount amount0 then
       ret {| credits_status := 400;
              credits_body :=
                CreditsMessage "Please provide a valid positive amount" |}
     else
       result <- addCredits userId (default 0 amount0)
                   (Some ("Admin credit addition by " +:+ name reqUser)) ;;
       match result with
       | Failure message code =>
           ret {| credits_status := or_else code 500;
                  credits_body := CreditsMessage message |}
       | Success r =>
           ret {| credits_status := 200; credits_body := CreditsAdded r |}
       end)
    (fun error => ret {| credits_status := 500;
                         credits_body := CreditsError error |}).

(** [POST /api/credits/:userId/reset]. *)
Definition resetCreditsRoute (userId : string) : Store CreditsResponse :=
  try_catch
    (result <- resetCredits userId ;;
     match result with
     | Failure message code =>
         ret {| credits_status := or_else code 500;
                credits_body := CreditsMessage message |}
     | Success r =>
         ret {| credits_status := 200; credits_body := CreditsWasReset r |}
     end)
    (fun error => ret {| credits_status := 500;
                         credits_body := CreditsError error |}).

(* ===================================================================== *)
(** ** server.js: POST /api/estimate-calories, up to the model call       *)
(* ===================================================================== *)

(** Where the handler stands when the credit check is over: it has answered
    400 for a missing file, it has answered with the failure of
    [consumeCredits], or it goes on to call the generative model. *)
Inductive EstimateGate :=
| NoFile (status0 : Z) (error : string)
| Refused (status0 : Z) (error : string) (used0 total0 remaining0 : Z)
| Charged.

Definition estimateCalories_gate (reqUser : User) (hasFile : bool)
  : Store EstimateGate :=
  if negb hasFile then ret (NoFile 400 "Please upload an image file")
  else
    creditResult <- consumeCredits reqUser "/api/estimate-calories" ;;
    match creditResult with
    | Failure message code =>
        ret (Refused (or_else code 429) message
               (apiCreditsUsed reqUser) (apiCreditsTotal reqUser)
               (apiCreditsTotal reqUser - apiCreditsUsed reqUser))
    | Success _ => ret Charged
    end.

(* ===================================================================== *)
(** ** routes/userRoutes.js: DELETE /api/users/:id                        *)
(* ===================================================================== *)

Inductive DeleteBody :=
| DeleteMessage (message : string)
| DeleteError (error : JsError).

Record DeleteResponse := { delete_status : Z; delete_body : DeleteBody }.

(** [User.deleteOne({ _id: id })]. *)
Definition User_deleteOne (rejects : bool) (id : ObjectId) : Store unit :=
  fun _ db =>
    if rejects then (Thrown StoreError, db)
    else (Returned tt, {| users := delete id (users db);
                          transactions := transactions db |}).

(** The handler; the status set before a [throw] is overwritten in the
    [catch]. *)
Definition deleteUserRoute (deleteOne_rejects : bool) (reqUser : User)
    (id : string) : Store DeleteResponse :=
  try_catch
    (found <- User_findById (IdString id) ;;
     match found with
     | Some u =>
       if bool_decide (_id u = _id reqUser) then
         throw (Error "Cannot delete your own account")
       else
         User_deleteOne deleteOne_rejects (_id u) ;;
         ret {| delete_status := 200;
                delete_body := DeleteMessage "User removed" |}
     | None => throw (Error "User not found")
     end)
    (fun error => ret {| delete_status := 400;
                         delete_body := DeleteError error |}).

(* ===================================================================== *)
(** ** Account creation and the other writers of the users collection    *)
(* ===================================================================== *)

(** What the surroundings decide when accounts are created or edited:
    the [_id] generated for a new document, the value of [uuidv4()], the
    result of [bcrypt.hash] with its fresh salt, the [lowercase]/[trim]
    setters of the [email] path, the form in which a filter on [email]
    reaches the store, whether [User.findOne] and [User.create] reject
    (unique index, connection, ...), the token [jwt.sign] returns, the
    answer of Google's tokeninfo endpoint and [process.env.GOOGLE_CLIENT_ID]. *)
Record SignupEnv := {
  generated_id : ObjectId;
  uuidv4 : string;
  bcrypt_hash : string -> string;
  email_setter : string -> string;
  query_email : string -> string;
  user_findOne_rejects : bool;
  user_create_rejects : bool;
  jwt_sign : ObjectId -> string;
  tokeninfo : string -> Outcome (option string * string * string
                                 * option string * option string);
  GOOGLE_CLIENT_ID : option string
}.

Definition set_googleId (v : option string) (u : User) : User :=
  {| _id := _id u; name := name u; email := email u; password := password u;
     googleId := v; apiKey := apiKey u;
     apiCreditsUsed := apiCreditsUsed u; apiCreditsTotal := apiCreditsTotal u;
     isAdmin := isAdmin u; updatedAt := updatedAt u |}.

Definition set_apiKey (v : option string) (u : User) : User :=
  {| _id := _id u; name := name u; email := email u; password := password u;
     googleId := googleId u; apiKey := v;
     apiCreditsUsed := apiCreditsUsed u; apiCreditsTotal := apiCreditsTotal u;
     isAdmin := isAdmin u; updatedAt := updatedAt u |}.

Definition set_profile (n e : string) (a : bool) (u : User) : User :=
  {| _id := _id u; name := n; email := e; password := password u;
     googleId := googleId u; apiKey := apiKey u;
     apiCreditsUsed := apiCreditsUsed u; apiCreditsTotal := apiCreditsTotal u;
     isAdmin := a; updatedAt := updatedAt u |}.

(** The fields handed to [User.create]; [None] for a field left out. *)
Record UserFields := {
  new_name : option string;
  new_email : option string;
  new_password : option string;
  new_googleId : option string;
  new_apiKey : option string;
  new_apiCreditsUsed : option Z;
  new_apiCreditsTotal : option Z
}.

(** [User.create(fields)].  The [email] setters run first; [name] and
    [email] are required (for a String path: present and not empty), and so
    is [password] unless [googleId] is set; the schema defaults fill the
    counters and [isAdmin]; the [pre('save')] hook hashes a password that
    is set; the timestamp plugin stamps the document.  The store refuses a
    document whose [_id] is taken. *)
Definition User_create (senv : SignupEnv) (f : UserFields) : Store User :=
  fun env db =>
    let email1 := email_setter senv <$> new_email f in
    if negb (truthy_opt (new_name f)) || negb (truthy_opt email1)
       || (negb (truthy_opt (new_googleId f))
           && negb (truthy_opt (new_password f)))
    then (Thrown ValidationError, db)
    else if user_create_rejects senv then (Thrown StoreError, db)
    else
      match users db !! generated_id senv with
      | Some _ => (Thrown StoreError, db)
      | None =>
        let doc :=
          {| _id := generated_id senv;
             name := default "" (new_name f);
             email := default "" email1;
             password :=
               if truthy_opt (new_password f)
               then bcrypt_hash senv <$> new_password f
               else new_password f;
             googleId := new_googleId f;
             apiKey := new_apiKey f;
             apiCreditsUsed :=
               default default_apiCreditsUsed (new_apiCreditsUsed f);
             apiCreditsTotal :=
               default default_apiCreditsTotal (new_apiCreditsTotal f);
             isAdmin := false;
             updatedAt := save_time env |} in
        (Returned doc,
         {| users := <[_id doc := doc]> (users db);
            transactions := transactions db |})
      end.

(** The JSON bodies of the user routes. *)
Inductive UserBody :=
| SessionBody (uid : ObjectId) (uname uemail : string) (admin0 : bool)
    (key : option string) (credits : option (Z * Z)) (token : string)
| ApiKeyBody (key : option string)
| UpdatedBody (uid : ObjectId) (uname uemail : string) (admin0 : bool)
| ErrorBody (error : JsError)
| TextBody (message : string).

Record UserResponse := { user_status : Z; user_body : UserBody }.

(** [POST /api/users]: registration.  The body's [email] is a string;
    [name] and [password] may be missing. *)
Definition registerRoute (senv : SignupEnv)
    (name0 : option string) (email0 : string) (password0 : option string)
  : Store UserResponse :=
  try_catch
    (userExists <- User_findOne (user_findOne_rejects senv)
                     (fun u => bool_decide (email u = query_email senv email0)) ;;
     match userExists with
     | Some _ => throw (Error "User already exists")
     | None =>
       let apiKey0 := uuidv4 senv in
       user1 <- User_create senv
                  {| new_name := name0; new_email := Some email0;
                     new_password := password0; new_googleId := None;
                     new_apiKey := Some apiKey0;
                     new_apiCreditsUsed := None;
                     new_apiCreditsTotal := None |} ;;
       ret {| user_status := 201;
              user_body :=
                SessionBody (_id user1) (name user1) (email user1)
                  (isAdmin user1) (apiKey user1) None
                  (jwt_sign senv (_id user1)) |}
     end)
    (fun error => ret {| user_status := 400; user_body := ErrorBody error |}).

(** [utils/googleTokenVerifier.js].  The endpoint's answer is the tuple
    [(aud, sub, email, email_verified, name)]; every failure, the audience
    mismatch included, is rethrown as one error. *)
Definition verifyGoogleIdToken (senv : SignupEnv) (idToken : string)
  : Outcome (string * string * bool * string) :=
  match tokeninfo senv idToken with
  | Thrown _ => Thrown (Error "Failed to verify Google token")
  | Returned (aud, sub, email1, email_verified, name1) =>
      if bool_decide (aud = GOOGLE_CLIENT_ID senv) then
        Returned (sub, email1,
                  bool_decide (email_verified = Some "true"),
                  if truthy_opt name1 then default "" name1 else "")
      else Thrown (Error "Failed to verify Google token")
  end.

(** [POST /api/users/auth/google/ios]. *)
Definition googleIosRoute (senv : SignupEnv) (idToken : option string)
  : Store UserResponse :=
  try_catch
    (if negb (truthy_opt idToken) then
       ret {| user_status := 400; user_body := TextBody "ID token is required" |}
     else
       match verifyGoogleIdToken senv (default "" idToken) with
       | Thrown e => throw e
       | Returned (googleId0, email0, _, name0) =>
         found <- User_findOne (user_findOne_rejects senv)
                    (fun u => bool_decide (googleId u = Some googleId0)
                              || bool_decide (email u = query_email senv email0)) ;;
         user1 <-
           match found with
           | None =>
             let apiKey0 := uuidv4 senv in
             User_create senv
               {| new_name := Some name0; new_email := Some email0;
                  new_password := None; new_googleId := Some googleId0;
                  new_apiKey := Some apiKey0;
                  new_apiCreditsUsed := Some 0;
                  new_apiCreditsTotal := Some 100 |}
           | Some found =>
             if negb (truthy_opt (googleId found)) then
               let u := set_googleId (Some googleId0) found in
               let u := if negb (truthy_opt (apiKey u))
                        then set_apiKey (Some (uuidv4 senv)) u else u in
               User_save found u
             else ret found
           end ;;
         ret {| user_status := 200;
                user_body :=
                  SessionBody (_id user1) (name user1) (email user1)
                    (isAdmin user1) (apiKey user1)
                    (Some (apiCreditsUsed user1, apiCreditsTotal user1))
                    (jwt_sign senv (_id user1)) |}
       end)
    (fun _ => ret {| user_status := 401;
                     user_body := TextBody "Invalid Google token" |}).

(** What the verify callback of [config/passportConfig.js] hands to
    [done]. *)
Inductive PassportDone :=
| DoneUser (u : User)
| DoneError (e : JsError).

(** The verify callback of the Google strategy.  [emails] is the list of
    [profile.emails[i].value], empty when the profile has none. *)
Definition passportVerify (senv : SignupEnv)
    (profile_id : string) (emails : list string) (displayName : string)
  : Store PassportDone :=
  try_catch
    (byId <- User_findOne (user_findOne_rejects senv)
               (fun u => bool_decide (googleId u = Some profile_id)) ;;
     found <-
       match byId, emails with
       | None, email0 :: _ =>
         byEmail <- User_findOne (user_findOne_rejects senv)
                      (fun u => bool_decide (email u = query_email senv email0)) ;;
         match byEmail with
         | Some found =>
           u <- User_save found (set_googleId (Some profile_id) found) ;;
           ret (Some u)
         | None => ret None
         end
       | _, _ => ret byId
       end ;;
     user1 <-
       match found with
       | None =>
         let apiKey0 := uuidv4 senv in
         match emails with
         | email0 :: _ =>
           User_create senv
             {| new_name := Some displayName; new_email := Some email0;
                new_password := None; new_googleId := Some profile_id;
                new_apiKey := Some apiKey0;
                new_apiCreditsUsed := None; new_apiCreditsTotal := None |}
         | [] => throw TypeError        (* profile.emails[0].value *)
         end
       | Some found =>
         if negb (truthy_opt (apiKey found)) then
           User_save found (set_apiKey (Some (uuidv4 senv)) found)
         else ret found
       end ;;
     ret (DoneUser user1))
    (fun error => ret (DoneError error)).

(** [POST /api/users/api-key], after [protect]. *)
Definition apiKeyRoute (senv : SignupEnv) (reqUser : User)
  : Store UserResponse :=
  try_catch
    (found <- User_findById (IdObject (_id reqUser)) ;;
     match found with
     | Some found =>
       u <- User_save found (set_apiKey (Some (uuidv4 senv)) found) ;;
       ret {| user_status := 200; user_body := ApiKeyBody (apiKey u) |}
     | None => throw (Error "User not found")
     end)
    (fun error => ret {| user_status := 404; user_body := ErrorBody error |}).

(** [PUT /api/users/:id], after [protect] and [admin].  The body's [name]
    and [email] are strings or missing, its [isAdmin] a boolean or
    missing. *)
Definition updateUserRoute (senv : SignupEnv) (id : string)
    (name0 email0 : option string) (isAdmin0 : option bool)
  : Store UserResponse :=
  try_catch
    (found <- User_findById (IdString id) ;;
     match found with
     | Some found =>
       let u :=
         set_profile
           (if truthy_opt name0 then default "" name0 else name found)
           (email_setter senv
              (if truthy_opt email0 then default "" email0 else email found))
           (default (isAdmin found) isAdmin0)
           found in
       updatedUser <- User_save found u ;;
       ret {| user_status := 200;
              user_body := UpdatedBody (_id updatedUser) (name updatedUser)
                             (email updatedUser) (isAdmin updatedUser) |}
     | None => throw (Error "User not found")
     end)
    (fun error => ret {| user_status := 404; user_body := ErrorBody error |}).

(** A route declared as [router.post(path, protect, handler)]. *)
Definition protect_then {A} (aenv : AuthEnv) (headers : Headers)
    (handler : AuthedRequest -> Store A) : Store (Guard A) :=
  g <- protect aenv headers ;;
  match g with
  | Halt s e => ret (Halt s e)
  | Next req => a <- handler req ;; ret (Next a)
  end.

(** One request served by the API: the database before and after.  Every
    route that can write the users collection or the credit log is there,
    behind the middlewares it is declared with ([upload.single], which
    stands between [protect] and the estimation handler, decides [hasFile]
    or ends the request). *)
Inductive Served : DB -> DB -> Prop :=
| served_register senv env name0 email0 password0 db :
    Served db (snd (registerRoute senv name0 email0 password0 env db))
| served_google_ios senv env idToken db :
    Served db (snd (googleIosRoute senv idToken env db))
| served_google_oauth senv env profile_id emails displayName db :
    Served db (snd (passportVerify senv profile_id emails displayName env db))
| served_api_key aenv headers senv env db :
    Served db (snd (protect_then aenv headers
                      (fun req => apiKeyRoute senv (req_user req)) env db))
| served_estimate aenv headers hasFile env db :
    Served db (snd (protect_then aenv headers
                      (fun req => estimateCalories_gate (req_user req) hasFile)
                      env db))
| served_get_credits aenv headers env db :
    Served db (snd (protect_then aenv headers
                      (fun req => getCreditsRoute (req_user req)) env db))
| served_add_credits aenv headers userId amount0 env db :
    Served db (snd (protect_admin aenv headers
                      (fun req => addCreditsRoute (req_user req) userId amount0)
                      env db))
| served_reset_credits aenv headers userId env db :
    Served db (snd (protect_admin aenv headers
                      (fun _ => resetCreditsRoute userId) env db))
| served_reset_count aenv headers id env db :
    Served db (snd (protect_admin aenv headers
                      (fun _ => resetCountRoute id) env db))
| served_update aenv headers senv id name0 email0 isAdmin0 env db :
    Served db (snd (protect_admin aenv headers
                      (fun _ => updateUserRoute senv id name0 email0 isAdmin0)
                      env db))
| served_delete aenv headers rejects id env db :
    Served db (snd (protect_admin aenv headers
                      (fun req => deleteUserRoute rejects (req_user req) id)
                      env db)).

(** The databases the API can reach from a given one. *)
Inductive Reaches (db : DB) : DB -> Prop :=
| reaches_refl : Reaches db db
| reaches_step db1 db2 : Reaches db db1 -> Served db1 db2 -> Reaches db db2.

(** The empty database of a fresh deployment. *)
Definition empty_db : DB := {| users := ∅; transactions := [] |}.

(** Every account is an ordinary user with the initial grant, not yet
    overspent, and the log holds nothing but charges of one credit. *)
Definition unprivileged (db : DB) : Prop :=
  (forall id u, users db !! id = Some u ->
     isAdmin u = false /\ apiCreditsTotal u = 100
     /\ 0 <= apiCreditsUsed u /\ apiCreditsUsed u <= 100)
  /\ (forall t, t ∈ transactions db -> type t = consume /\ amount t = -1).

(** [db'] holds no counters and no admin flag that were not in [db]: the
    log is the same, and every account of [db'] has the counters and the
    admin flag of an account of [db], or is a new account with the initial
    grant, nothing used and no admin flag. *)
Definition inherits (db db' : DB) : Prop :=
  transactions db' = transactions db
  /\ forall id u', users db' !! id = Some u' ->
       (exists k u, users db !! k = Some u
                    /\ apiCreditsTotal u' = apiCreditsTotal u
                    /\ apiCreditsUsed u' = apiCreditsUsed u
                    /\ isAdmin u' = isAdmin u)
       \/ (apiCreditsTotal u' = 100 /\ apiCreditsUsed u' = 0
           /\ isAdmin u' = false).

(** Two documents of one account with the same credits and the same
    privileges. *)
Definition same_account (u u' : User) : Prop :=
  _id u' = _id u /\ apiCreditsTotal u' = apiCreditsTotal u
  /\ apiCreditsUsed u' = apiCreditsUsed u /\ isAdmin u' = isAdmin u.

(** Signing up touches neither credits nor privileges: the log is the
    same; every account of [db] is still stored under its id, with its own
    counters and its own admin flag; and an account stored under an id that
    was free in [db] has the initial grant, nothing used and no admin
    flag. *)
Definition keeps_credits_and_privileges (db db' : DB) : Prop :=
  transactions db' = transactions db
  /\ (forall id u, users db !! id = Some u ->
        exists u', users db' !! id = Some u' /\ same_account u u')
  /\ (forall id u', users db' !! id = Some u' -> users db !! id = None ->
        _id u' = id /\ apiCreditsTotal u' = 100 /\ apiCreditsUsed u' = 0
        /\ isAdmin u' = false).

(** The bounds on the counters. *)
Definition within_bounds (db : DB) : Prop :=
  forall id u, users db !! id = Some u ->
    0 <= apiCreditsUsed u /\ apiCreditsUsed u <= apiCreditsTotal u
    /\ apiCreditsTotal u <= MAX_CREDITS.

(* ===================================================================== *)
(** ** Sequences of HTTP requests                                         *)
(* ===================================================================== *)

(** The handlers that can write a credit counter, as requests that have
    passed their middlewares. *)
Inductive HttpCall :=
| GetCredits (reqUser : User)
| PostAddCredits (reqUser : User) (userId : string) (amount0 : option Z)
| PostResetCredits (userId : string)
| PostResetCount (id : string)
| PostEstimate (reqUser : User) (hasFile : bool).

Definition runHttp (env : Env) (h : HttpCall) (db : DB) : DB :=
  match h with
  | GetCredits reqUser => snd (getCreditsRoute reqUser env db)
  | PostAddCredits reqUser userId a => snd (addCreditsRoute reqUser userId a env db)
  | PostResetCredits userId => snd (resetCreditsRoute userId env db)
  | PostResetCount id => snd (resetCountRoute id env db)
  | PostEstimate reqUser hasFile => snd (estimateCalories_gate reqUser hasFile env db)
  end.

Fixpoint runHttps (hs : list (Env * HttpCall)) (db : DB) : DB :=
  match hs with
  | [] => db
  | (env, h) :: hs' => runHttps hs' (runHttp env h db)
  end.

(* ===================================================================== *)
(** ** Further sample data                                                *)
(* ===================================================================== *)

Module Scenario.

(** Five calls for the sample account [alice], all served by a healthy
    store. *)
Definition calls_ok : list (Env * LedgerCall) :=
  [ (calm 1717000000000, Consume Sample.alice Sample.estimate);
    (calm 1717000001000, AddCredits (_id Sample.alice) 50 None);
    (calm 1717000002000, Consume Sample.alice Sample.estimate);
    (calm 1717000003000, ResetUsed (_id Sample.alice));
    (calm 1717000004000, Consume Sample.alice Sample.estimate) ].

Definition alice_final : User :=
  set_updatedAt 1717000004000
    (set_apiCreditsUsed 1 (set_apiCreditsTotal 150 Sample.alice)).

Definition last_entry : CreditTransaction :=
  {| user := _id Sample.alice; amount := -1; type := consume;
     description := "API request to /api/estimate-calories";
     endpointPath := Some Sample.estimate; balanceAfter := 149;
     createdAt := 1717000004000 |}.

(** An account with three credits left. *)
Definition dave : User :=
  {| _id := "64b7f0c2a1d3e4f5a6b7c8dc"; name := "Dave";
     email := "dave@example.com"; password := Some "$2b$10$hashd";
     googleId := None; apiKey := Some "2c3d4e5f-6a7b-4c8d-9e0f-1a2b3c4d5e6f";
     apiCreditsUsed := 97; apiCreditsTotal := 100; isAdmin := false;
     updatedAt := 1716000400000 |}.

Definition db_dave : DB :=
  {| users := {[ _id dave := dave ]}; transactions := [] |}.

(** The sample account [alice] as [Sample.db2] stores it. *)
Definition alice_seen : User :=
  set_updatedAt 1717000003000
    (set_apiCreditsTotal 150 (set_apiCreditsUsed 2 Sample.alice)).

(** Seven requests: a charge, two grants the route or the service refuses, a
    grant of 50, a reset through the user route, a charge and a read. *)
Definition requests : list (Env * HttpCall) :=
  [ (calm 1717000000000, PostEstimate Sample.alice true);
    (calm 1717000001000,
     PostAddCredits Sample.carol (_id Sample.alice) (Some (-500)));
    (calm 1717000002000,
     PostAddCredits Sample.carol (_id Sample.alice) (Some 2000));
    (calm 1717000003000,
     PostAddCredits Sample.carol (_id Sample.alice) (Some 50));
    (calm 1717000004000, PostResetCount (_id Sample.alice));
    (calm 1717000005000, PostEstimate Sample.alice true);
    (calm 1717000006000, GetCredits Sample.alice) ].

(** The sample account [alice] after these requests. *)
Definition alice_served : User :=
  set_updatedAt 1717000005000
    (set_apiCreditsUsed 1 (set_apiCreditsTotal 150 Sample.alice)).

(** A verifier that accepts one token, for [carol], the administrator. *)
Definition carol_token : string := "eyJhbGciOiJIUzI1NiJ9.eyJpZCI6ImNhcm9sIn0.c2ln".

Definition aenv : AuthEnv :=
  {| jwt_verify := fun token =>
       if bool_decide (token = Some carol_token) then Returned (_id Sample.carol)
       else Thrown (Error "invalid token");
     findOne_rejects := false |}.

(** A request that presents the API key of [alice]. *)
Definition with_api_key : Headers :=
  {| authorization := None;
     x_api_key := Some "0b9c2f6e-5d4a-4c1b-9a77-3f2e1d0c9b8a" |}.

(** A request that presents the token of [carol]. *)
Definition with_token : Headers :=
  {| authorization := Some ("Bearer " +:+ carol_token); x_api_key := None |}.

(** Collaborators of a sign-up: Google's endpoint answers for one token,
    issued for another application. *)
Definition senv : SignupEnv :=
  {| generated_id := "64b7f0c2a1d3e4f5a6b7c8e0";
     uuidv4 := "7d1f3c52-9f0e-4b7a-8c11-2a6b5e4d3c90";
     bcrypt_hash := fun p => "$2b$10$" +:+ p;
     email_setter := fun e => e;
     query_email := fun e => e;
     user_findOne_rejects := false;
     user_create_rejects := false;
     jwt_sign := fun id => "signed." +:+ id;
     tokeninfo := fun t =>
       if bool_decide (t = "google-id-token")
       then Returned (Some "another-app.apps.googleusercontent.com",
                      "1093847561029384756", "erin@example.com",
                      Some "true", Some "Erin")
       else Thrown (Error "Request failed with status code 400");
     GOOGLE_CLIENT_ID := Some "this-app.apps.googleusercontent.com" |}.

(** The account a registration creates in the empty database. *)
Definition erin : User :=
  {| _id := "64b7f0c2a1d3e4f5a6b7c8e0"; name := "Erin";
     email := "erin@example.com"; password := Some "$2b$10$s3cret";
     googleId := None;
     apiKey := Some "7d1f3c52-9f0e-4b7a-8c11-2a6b5e4d3c90";
     apiCreditsUsed := 0; apiCreditsTotal := 100; isAdmin := false;
     updatedAt := 1717000000000 |}.

Definition registered : DB :=
  snd (registerRoute senv (Some "Erin") "erin@example.com" (Some "s3cret")
         (calm 1717000000000) empty_db).

(** Five healthy environments, one per request. *)
Definition five_envs : list Env :=
  [ calm 1717000000000; calm 1717000001000; calm 1717000002000;
    calm 1717000003000; calm 1717000004000 ].

End Scenario.

(* ===================================================================== *)
(** ** Tactics                                                            *)
(* ===================================================================== *)

(** Unfolding of the monadic plumbing. *)
Ltac unfold_store :=
  unfold try_catch, bind, ret, throw,
         User_findById, User_save, CreditTransaction_create,
         CreditTransaction_find_sort_limit in *.

(* ===================================================================== *)
(** ** The store calls                                                    *)
(* ===================================================================== *)

Lemma truthy_string_nonempty (s : string) : s <> "" -> truthy_string s = true.
Proof. destruct s; [congruence | reflexivity]. Qed.

Section StoreCalls.

Variable env : Env.

(** A 24-digit id is read the same way by every driver. *)
Lemma castObjectId_24 (env' : Env) (s : string) (oid : ObjectId) :
  String.length s = 24%nat ->
  castObjectId env (IdString s) = Some oid ->
  castObjectId env' (IdString s) = Some oid.
Proof.
  intros Hlen. unfold castObjectId. rewrite Hlen. simpl. auto.
Qed.

Lemma set_apiCreditsUsed_changes (v : Z) (u : User) :
  v <> apiCreditsUsed u -> set_apiCreditsUsed v u <> u.
Proof. intros Hv E. apply Hv. apply (f_equal apiCreditsUsed) in E. exact E. Qed.

Lemma set_apiCreditsTotal_changes (v : Z) (u : User) :
  v <> apiCreditsTotal u -> set_apiCreditsTotal v u <> u.
Proof. intros Hv E. apply Hv. apply (f_equal apiCreditsTotal) in E. exact E. Qed.


Lemma saved_modified (loaded u : User) (db : DB) :
  u <> loaded ->
  saved env loaded u db =
    {| users := <[_id u := set_updatedAt (save_time env) u]> (users db);
       transactions := transactions db |}.
Proof. intros H. unfold saved. case_decide; [contradiction | reflexivity]. Qed.

Lemma saved_transactions (loaded u : User) (db : DB) :
  transactions (saved env loaded u db) = transactions db.
Proof. unfold saved. case_decide; reflexivity. Qed.

(** A document found after a save was there before, or is the saved one
    with its new stamp. *)
Lemma saved_lookup (loaded u : User) (db : DB) (id : ObjectId) (v : User) :
  users (saved env loaded u db) !! id = Some v ->
  users db !! id = Some v
  \/ (id = _id u /\ v = set_updatedAt (save_time env) u /\ u <> loaded).
Proof.
  unfold saved. case_decide as Hm; [auto |]. simpl.
  rewrite lookup_insert. case_decide as Hid.
  - intros [= <-]. right. auto.
  - auto.
Qed.

Lemma saved_lookup_ne (loaded u : User) (db : DB) (id : ObjectId) :
  id <> _id u -> users (saved env loaded u db) !! id = users db !! id.
Proof.
  intros Hne. unfold saved. case_decide; [reflexivity |]. simpl.
  apply lookup_insert_ne. congruence.
Qed.

(** The document saved under its own id is found again, stamped if it was
    changed. *)
Lemma saved_lookup_eq (loaded u : User) (db : DB) :
  users db !! _id u = Some loaded ->
  users (saved env loaded u db) !! _id u = Some (saved_doc env loaded u).
Proof.
  intros Hl. unfold saved, saved_doc. case_decide as Hm.
  - subst u. exact Hl.
  - simpl. apply lookup_insert_eq.
Qed.

End StoreCalls.

(* ===================================================================== *)
(** ** getEndpointCreditCost                                              *)
(* ===================================================================== *)

Section CostOf.

Lemma costMap_lookup (p : string) (c : Z) :
  costMap !! p = Some c -> p = "/api/estimate-calories" /\ c = 1.
Proof.
  unfold costMap. intros H.
  apply lookup_singleton_Some in H. destruct H; subst; auto.
Qed.

(** A key of the table is priced as the table says. *)
Lemma getEndpointCreditCost_listed (p : string) (c : Z) :
  costMap !! p = Some c -> getEndpointCreditCost p = JsNumber c.
Proof.
  intros H. unfold getEndpointCreditCost, costMap_get. rewrite H.
  apply costMap_lookup in H as [_ ->]. reflexivity.
Qed.

(** A string that is neither a key of the table nor the name of an
    inherited property costs the default. *)
Lemma getEndpointCreditCost_default (p : string) :
  costMap !! p = None -> ObjectPrototype_get p = None ->
  getEndpointCreditCost p = JsNumber 1.
Proof.
  intros H1 H2. unfold getEndpointCreditCost, costMap_get.
  rewrite H1, H2. reflexivity.
Qed.

(** Whenever the cost is a number, it is 1. *)
Lemma getEndpointCreditCost_number (p : string) (c : Z) :
  getEndpointCreditCost p = JsNumber c -> c = 1.
Proof.
  unfold getEndpointCreditCost, costMap_get, ObjectPrototype_get.
  destruct (costMap !! p) as [c'|] eqn:E.
  - apply costMap_lookup in E as [_ ->]. simpl. congruence.
  - repeat case_decide; simpl; congruence.
Qed.

(** No property inherited from [Object.prototype] has a name that starts
    with a slash. *)
Lemma ObjectPrototype_get_path (p : string) :
  String.prefix "/" p = true -> ObjectPrototype_get p = None.
Proof.
  destruct p as [| ch p]; [discriminate |]. cbn [String.prefix].
  destruct (Ascii.ascii_dec _ ch) as [<- | Hne]; [intros _ | discriminate].
  unfold ObjectPrototype_get, ObjectPrototype_methods.
  case_decide as H1; [discriminate H1 |].
  case_decide as H2; [| reflexivity].
  repeat (apply elem_of_cons in H2 as [H2 | H2]; [discriminate H2 |]).
  apply elem_of_nil in H2. destruct H2.
Qed.

End CostOf.

(** C9.  [getEndpointCreditCost] is a function of its argument alone (it
    reads no state).  For every endpoint path, that is every string that
    starts with a slash, it returns the cost the table lists when the path
    is a key of the table and the default cost 1 when it is not, and the
    result is always a positive integer. *)
Theorem getEndpointCreditCost_spec (endpointPath0 : string) :
  String.prefix "/" endpointPath0 = true ->
  (forall c, costMap !! endpointPath0 = Some c ->
             getEndpointCreditCost endpointPath0 = JsNumber c)
  /\ (costMap !! endpointPath0 = None ->
      getEndpointCreditCost endpointPath0 = JsNumber 1)
  /\ exists n, getEndpointCreditCost endpointPath0 = JsNumber n /\ 0 < n.
Proof.
  intros Hpath.
  split; [intros c; apply getEndpointCreditCost_listed |].
  assert (Hdefault : costMap !! endpointPath0 = None ->
                     getEndpointCreditCost endpointPath0 = JsNumber 1).
  { intros Hnone. apply getEndpointCreditCost_default; [exact Hnone |].
    apply ObjectPrototype_get_path. exact Hpath. }
  split; [exact Hdefault |].
  destruct (costMap !! endpointPath0) as [c|] eqn:E.
  - exists c. split; [apply getEndpointCreditCost_listed; exact E |].
    apply costMap_lookup in E as [_ ->]. lia.
  - exists 1. split; [apply Hdefault; reflexivity | lia].
Qed.

(** The path of the table and a path that is not in the table. *)
Lemma getEndpointCreditCost_spec_witness :
  getEndpointCreditCost "/api/estimate-calories" = JsNumber 1
  /\ getEndpointCreditCost "/api/food-analyses" = JsNumber 1.
Proof.
  split.
  - exact (proj1 (getEndpointCreditCost_spec "/api/estimate-calories" eq_refl)
                 1 eq_refl).
  - exact (proj1 (proj2 (getEndpointCreditCost_spec "/api/food-analyses" eq_refl))
                 eq_refl).
Defined.

(** A name inherited from [Object.prototype] is not an endpoint path; read
    as one it would not be priced at all: the property read finds the
    inherited method, which is truthy. *)
Lemma getEndpointCreditCost_inherited_names :
  Forall (fun p => forall n : Z, getEndpointCreditCost p <> JsNumber n)
         ("__proto__" :: ObjectPrototype_methods).
Proof.
  repeat constructor; intros n; vm_compute; discriminate.
Qed.

(* ===================================================================== *)
(** ** consumeCredits                                                     *)
(* ===================================================================== *)

Section Consume.

Variables (env : Env) (caller : User) (path : string) (db : DB).

(** The service catches everything: the promise always resolves. *)
Lemma consumeCredits_returns :
  exists r, fst (consumeCredits caller path env db) = Returned r.
Proof.
  unfold consumeCredits. unfold_store. cbn [castObjectId].
  destruct (findById_rejects env); [eauto |].
  destruct (users db !! _id caller) as [fu|]; [| eauto].
  destruct (getEndpointCreditCost path) as [c | f |]; [| eauto | eauto].
  destruct (_ <? _); [eauto |].
  destruct (negb (validates _)); [eauto |].
  destruct (save_rejects env); [eauto |].
  destruct (negb (truthy_string _)); [eauto |].
  destruct (create_rejects env); eauto.
Qed.

(** When the store refuses the read, nothing is written. *)
Lemma consumeCredits_offline :
  findById_rejects env = true ->
  consumeCredits caller path env db =
    (Returned (Failure "Error processing API credits" 500), db).
Proof.
  intros H. unfold consumeCredits. unfold_store. cbn [castObjectId].
  rewrite H. reflexivity.
Qed.

(** When the store refuses the user document, nothing is written. *)
Lemma consumeCredits_save_rejected :
  save_rejects env = true ->
  snd (consumeCredits caller path env db) = db.
Proof.
  intros H. unfold consumeCredits. unfold_store. cbn [castObjectId].
  destruct (findById_rejects env); [reflexivity |].
  destruct (users db !! _id caller) as [fu|]; [| reflexivity].
  destruct (getEndpointCreditCost path) as [c | f |]; try reflexivity.
  destruct (_ <? _); [reflexivity |].
  destruct (negb (validates _)); [reflexivity |].
  rewrite H. reflexivity.
Qed.

(** A document the validators of the schema refuse is never charged. *)
Lemma consumeCredits_invalid_document (found : User) :
  users db !! _id caller = Some found ->
  validates found = false ->
  snd (consumeCredits caller path env db) = db.
Proof.
  intros Hlook Hval. unfold consumeCredits. unfold_store. cbn [castObjectId].
  destruct (findById_rejects env); [reflexivity |]. rewrite Hlook.
  destruct (getEndpointCreditCost path) as [c | f |]; try reflexivity.
  destruct (_ <? _); [reflexivity |].
  change (validates (set_apiCreditsUsed _ found)) with (validates found).
  rewrite Hval. reflexivity.
Qed.

End Consume.

(** C2.  An account whose remaining credits [apiCreditsTotal -
    apiCreditsUsed] are strictly below the cost of the requested endpoint is
    refused: [consumeCredits] answers with status code 429 and the
    insufficient-credits message, and the database it leaves is the one it
    found, so neither counter moved and no transaction was created. *)
Theorem consumeCredits_insufficient
    (env : Env) (caller : User) (path : string) (db : DB)
    (freshUser : User) (cost : Z) :
  findById_rejects env = false ->
  users db !! _id caller = Some freshUser ->
  getEndpointCreditCost path = JsNumber cost ->
  apiCreditsTotal freshUser - apiCreditsUsed freshUser < cost ->
  consumeCredits caller path env db =
    (Returned
       (Failure
          (insufficient_message cost
             (apiCreditsTotal freshUser - apiCreditsUsed freshUser))
          429),
     db).
Proof.
  intros Hfind Hlook Hcost Hlt.
  unfold consumeCredits. rewrite Hcost. unfold_store. cbn [castObjectId].
  rewrite Hfind, Hlook.
  apply Z.ltb_lt in Hlt. rewrite Hlt. reflexivity.
Qed.

(** The scenario of C2: an account with nothing left asks for one credit. *)
Lemma consumeCredits_insufficient_witness :
  consumeCredits Sample.bob Sample.estimate (calm 1717000000000) Sample.db1 =
    (Returned
       (Failure
          "Insufficient API credits. You need 1 credits but have only 0 remaining."
          429),
     Sample.db1).
Proof.
  exact (consumeCredits_insufficient
           (calm 1717000000000) Sample.bob Sample.estimate Sample.db1
           Sample.bob 1 eq_refl eq_refl eq_refl eq_refl).
Defined.

(** What a charge that passes the balance check does, according to the
    two writes. *)
Lemma consumeCredits_writes
    (env : Env) (caller : User) (path : string) (db : DB)
    (freshUser : User) (cost : Z) :
  findById_rejects env = false ->
  save_rejects env = false ->
  users db !! _id caller = Some freshUser ->
  validates freshUser = true ->
  getEndpointCreditCost path = JsNumber cost ->
  cost <= apiCreditsTotal freshUser - apiCreditsUsed freshUser ->
  let used' := apiCreditsUsed freshUser + cost in
  let remaining' := apiCreditsTotal freshUser - used' in
  let stored :=
    <[_id freshUser :=
        set_updatedAt (save_time env) (set_apiCreditsUsed used' freshUser)]>
      (users db) in
  consumeCredits caller path env db =
    if create_rejects env
    then (Returned (Failure "Error processing API credits" 500),
          {| users := stored; transactions := transactions db |})
    else (Returned
            (Success {| ConsumeResult.remainingCredits := remaining';
                        ConsumeResult.creditsUsed := used' |}),
          {| users := stored;
             transactions :=
               transactions db ++
               [ {| user := _id freshUser;
                    amount := - cost;
                    type := consume;
                    description := "API request to " +:+ path;
                    endpointPath := Some path;
                    balanceAfter := remaining';
                    createdAt := now env |} ] |}).
Proof.
  intros Hfind Hsave Hlook Hval Hcost Hle used' remaining' stored.
  pose proof (getEndpointCreditCost_number _ _ Hcost) as Hone.
  unfold consumeCredits. rewrite Hcost. unfold_store. cbn [castObjectId].
  rewrite Hfind, Hlook.
  replace (_ <? cost) with false by (symmetry; apply Z.ltb_ge; exact Hle).
  change (validates (set_apiCreditsUsed _ freshUser)) with (validates freshUser).
  rewrite Hval, Hsave. cbn [negb].
  rewrite saved_modified by (apply set_apiCreditsUsed_changes; lia).
  change (negb (truthy_string (f_description _))) with false.
  destruct (create_rejects env); reflexivity.
Qed.

(** C3.  An account whose remaining credits cover the cost is charged: the
    stored document has [apiCreditsUsed] raised by exactly the cost (and its
    [updatedAt] stamp set by the save), one transaction is appended with
    [amount = -cost], [type = consume] and [balanceAfter] equal to
    [apiCreditsTotal - apiCreditsUsed] of the updated document, and the
    updated remaining and used values are returned.  The stored document
    passes the validators of its schema, as every document written through
    the API does. *)
Theorem consumeCredits_charges
    (env : Env) (caller : User) (path : string) (db : DB)
    (freshUser : User) (cost : Z) :
  findById_rejects env = false ->
  save_rejects env = false ->
  create_rejects env = false ->
  users db !! _id caller = Some freshUser ->
  validates freshUser = true ->
  getEndpointCreditCost path = JsNumber cost ->
  cost <= apiCreditsTotal freshUser - apiCreditsUsed freshUser ->
  let used' := apiCreditsUsed freshUser + cost in
  let remaining' := apiCreditsTotal freshUser - used' in
  consumeCredits caller path env db =
    (Returned
       (Success {| ConsumeResult.remainingCredits := remaining';
                   ConsumeResult.creditsUsed := used' |}),
     {| users :=
          <[_id freshUser :=
              set_updatedAt (save_time env)
                (set_apiCreditsUsed used' freshUser)]> (users db);
        transactions :=
          transactions db ++
          [ {| user := _id freshUser;
               amount := - cost;
               type := consume;
               description := "API request to " +:+ path;
               endpointPath := Some path;
               balanceAfter := remaining';
               createdAt := now env |} ] |}).
Proof.
  intros Hfind Hsave Hcreate Hlook Hval Hcost Hle used' remaining'.
  rewrite (consumeCredits_writes env caller path db freshUser cost)
    by assumption.
  rewrite Hcreate. reflexivity.
Qed.

(** The scenario of C3: a fresh account ([100] total, [0] used) pays one
    credit and is left with 99. *)
Lemma consumeCredits_charges_witness :
  consumeCredits Sample.alice Sample.estimate (calm 1717000000000) Sample.db0 =
    (Returned
       (Success {| ConsumeResult.remainingCredits := 99;
                   ConsumeResult.creditsUsed := 1 |}),
     {| users :=
          <[_id Sample.alice :=
              set_updatedAt 1717000000000
                (set_apiCreditsUsed 1 Sample.alice)]>
            (users Sample.db0);
        transactions :=
          [ {| user := _id Sample.alice;
               amount := -1;
               type := consume;
               description := "API request to /api/estimate-calories";
               endpointPath := Some "/api/estimate-calories";
               balanceAfter := 99;
               createdAt := 1717000000000 |} ] |}).
Proof.
  exact (consumeCredits_charges
           (calm 1717000000000) Sample.alice Sample.estimate Sample.db0
           Sample.alice 1 eq_refl eq_refl eq_refl eq_refl eq_refl eq_refl
           (Zle_bool_imp_le 1 100 eq_refl)).
Defined.

(** C1, as the code has it.  When the store accepts the updated user
    document and then refuses the transaction document, [consumeCredits]
    reports the generic failure with status code 500, which differs from the
    429 of insufficient credits; the balance write stays (there is neither a
    rollback nor a retry): [apiCreditsUsed] is stored raised by the cost and
    the transaction log is as it was. *)
Theorem consumeCredits_append_refused
    (env : Env) (caller : User) (path : string) (db : DB)
    (freshUser : User) (cost : Z) :
  findById_rejects env = false ->
  save_rejects env = false ->
  create_rejects env = true ->
  users db !! _id caller = Some freshUser ->
  validates freshUser = true ->
  getEndpointCreditCost path = JsNumber cost ->
  cost <= apiCreditsTotal freshUser - apiCreditsUsed freshUser ->
  consumeCredits caller path env db =
    (Returned (Failure "Error processing API credits" 500),
     {| users :=
          <[_id freshUser :=
              set_updatedAt (save_time env)
                (set_apiCreditsUsed (apiCreditsUsed freshUser + cost)
                                    freshUser)]>
            (users db);
        transactions := transactions db |})
  /\ statusCode (A := ConsumeResult.t)
       (Failure "Error processing API credits" 500) <> Some 429.
Proof.
  intros Hfind Hsave Hcreate Hlook Hval Hcost Hle. split; [| discriminate].
  rewrite (consumeCredits_writes env caller path db freshUser cost)
    by assumption.
  rewrite Hcreate. reflexivity.
Qed.

Lemma consumeCredits_append_refused_witness :
  consumeCredits Sample.alice Sample.estimate
      (Sample.append_refused 1717000000000) Sample.db0 =
    (Returned (Failure "Error processing API credits" 500),
     {| users :=
          <[_id Sample.alice :=
              set_updatedAt 1717000000000
                (set_apiCreditsUsed 1 Sample.alice)]>
            (users Sample.db0);
        transactions := [] |})
  /\ statusCode (A := ConsumeResult.t)
       (Failure "Error processing API credits" 500) <> Some 429.
Proof.
  exact (consumeCredits_append_refused
           (Sample.append_refused 1717000000000) Sample.alice Sample.estimate
           Sample.db0 Sample.alice 1 eq_refl eq_refl eq_refl eq_refl eq_refl
           eq_refl (Zle_bool_imp_le 1 100 eq_refl)).
Defined.

(** C1 as stated fails.  On a fresh account, with the store refusing the
    transaction document, the call fails and yet the balance write has
    escaped: the stored [apiCreditsUsed] went from 0 to 1 while no transaction
    was recorded, so the operation was neither undone nor completed. *)
Lemma consumeCredits_not_all_or_nothing :
  fst (consumeCredits Sample.alice Sample.estimate
         (Sample.append_refused 1717000000000) Sample.db0)
    = Returned (Failure "Error processing API credits" 500)
  /\ apiCreditsUsed <$> (users Sample.db0 !! _id Sample.alice) = Some 0
  /\ apiCreditsUsed <$>
       (users (snd (consumeCredits Sample.alice Sample.estimate
                      (Sample.append_refused 1717000000000) Sample.db0))
        !! _id Sample.alice) = Some 1
  /\ transactions (snd (consumeCredits Sample.alice Sample.estimate
                          (Sample.append_refused 1717000000000) Sample.db0))
     = transactions Sample.db0
  /\ snd (consumeCredits Sample.alice Sample.estimate
            (Sample.append_refused 1717000000000) Sample.db0)
     <> Sample.db0.
Proof.
  repeat split; try (vm_compute; reflexivity).
  intros H.
  apply (f_equal (fun d => apiCreditsUsed <$> (users d !! _id Sample.alice))) in H.
  vm_compute in H. discriminate H.
Qed.

(** C10.  When the fresh lookup finds no document, [consumeCredits] reports
    the generic processing failure with status code 500 (not a 404), the very
    result it reports when the store itself fails, and it leaves the database
    as it found it: no counter is written and no transaction is created. *)
Theorem consumeCredits_unknown_account
    (env : Env) (caller : User) (path : string) (db : DB) :
  users db !! _id caller = None ->
  exists r : ServiceResult ConsumeResult.t,
    consumeCredits caller path env db = (Returned r, db)
    /\ r = Failure "Error processing API credits" 500
    /\ statusCode r <> Some 404
    /\ (forall env' caller' path' db',
          findById_rejects env' = true ->
          fst (consumeCredits caller' path' env' db') = Returned r).
Proof.
  intros Hlook. eexists. split; [| split; [reflexivity | split]].
  - unfold consumeCredits. unfold_store. cbn [castObjectId]. rewrite Hlook.
    destruct (findById_rejects env); reflexivity.
  - discriminate.
  - intros env' caller' path' db' H.
    rewrite consumeCredits_offline by exact H. reflexivity.
Qed.

Lemma consumeCredits_unknown_account_witness :
  exists r : ServiceResult ConsumeResult.t,
    consumeCredits Sample.ghost Sample.estimate (calm 1717000000000) Sample.db1
      = (Returned r, Sample.db1)
    /\ r = Failure "Error processing API credits" 500
    /\ statusCode r <> Some 404
    /\ (forall env' caller' path' db',
          findById_rejects env' = true ->
          fst (consumeCredits caller' path' env' db') = Returned r).
Proof.
  exact (consumeCredits_unknown_account
           (calm 1717000000000) Sample.ghost Sample.estimate Sample.db1 eq_refl).
Defined.

(* ===================================================================== *)
(** ** addCredits                                                         *)
(* ===================================================================== *)

(** An id that is no ObjectId ends in the [catch] block: the cast of
    [User.findById] throws before any query is sent. *)
Lemma addCredits_cast_failure
    (env : Env) (userId : string) (amount0 : Z)
    (description0 : option string) (db : DB) :
  castObjectId env (IdString userId) = None ->
  addCredits userId amount0 description0 env db =
    (Returned (Failure "Error adding API credits" 500), db).
Proof.
  intros Hcast. unfold addCredits. unfold_store. rewrite Hcast. reflexivity.
Qed.

(** X27.  [addCredits] on an id that is an ObjectId, with a positive
    amount and the lookup answered: when nothing is stored under the id it
    fails with status code 404; when [apiCreditsTotal + amount] would
    exceed the ceiling of 1000 it fails with status code 400; in both cases
    the database is left as it was.  Otherwise, the store accepting both
    writes and the description not being empty, it stores
    [apiCreditsTotal] raised by the amount (and the [updatedAt] stamp of
    the save), appends one transaction of type [refill] carrying that
    positive amount, and returns the new total and the new remaining
    credits. *)
Theorem addCredits_spec
    (env : Env) (userId : string) (oid : ObjectId) (amount0 : Z)
    (description0 : option string) (db : DB) :
  castObjectId env (IdString userId) = Some oid ->
  0 < amount0 ->
  findById_rejects env = false ->
  (users db !! oid = None ->
     addCredits userId amount0 description0 env db =
       (Returned (Failure "User not found" 404), db))
  /\
  (forall found : User,
     users db !! oid = Some found ->
     (apiCreditsTotal found + amount0 > 1000 ->
        addCredits userId amount0 description0 env db =
          (Returned (Failure "Cannot exceed maximum credit limit of 1000" 400),
           db))
     /\
     (apiCreditsTotal found + amount0 <= 1000 ->
      validates found = true ->
      save_rejects env = false ->
      create_rejects env = false ->
      default "Credit refill" description0 <> "" ->
      let total' := apiCreditsTotal found + amount0 in
      exists t : CreditTransaction,
        addCredits userId amount0 description0 env db =
          (Returned
             (Success {| AddResult.totalCredits := total';
                         AddResult.remainingCredits :=
                           total' - apiCreditsUsed found |}),
           {| users :=
                <[_id found :=
                    set_updatedAt (save_time env)
                      (set_apiCreditsTotal total' found)]> (users db);
              transactions := transactions db ++ [t] |})
        /\ user t = _id found
        /\ amount t = amount0 /\ 0 < amount t
        /\ type t = refill
        /\ description t = default "Credit refill" description0
        /\ balanceAfter t = total' - apiCreditsUsed found
        /\ createdAt t = now env)).
Proof.
  intros Hcast Hpos Hfind. split.
  - intros Hlook. unfold addCredits. unfold_store.
    rewrite Hcast, Hfind, Hlook. reflexivity.
  - intros found Hlook. split.
    + intros Hgt. unfold addCredits. unfold_store.
      rewrite Hcast, Hfind, Hlook.
      replace (_ >? MAX_CREDITS) with true
        by (symmetry; apply Z.gtb_gt; exact Hgt).
      reflexivity.
    + intros Hle Hval Hsave Hcreate Hdesc total'.
      eexists. split.
      * unfold addCredits. unfold_store.
        rewrite Hcast, Hfind, Hlook.
        replace (_ >? MAX_CREDITS) with false
          by (symmetry; rewrite Z.gtb_ltb; apply Z.ltb_ge; exact Hle).
        change (validates (set_apiCreditsTotal _ found)) with (validates found).
        rewrite Hval, Hsave. cbn [negb].
        rewrite saved_modified by (apply set_apiCreditsTotal_changes; lia).
        cbn [f_description].
        rewrite (truthy_string_nonempty _ Hdesc), Hcreate. reflexivity.
      * simpl. repeat split; auto.
Qed.

(** The scenarios of [addCredits] on sample data: an unknown id, a grant of
    950 on a total of 100, and a grant of 50 on a total of 100. *)
Lemma addCredits_spec_witness :
  addCredits Sample.nobody 50 None (calm 1717000000000) Sample.db0 =
    (Returned (Failure "User not found" 404), Sample.db0)
  /\
  addCredits (_id Sample.alice) 950 (Some "Admin credit addition by Carol")
      (calm 1717000000000) Sample.db0 =
    (Returned (Failure "Cannot exceed maximum credit limit of 1000" 400),
     Sample.db0)
  /\
  exists t : CreditTransaction,
    addCredits (_id Sample.alice) 50 (Some "Admin credit addition by Carol")
        (calm 1717000000000) Sample.db0 =
      (Returned
         (Success {| AddResult.totalCredits := 150;
                     AddResult.remainingCredits := 150 |}),
       {| users :=
            <[_id Sample.alice :=
                set_updatedAt 1717000000000
                  (set_apiCreditsTotal 150 Sample.alice)]>
              (users Sample.db0);
          transactions := [t] |})
    /\ user t = _id Sample.alice
    /\ amount t = 50 /\ 0 < amount t
    /\ type t = refill
    /\ description t = "Admin credit addition by Carol"
    /\ balanceAfter t = 150
    /\ createdAt t = 1717000000000.
Proof.
  split; [| split].
  - exact (proj1 (addCredits_spec (calm 1717000000000) Sample.nobody
                    Sample.nobody 50 None Sample.db0 eq_refl eq_refl eq_refl)
                 eq_refl).
  - exact (proj1 (proj2 (addCredits_spec (calm 1717000000000)
                           (_id Sample.alice) (_id Sample.alice) 950
                           (Some "Admin credit addition by Carol")
                           Sample.db0 eq_refl eq_refl eq_refl)
                        Sample.alice eq_refl) eq_refl).
  - apply (proj2 (proj2 (addCredits_spec (calm 1717000000000)
                           (_id Sample.alice) (_id Sample.alice) 50
                           (Some "Admin credit addition by Carol")
                           Sample.db0 eq_refl eq_refl eq_refl)
                        Sample.alice eq_refl)
                 (Zle_bool_imp_le 150 1000 eq_refl) eq_refl eq_refl eq_refl).
    discriminate.
Defined.

(** C6 at the request [POST /api/credits/not-an-id/add] with the body
    [{ amount: 50 }], sent by an administrator.  No account exists under
    that id, and yet the answer is not the 404 of a missing account: the
    string is no ObjectId, the cast of [User.findById] throws, and the
    [catch] block answers 500 "Error adding API credits".  Nothing is
    written.  An id of 24 hexadecimal digits under which nothing is stored
    does get the 404. *)
Theorem addCredits_malformed_id :
  castObjectId (calm 1717000000000) (IdString "not-an-id") = None
  /\ users Sample.db1 !! "not-an-id" = None
  /\ addCredits "not-an-id" 50 (Some "Admin credit addition by Carol")
         (calm 1717000000000) Sample.db1 =
       (Returned (Failure "Error adding API credits" 500), Sample.db1)
  /\ addCreditsRoute Sample.carol "not-an-id" (Some 50)
         (calm 1717000000000) Sample.db1 =
       (Returned {| credits_status := 500;
                    credits_body := CreditsMessage "Error adding API credits" |},
        Sample.db1)
  /\ addCreditsRoute Sample.carol Sample.nobody (Some 50)
         (calm 1717000000000) Sample.db1 =
       (Returned {| credits_status := 404;
                    credits_body := CreditsMessage "User not found" |},
        Sample.db1).
Proof.
  split; [reflexivity |].
  split; [reflexivity |].
  split; [apply addCredits_cast_failure; reflexivity |].
  split; vm_compute; reflexivity.
Qed.

(* ===================================================================== *)
(** ** resetCredits                                                       *)
(* ===================================================================== *)

Lemma resetCredits_cast_failure (env : Env) (userId : string) (db : DB) :
  castObjectId env (IdString userId) = None ->
  resetCredits userId env db =
    (Returned (Failure "Error resetting API credits" 500), db).
Proof.
  intros Hcast. unfold resetCredits. unfold_store. rewrite Hcast. reflexivity.
Qed.

Lemma set_apiCreditsUsed_same (u : User) :
  apiCreditsUsed u = 0 -> set_apiCreditsUsed 0 u = u.
Proof. destruct u. simpl. intros ->. reflexivity. Qed.

(** C7, as the code has it.  For an id of 24 hexadecimal digits under
    which nothing is stored, [resetCredits] fails with status code 404.
    For a stored account it writes [apiCreditsUsed = 0]: the stored
    document keeps [apiCreditsTotal] and every other declared field, its
    [updatedAt] stamp is set to the time of the save when [apiCreditsUsed]
    was not 0 already (and is left alone when it was), and the other
    accounts are not touched.  It returns the previous used count,
    [currentUsed = 0] and [remainingCredits = apiCreditsTotal], and appends
    one transaction of type [adjustment] whose amount is the previous used
    count and whose [balanceAfter] is [apiCreditsTotal]. *)
Theorem resetCredits_spec
    (env : Env) (userId : string) (oid : ObjectId) (db : DB) :
  castObjectId env (IdString userId) = Some oid ->
  findById_rejects env = false ->
  (users db !! oid = None ->
     resetCredits userId env db =
       (Returned (Failure "User not found" 404), db))
  /\
  (forall found : User,
     users db !! oid = Some found ->
     _id found = oid ->
     validates found = true ->
     save_rejects env = false ->
     create_rejects env = false ->
     exists (db' : DB) (stored : User) (t : CreditTransaction),
       resetCredits userId env db =
         (Returned
            (Success {| ResetResult.previousUsed := apiCreditsUsed found;
                        ResetResult.currentUsed := 0;
                        ResetResult.remainingCredits := apiCreditsTotal found |}),
          db')
       /\ users db' !! oid = Some stored
       /\ apiCreditsUsed stored = 0
       /\ same_but_used found stored
       /\ updatedAt stored =
            (if decide (apiCreditsUsed found = 0) then updatedAt found
             else save_time env)
       /\ (forall other, other <> oid ->
             users db' !! other = users db !! other)
       /\ transactions db' = transactions db ++ [t]
       /\ user t = oid
       /\ amount t = apiCreditsUsed found
       /\ type t = adjustment
       /\ balanceAfter t = apiCreditsTotal found
       /\ createdAt t = now env).
Proof.
  intros Hcast Hfind. split.
  - intros Hlook. unfold resetCredits. unfold_store.
    rewrite Hcast, Hfind, Hlook. reflexivity.
  - intros found Hlook Hid Hval Hsave Hcreate.
    set (u := set_apiCreditsUsed 0 found).
    eexists _, (saved_doc env found u), _. split.
    + unfold resetCredits. unfold_store.
      rewrite Hcast, Hfind, Hlook.
      change (validates (set_apiCreditsUsed 0 found)) with (validates found).
      rewrite Hval, Hsave. cbn [negb f_description truthy_string].
      rewrite Hcreate, saved_transactions. reflexivity.
    + cbn [users transactions].
      assert (Hlook' : users db !! _id u = Some found)
        by (change (_id u) with (_id found); rewrite Hid; exact Hlook).
      split.
      { rewrite <- Hid. apply (saved_lookup_eq env found u db Hlook'). }
      unfold saved_doc.
      split; [case_decide; reflexivity |].
      split; [case_decide; unfold same_but_used; simpl; tauto |].
      split.
      { case_decide as Hm.
        - apply (f_equal apiCreditsUsed) in Hm. simpl in Hm.
          rewrite decide_True by congruence. reflexivity.
        - rewrite decide_False; [reflexivity |].
          intros H0. apply Hm. apply set_apiCreditsUsed_same. exact H0. }
      split.
      { intros other Hne. apply saved_lookup_ne.
        change (_id (set_apiCreditsUsed 0 found)) with (_id found).
        congruence. }
      repeat split; auto.
Qed.

(** The scenario of C7: an account with 40 credits used is reset. *)
Lemma resetCredits_spec_witness :
  resetCredits Sample.nobody (calm 1717000000000) Sample.db1 =
    (Returned (Failure "User not found" 404), Sample.db1)
  /\
  exists (db' : DB) (stored : User) (t : CreditTransaction),
    resetCredits (_id Sample.carol) (calm 1717000000000) Sample.db1 =
      (Returned
         (Success {| ResetResult.previousUsed := 40;
                     ResetResult.currentUsed := 0;
                     ResetResult.remainingCredits := 100 |}),
       db')
    /\ users db' !! _id Sample.carol = Some stored
    /\ apiCreditsUsed stored = 0
    /\ same_but_used Sample.carol stored
    /\ updatedAt stored = 1717000000000
    /\ (forall other, other <> _id Sample.carol ->
          users db' !! other = users Sample.db1 !! other)
    /\ transactions db' = transactions Sample.db1 ++ [t]
    /\ user t = _id Sample.carol
    /\ amount t = 40
    /\ type t = adjustment
    /\ balanceAfter t = 100
    /\ createdAt t = 1717000000000.
Proof.
  split.
  - exact (proj1 (resetCredits_spec (calm 1717000000000) Sample.nobody
                    Sample.nobody Sample.db1 eq_refl eq_refl) eq_refl).
  - exact (proj2 (resetCredits_spec (calm 1717000000000) (_id Sample.carol)
                    (_id Sample.carol) Sample.db1 eq_refl eq_refl)
                 Sample.carol eq_refl eq_refl eq_refl eq_refl eq_refl).
Defined.

(** C7 as stated fails on the frame.  The account with 40 credits used is
    reset by a healthy store: the call succeeds, and the stored document
    differs from the one found in more than [apiCreditsUsed], for the save
    has rewritten its [updatedAt] stamp. *)
Lemma resetCredits_rewrites_updatedAt :
  resolved_success
    (fst (resetCredits (_id Sample.carol) (calm 1717000000000) Sample.db1))
    = true
  /\ updatedAt <$> (users Sample.db1 !! _id Sample.carol)
     = Some 1716000200000
  /\ updatedAt <$>
       (users (snd (resetCredits (_id Sample.carol) (calm 1717000000000)
                      Sample.db1)) !! _id Sample.carol)
     = Some 1717000000000
  /\ users (snd (resetCredits (_id Sample.carol) (calm 1717000000000)
                   Sample.db1)) !! _id Sample.carol
     <> Some (set_apiCreditsUsed 0 Sample.carol).
Proof.
  repeat split; try (vm_compute; reflexivity).
  intros H. apply (f_equal (fmap updatedAt)) in H.
  vm_compute in H. discriminate H.
Qed.

(* ===================================================================== *)
(** ** getTransactionHistory                                              *)
(* ===================================================================== *)

Global Instance newer_first_total : Total newer_first.
Proof. intros a b. unfold newer_first. lia. Qed.

Global Instance newer_first_trans : Transitive newer_first.
Proof. intros a b c. unfold newer_first. lia. Qed.

Lemma history_sorted (userId : ObjectId) (db : DB) :
  StronglySorted newer_first (history userId db).
Proof. apply StronglySorted_merge_sort; apply _. Qed.

Lemma history_perm (userId : ObjectId) (db : DB) :
  Permutation (history userId db) (of_user userId (transactions db)).
Proof. apply merge_sort_Permutation. Qed.


Lemma of_user_spec (userId : ObjectId) (log : list CreditTransaction)
    (t : CreditTransaction) :
  t ∈ of_user userId log <-> user t = userId /\ t ∈ log.
Proof.
  unfold of_user.
  exact (list_elem_of_filter (fun t0 => user t0 = userId) log t).
Qed.

Lemma Query_limit_positive (env : Env) (n : Z) (docs : list CreditTransaction) :
  0 < n -> Query_limit env n docs = take (Z.to_nat n) docs.
Proof.
  intros Hn. unfold Query_limit.
  replace (0 <? n) with true by (symmetry; apply Z.ltb_lt; exact Hn).
  reflexivity.
Qed.




(** On the sample log, the two newest transactions of [alice] are returned,
    newest first. *)
Example getTransactionHistory_sample :
  getTransactionHistory (IdString (_id Sample.alice)) (Some 2)
      (calm 1717000009000) Sample.db2 =
    (Returned (Success [Sample.t4; Sample.t3]), Sample.db2).
Proof. vm_compute. reflexivity. Qed.


(* ===================================================================== *)
(** ** The effect of one call                                             *)
(* ===================================================================== *)

Lemma remaining_set_used (v : Z) (u : User) :
  remaining (set_apiCreditsUsed v u) = apiCreditsTotal u - v.
Proof. reflexivity. Qed.

Lemma remaining_set_total (v : Z) (u : User) :
  remaining (set_apiCreditsTotal v u) = v - apiCreditsUsed u.
Proof. reflexivity. Qed.

Lemma truthy_string_false (s : string) : truthy_string s = false -> s = "".
Proof. destruct s; [reflexivity | discriminate]. Qed.

(** The save leaves every declared path of the document as it is. *)
Lemma saved_doc_fields (env : Env) (loaded u : User) :
  _id (saved_doc env loaded u) = _id u
  /\ apiCreditsUsed (saved_doc env loaded u) = apiCreditsUsed u
  /\ apiCreditsTotal (saved_doc env loaded u) = apiCreditsTotal u
  /\ isAdmin (saved_doc env loaded u) = isAdmin u
  /\ remaining (saved_doc env loaded u) = remaining u.
Proof. unfold saved_doc. case_decide; repeat split. Qed.

Lemma saved_lookup_keyed (env : Env) (loaded u : User) (db : DB) (id : ObjectId) :
  users db !! _id u = Some loaded ->
  users (saved env loaded u db) !! id =
    if decide (id = _id u) then Some (saved_doc env loaded u)
    else users db !! id.
Proof.
  intros Hl. case_decide as Hid.
  - subst id. apply saved_lookup_eq. exact Hl.
  - apply saved_lookup_ne. exact Hid.
Qed.

Section OneCall.

Variables (env : Env) (db : DB).

Lemma consumeCredits_effect (caller : User) (path : string) :
  Effect env db (Consume caller path)
         (snd (consumeCredits caller path env db)).
Proof.
  destruct (consumeCredits caller path env db) as [o db'] eqn:E.
  pose proof E as E0.
  unfold consumeCredits in E. unfold_store. cbn [castObjectId] in E.
  destruct (findById_rejects env);
    [injection E as <- <-; apply eff_nothing; simpl; rewrite E0; reflexivity |].
  destruct (users db !! _id caller) as [fu|] eqn:Hlook;
    [| injection E as <- <-; apply eff_nothing; simpl; rewrite E0; reflexivity].
  destruct (getEndpointCreditCost path) as [cost | f |] eqn:Hcost;
    [| injection E as <- <-; apply eff_nothing; simpl; rewrite E0; reflexivity
     | injection E as <- <-; apply eff_nothing; simpl; rewrite E0; reflexivity].
  destruct (Z.ltb_spec (apiCreditsTotal fu - apiCreditsUsed fu) cost) as [Hlt | Hge];
    [injection E as <- <-; apply eff_nothing; simpl; rewrite E0; reflexivity |].
  change (validates (set_apiCreditsUsed _ fu)) with (validates fu) in E.
  destruct (validates fu) eqn:Hval; cbn [negb] in E;
    [| injection E as <- <-; apply eff_nothing; simpl; rewrite E0; reflexivity].
  destruct (save_rejects env);
    [injection E as <- <-; apply eff_nothing; simpl; rewrite E0; reflexivity |].
  change (negb (truthy_string (f_description _))) with false in E.
  assert (Hstep : counters_step (Consume caller path) fu
                    (set_apiCreditsUsed (apiCreditsUsed fu + cost) fu)).
  { exists cost. unfold remaining. auto. }
  destruct (create_rejects env) eqn:Hcreate; injection E as <- <-; simpl.
  - apply (eff_unlogged env db (Consume caller path) (_id caller) fu _
             eq_refl Hlook Hstep Hval).
    + intros [H _]. congruence.
    + simpl. rewrite E0. reflexivity.
  - rewrite saved_transactions.
    eapply (eff_logged env db (Consume caller path) (_id caller) fu _ _
              eq_refl Hlook Hstep Hval);
      simpl; try reflexivity; try (rewrite E0; reflexivity);
      unfold remaining; simpl; lia.
Qed.

Lemma addCredits_effect (userId : string) (a : Z) (d : option string) :
  Effect env db (AddCredits userId a d) (snd (addCredits userId a d env db)).
Proof.
  destruct (addCredits userId a d env db) as [o db'] eqn:E.
  pose proof E as E0.
  unfold addCredits in E. unfold_store.
  destruct (castObjectId env (IdString userId)) as [k|] eqn:Hcast;
    [| injection E as <- <-; apply eff_nothing; simpl; rewrite E0; reflexivity].
  destruct (findById_rejects env);
    [injection E as <- <-; apply eff_nothing; simpl; rewrite E0; reflexivity |].
  destruct (users db !! k) as [u|] eqn:Hlook;
    [| injection E as <- <-; apply eff_nothing; simpl; rewrite E0; reflexivity].
  destruct (apiCreditsTotal u + a >? MAX_CREDITS) eqn:Hcap;
    [injection E as <- <-; apply eff_nothing; simpl; rewrite E0; reflexivity |].
  change (validates (set_apiCreditsTotal _ u)) with (validates u) in E.
  destruct (validates u) eqn:Hval; cbn [negb] in E;
    [| injection E as <- <-; apply eff_nothing; simpl; rewrite E0; reflexivity].
  destruct (save_rejects env);
    [injection E as <- <-; apply eff_nothing; simpl; rewrite E0; reflexivity |].
  assert (Hstep : counters_step (AddCredits userId a d) u
                    (set_apiCreditsTotal (apiCreditsTotal u + a) u)).
  { split; [| reflexivity]. rewrite Z.gtb_ltb in Hcap.
    apply Z.ltb_ge in Hcap. exact Hcap. }
  cbn [f_description] in E.
  destruct (truthy_string (default "Credit refill" d)) eqn:Hd; cbn [negb] in E.
  - destruct (create_rejects env) eqn:Hcreate; injection E as <- <-; simpl.
    + apply (eff_unlogged env db (AddCredits userId a d) k u _
               Hcast Hlook Hstep Hval).
      * intros [H _]. congruence.
      * simpl. rewrite E0. reflexivity.
    + rewrite saved_transactions.
      eapply (eff_logged env db (AddCredits userId a d) k u _ _
                Hcast Hlook Hstep Hval);
        simpl; try reflexivity; try (rewrite E0; reflexivity);
        unfold remaining; simpl; lia.
  - injection E as <- <-; simpl.
    apply (eff_unlogged env db (AddCredits userId a d) k u _
             Hcast Hlook Hstep Hval).
    + intros [_ H]. apply H. apply truthy_string_false. exact Hd.
    + simpl. rewrite E0. reflexivity.
Qed.

Lemma resetCredits_effect (userId : string) :
  Effect env db (ResetUsed userId) (snd (resetCredits userId env db)).
Proof.
  destruct (resetCredits userId env db) as [o db'] eqn:E.
  pose proof E as E0.
  unfold resetCredits in E. unfold_store.
  destruct (castObjectId env (IdString userId)) as [k|] eqn:Hcast;
    [| injection E as <- <-; apply eff_nothing; simpl; rewrite E0; reflexivity].
  destruct (findById_rejects env);
    [injection E as <- <-; apply eff_nothing; simpl; rewrite E0; reflexivity |].
  destruct (users db !! k) as [u|] eqn:Hlook;
    [| injection E as <- <-; apply eff_nothing; simpl; rewrite E0; reflexivity].
  change (validates (set_apiCreditsUsed 0 u)) with (validates u) in E.
  destruct (validates u) eqn:Hval; cbn [negb] in E;
    [| injection E as <- <-; apply eff_nothing; simpl; rewrite E0; reflexivity].
  destruct (save_rejects env);
    [injection E as <- <-; apply eff_nothing; simpl; rewrite E0; reflexivity |].
  assert (Hstep : counters_step (ResetUsed userId) u (set_apiCreditsUsed 0 u))
    by reflexivity.
  cbn [f_description truthy_string negb] in E.
  destruct (create_rejects env) eqn:Hcreate; injection E as <- <-; simpl.
  - apply (eff_unlogged env db (ResetUsed userId) k u _
             Hcast Hlook Hstep Hval).
    + intros [H _]. congruence.
    + simpl. rewrite E0. reflexivity.
  - rewrite saved_transactions.
    eapply (eff_logged env db (ResetUsed userId) k u _ _
              Hcast Hlook Hstep Hval);
      simpl; try reflexivity; try (rewrite E0; reflexivity);
      unfold remaining; simpl; lia.
Qed.

(** Whatever the arguments, the database and the store's behaviour, a call
    does one of the three things of [Effect]. *)
Lemma runCall_effect (c : LedgerCall) : Effect env db c (runCall env c db).
Proof.
  destruct c; simpl;
    auto using consumeCredits_effect, addCredits_effect, resetCredits_effect.
Qed.

End OneCall.

Lemma callSucceeds_status (env : Env) (c : LedgerCall) (db : DB) :
  callSucceeds env c db = true -> callStatus env c db = None.
Proof.
  destruct c; simpl;
    match goal with |- context [fst ?run] => destruct (fst run) as [[? | ? ?] | ?] end;
    simpl; congruence.
Qed.

Lemma counters_step_identity (c : LedgerCall) (u u' : User) :
  counters_step c u u' -> same_identity u u'.
Proof.
  destruct c; simpl.
  - intros (cost & _ & _ & ->). repeat split.
  - intros (_ & ->). repeat split.
  - intros ->. repeat split.
Qed.

(** The counters a call hands to [save()], given those it found. *)
Lemma counters_step_bounds (c : LedgerCall) (u u' : User) :
  counters_step c u u' ->
  0 <= apiCreditsUsed u -> apiCreditsUsed u <= apiCreditsTotal u ->
  (positive_amount c ->
     0 <= apiCreditsUsed u' /\ apiCreditsUsed u' <= apiCreditsTotal u'
     /\ apiCreditsTotal u <= apiCreditsTotal u')
  /\ (apiCreditsTotal u <= MAX_CREDITS -> apiCreditsTotal u' <= MAX_CREDITS).
Proof.
  intros Hstep H0 H1. destruct c; simpl in Hstep.
  - destruct Hstep as (cost & Hcost & Hle & ->).
    apply getEndpointCreditCost_number in Hcost. subst cost.
    unfold remaining in Hle. simpl. split; intros; lia.
  - destruct Hstep as (Hcap & ->). simpl. split; intros; lia.
  - subst u'. simpl. split; intros; lia.
Qed.

Lemma counters_step_capped (c : LedgerCall) (u u' : User) :
  counters_step c u u' ->
  apiCreditsTotal u <= MAX_CREDITS -> apiCreditsTotal u' <= MAX_CREDITS.
Proof.
  intros Hstep Hcap. destruct c; simpl in Hstep.
  - destruct Hstep as (cost & _ & _ & ->). exact Hcap.
  - destruct Hstep as (H & ->). exact H.
  - subst u'. exact Hcap.
Qed.

(** X1.  A call that reports a client error (any status code other than
    500: the 429, 404 and 400 of the three functions) has written nothing:
    the database it leaves is the one it found. *)
Theorem client_error_writes_nothing
    (env : Env) (c : LedgerCall) (db : DB) (code : Z) :
  callStatus env c db = Some code ->
  code <> 500 ->
  runCall env c db = db.
Proof.
  intros Hst Hne.
  destruct (runCall_effect env db c)
    as [Hfail | k u u' Hk Hu Hstep Hval Hrej H500
        | k u u' t Hk Hu Hstep Hval Hok].
  - reflexivity.
  - congruence.
  - apply callSucceeds_status in Hok. congruence.
Qed.

Lemma client_error_writes_nothing_witness :
  runCall (calm 1717000000000) (AddCredits (_id Sample.alice) 950 None)
          Sample.db0 = Sample.db0.
Proof.
  apply (client_error_writes_nothing _ _ _ 400); [reflexivity | discriminate].
Defined.

(** X2.  A call that reports success has made both writes.  The document
    it found has been handed to [save()] with its counters moved as the
    call prescribes and every other declared path as it was; when a counter
    did move, it is stored again with its [updatedAt] stamp set to the time
    of the save, and when none moved nothing is sent to the store.  Exactly
    one transaction is appended for that account, of the call's type,
    stamped with the current time, whose [amount] is the change of the
    remaining balance and whose [balanceAfter] is the new remaining
    balance. *)
Theorem success_writes_both (env : Env) (c : LedgerCall) (db : DB) :
  callSucceeds env c db = true ->
  exists (k : ObjectId) (u u' : User) (t : CreditTransaction),
    callTarget env c = Some k
    /\ users db !! k = Some u
    /\ counters_step c u u'
    /\ same_identity u u'
    /\ updatedAt u' = updatedAt u
    /\ runCall env c db =
         {| users :=
              (if decide (u' = u) then users db
               else <[_id u := set_updatedAt (save_time env) u']> (users db));
            transactions := transactions db ++ [t] |}
    /\ user t = _id u
    /\ type t = callType c
    /\ amount t = remaining u' - remaining u
    /\ balanceAfter t = remaining u'
    /\ createdAt t = now env.
Proof.
  intros Hok.
  remember (runCall env c db) as db' eqn:Hrun.
  pose proof (runCall_effect env db c) as Heff. rewrite <- Hrun in Heff.
  destruct Heff as [Hfail | k u u' Hk Hu Hstep Hval Hrej H500
                    | k u u' t Hk Hu Hstep Hval _ Ht1 Ht2 Ht3 Ht4 Ht5].
  - congruence.
  - apply callSucceeds_status in Hok. congruence.
  - exists k, u, u', t.
    pose proof (counters_step_identity c u u' Hstep) as Hsame.
    repeat (split; [first [assumption | reflexivity] |]).
    split.
    { destruct c; simpl in Hstep;
        [destruct Hstep as (? & _ & _ & ->) | destruct Hstep as (_ & ->)
         | subst u']; reflexivity. }
    split; [| repeat (split; [assumption |]); assumption].
    f_equal. unfold saved. destruct Hsame as (Hid & _).
    case_decide; [reflexivity |]. simpl. rewrite Hid. reflexivity.
Qed.

Lemma success_writes_both_witness :
  exists (k : ObjectId) (u u' : User) (t : CreditTransaction),
    callTarget (calm 1717000000000) (ResetUsed (_id Sample.carol)) = Some k
    /\ users Sample.db1 !! k = Some u
    /\ counters_step (ResetUsed (_id Sample.carol)) u u'
    /\ same_identity u u'
    /\ updatedAt u' = updatedAt u
    /\ runCall (calm 1717000000000) (ResetUsed (_id Sample.carol)) Sample.db1 =
         {| users :=
              (if decide (u' = u) then users Sample.db1
               else <[_id u := set_updatedAt 1717000000000 u']>
                      (users Sample.db1));
            transactions := transactions Sample.db1 ++ [t] |}
    /\ user t = _id u
    /\ type t = adjustment
    /\ amount t = remaining u' - remaining u
    /\ balanceAfter t = remaining u'
    /\ createdAt t = 1717000000000.
Proof.
  exact (success_writes_both (calm 1717000000000)
           (ResetUsed (_id Sample.carol)) Sample.db1 eq_refl).
Defined.

(* ===================================================================== *)
(** ** Sequences of calls                                                 *)
(* ===================================================================== *)

(** A property kept by every admissible call is kept by every sequence of
    admissible calls. *)
Lemma runCalls_preserves (P : DB -> Prop) (Q : Env * LedgerCall -> Prop) :
  (forall env c db, Q (env, c) -> P db -> P (runCall env c db)) ->
  forall cs db, Forall Q cs -> P db -> P (runCalls cs db).
Proof.
  intros Hstep cs. induction cs as [| [env c] cs IH]; intros db Hall Hdb.
  - exact Hdb.
  - inversion Hall as [| ? ? Hc Hcs]; subst. simpl.
    apply IH; [exact Hcs |]. apply Hstep; assumption.
Qed.

Lemma Forall_True {A} (l : list A) : Forall (fun _ => True) l.
Proof. induction l; constructor; auto. Qed.

Lemma runCall_log (env : Env) (c : LedgerCall) (db : DB) :
  exists l, transactions (runCall env c db) = transactions db ++ l
            /\ length l = if callSucceeds env c db then 1%nat else 0%nat.
Proof.
  destruct (runCall_effect env db c)
    as [Hfail | k u u' Hk Hu Hstep Hval Hrej H500
        | k u u' t Hk Hu Hstep Hval Hok].
  - exists []. rewrite app_nil_r, Hfail. auto.
  - exists []. rewrite saved_transactions, app_nil_r.
    destruct (callSucceeds env c db) eqn:E; [| auto].
    apply callSucceeds_status in E. congruence.
  - exists [t]. simpl. rewrite Hok. auto.
Qed.

(** X3.  The transaction log is append-only and has one entry per
    successful call: whatever calls are served and whatever the store does,
    the log found at the start is a prefix of the log at the end, and the
    number of entries added is the number of calls that reported success
    (so at most the number of calls). *)
Theorem log_append_only (cs : list (Env * LedgerCall)) (db : DB) :
  exists added : list CreditTransaction,
    transactions (runCalls cs db) = transactions db ++ added
    /\ length added = successes cs db
    /\ (length added <= length cs)%nat.
Proof.
  revert db. induction cs as [| [env c] cs IH]; intros db; simpl.
  - exists []. rewrite app_nil_r. auto.
  - destruct (IH (runCall env c db)) as (l2 & E2 & L2 & B2).
    destruct (runCall_log env c db) as (l1 & E1 & L1).
    exists (l1 ++ l2). rewrite E2, E1, <- app_assoc.
    split; [reflexivity |]. rewrite length_app, L1, L2.
    split; [reflexivity |].
    destruct (callSucceeds env c db); simpl; lia.
Qed.

(** What a call leaves in the users collection: the documents that were
    there, and possibly the document it saved. *)
Lemma runCall_lookup (env : Env) (c : LedgerCall) (db : DB)
    (id : ObjectId) (v : User) :
  users (runCall env c db) !! id = Some v ->
  users db !! id = Some v
  \/ exists k u u',
       callTarget env c = Some k /\ users db !! k = Some u
       /\ counters_step c u u'
       /\ id = _id u' /\ v = set_updatedAt (save_time env) u'.
Proof.
  destruct (runCall_effect env db c)
    as [Hfail | k u u' Hk Hu Hstep Hval Hrej H500
        | k u u' t Hk Hu Hstep Hval Hok]; [auto | |];
    cbn [users]; intros Hv;
    (apply saved_lookup in Hv as [Hv | (-> & -> & _)]; [auto |]);
    right; exists k, u, u'; auto.
Qed.

Lemma runCall_capped (env : Env) (c : LedgerCall) (db : DB) :
  capped db -> capped (runCall env c db).
Proof.
  intros Hcap id v Hv.
  apply runCall_lookup in Hv
    as [Hv | (k & u & u' & _ & Hu & Hstep & _ & ->)].
  - exact (Hcap id v Hv).
  - change (apiCreditsTotal u' <= MAX_CREDITS).
    eapply counters_step_capped; [exact Hstep |]. exact (Hcap k u Hu).
Qed.

Lemma runCall_credits_ok (env : Env) (c : LedgerCall) (db : DB) :
  positive_amount c -> credits_ok db -> credits_ok (runCall env c db).
Proof.
  intros Hpos Hok id v Hv.
  apply runCall_lookup in Hv
    as [Hv | (k & u & u' & _ & Hu & Hstep & _ & ->)].
  - exact (Hok id v Hv).
  - destruct (Hok k u Hu) as [H0 H1].
    destruct (counters_step_bounds c u u' Hstep H0 H1) as [Hb _].
    destruct (Hb Hpos) as (? & ? & ?). simpl. auto.
Qed.

(** X4.  The ceiling holds for every amount: if no account holds more than
    [MAX_CREDITS = 1000] in total, then none does after any sequence of calls,
    whatever amounts (positive or not) are passed to [addCredits] and
    whatever the store does. *)
Theorem total_never_exceeds_cap (cs : list (Env * LedgerCall)) (db : DB) :
  capped db ->
  forall (id : ObjectId) (u : User),
    users (runCalls cs db) !! id = Some u -> apiCreditsTotal u <= 1000.
Proof.
  intros Hcap.
  apply (runCalls_preserves capped (fun _ => True)); auto using Forall_True.
  intros env c db0 _. apply runCall_capped.
Qed.

Lemma db0_lookup (id : ObjectId) (u : User) :
  users Sample.db0 !! id = Some u -> id = _id Sample.alice /\ u = Sample.alice.
Proof.
  unfold Sample.db0. cbn [users]. intros H.
  apply lookup_singleton_Some in H as [<- <-]. split; reflexivity.
Qed.

Lemma db0_fresh : freshly_registered Sample.db0.
Proof.
  intros id u H. apply db0_lookup in H as [_ ->]. split; reflexivity.
Qed.

Lemma db0_keyed : keyed_by_id Sample.db0.
Proof.
  intros id u H. apply db0_lookup in H as [-> ->]. reflexivity.
Qed.

Lemma db0_capped : capped Sample.db0.
Proof.
  intros id u H. apply db0_lookup in H as [_ ->]. unfold MAX_CREDITS. simpl. lia.
Qed.

(** On the sample run the grant of 900 on a total of 150 is refused and the
    account ends with 150. *)
Lemma total_never_exceeds_cap_witness :
  users (runCalls Sample.calls Sample.db0) !! _id Sample.alice
    = Some Sample.alice_after
  /\ apiCreditsTotal Sample.alice_after <= 1000.
Proof.
  split; [reflexivity |].
  apply (total_never_exceeds_cap Sample.calls Sample.db0 db0_capped
           (_id Sample.alice)).
  reflexivity.
Defined.

(* ===================================================================== *)
(** ** The invariant 0 <= apiCreditsUsed <= apiCreditsTotal               *)
(* ===================================================================== *)

Lemma credits_ok_same_users (db db' : DB) :
  users db' = users db -> credits_ok db -> credits_ok db'.
Proof. unfold credits_ok. intros ->. auto. Qed.

Lemma freshly_registered_credits_ok (db : DB) :
  freshly_registered db -> credits_ok db.
Proof.
  intros H id u Hu. destruct (H id u Hu) as [Ht Hu0].
  rewrite Ht, Hu0. unfold default_apiCreditsTotal, default_apiCreditsUsed. lia.
Qed.

(** Whatever the store does, the invariant survives a sequence of calls. *)
Lemma runCalls_credits_ok (cs : list (Env * LedgerCall)) (db : DB) :
  Forall (fun ec => positive_amount (snd ec)) cs ->
  credits_ok db -> credits_ok (runCalls cs db).
Proof.
  apply (runCalls_preserves credits_ok (fun ec => positive_amount (snd ec))).
  intros env c d. apply runCall_credits_ok.
Qed.

(** C4.  Starting from accounts as registration creates them
    ([apiCreditsTotal = 100], [apiCreditsUsed = 0]), after every sequence of
    [consumeCredits], [addCredits] and [resetCredits] calls whose amounts are
    positive, served one after the other and whatever store calls fail on the
    way, every account satisfies [0 <= apiCreditsUsed] and
    [apiCreditsUsed <= apiCreditsTotal]. *)
Theorem credits_invariant (cs : list (Env * LedgerCall)) (db : DB) :
  freshly_registered db ->
  Forall (fun ec => positive_amount (snd ec)) cs ->
  forall (id : ObjectId) (u : User),
    users (runCalls cs db) !! id = Some u ->
    0 <= apiCreditsUsed u /\ apiCreditsUsed u <= apiCreditsTotal u.
Proof.
  intros Hfresh Hall.
  apply runCalls_credits_ok; [exact Hall |].
  apply freshly_registered_credits_ok. exact Hfresh.
Qed.

(** A run of seven calls on a fresh account, some of them with a failing
    store: the account ends with 1 credit used out of 150. *)
Lemma credits_invariant_witness :
  users (runCalls Sample.calls Sample.db0) !! _id Sample.alice
    = Some Sample.alice_after
  /\ 0 <= apiCreditsUsed Sample.alice_after
  /\ apiCreditsUsed Sample.alice_after <= apiCreditsTotal Sample.alice_after.
Proof.
  split; [reflexivity |].
  apply (credits_invariant Sample.calls Sample.db0) with (id := _id Sample.alice).
  - exact db0_fresh.
  - repeat constructor; simpl; lia.
  - reflexivity.
Defined.

(* ===================================================================== *)
(** ** Accounts under a sequence of calls                                 *)
(* ===================================================================== *)

(** In a database whose documents are stored under their own ids, the
    document a call saves is stored where it was found. *)
Lemma runCall_lookup_keyed (env : Env) (c : LedgerCall) (db : DB) :
  keyed_by_id db ->
  (forall id, users (runCall env c db) !! id = users db !! id)
  \/ exists k u u',
       callTarget env c = Some k /\ users db !! k = Some u
       /\ counters_step c u u' /\ _id u' = k
       /\ forall id, users (runCall env c db) !! id =
                     if decide (id = k) then Some (saved_doc env u u')
                     else users db !! id.
Proof.
  intros Hkey.
  destruct (runCall_effect env db c)
    as [Hfail | k u u' Hk Hu Hstep Hval Hrej H500
        | k u u' t Hk Hu Hstep Hval Hok]; [left; reflexivity | |];
    (right; exists k, u, u';
     pose proof (counters_step_identity c u u' Hstep) as (Hid & _);
     assert (Hidk : _id u' = k) by (rewrite Hid; exact (Hkey k u Hu));
     repeat (split; [assumption |]);
     intros id; cbn [users]; rewrite <- Hidk;
     apply saved_lookup_keyed; rewrite Hidk; exact Hu).
Qed.

Lemma runCall_keyed (env : Env) (c : LedgerCall) (db : DB) :
  keyed_by_id db -> keyed_by_id (runCall env c db).
Proof.
  intros Hkey id v.
  destruct (runCall_lookup_keyed env c db Hkey)
    as [Hsame | (k & u & u' & _ & Hu & Hstep & Hidk & Hsame)];
    rewrite Hsame; [apply Hkey |].
  case_decide as Hid; [| apply Hkey].
  intros [= <-]. subst id.
  destruct (saved_doc_fields env u u') as (-> & _). exact Hidk.
Qed.

(** X5.  A call touches one account only: in a database whose documents are
    stored under their own ids, every account other than the one the call is
    about is left exactly as it was, whatever the outcome. *)
Theorem other_accounts_untouched
    (env : Env) (c : LedgerCall) (db : DB) (other : ObjectId) :
  keyed_by_id db ->
  callTarget env c <> Some other ->
  users (runCall env c db) !! other = users db !! other.
Proof.
  intros Hkey Hne.
  destruct (runCall_lookup_keyed env c db Hkey)
    as [Hsame | (k & u & u' & Hk & _ & _ & _ & Hsame)];
    rewrite Hsame; [reflexivity |].
  rewrite decide_False; [reflexivity |]. congruence.
Qed.

Lemma db1_keyed : keyed_by_id Sample.db1.
Proof.
  intros id u. unfold Sample.db1. cbn [users].
  rewrite !lookup_insert. repeat case_decide; subst.
  - intros [= <-]. reflexivity.
  - intros [= <-]. reflexivity.
  - intros Hu. apply lookup_singleton_Some in Hu as [<- <-]. reflexivity.
Qed.

Lemma other_accounts_untouched_witness :
  users (runCall (calm 1717000000000) (ResetUsed (_id Sample.carol)) Sample.db1)
    !! _id Sample.bob
  = users Sample.db1 !! _id Sample.bob.
Proof.
  apply other_accounts_untouched; [exact db1_keyed | discriminate].
Defined.

Lemma same_identity_saved_doc (env : Env) (u u' : User) :
  same_identity u u' -> same_identity u (saved_doc env u u').
Proof. unfold saved_doc. case_decide; [auto |]. unfold same_identity. simpl. auto. Qed.

Lemma runCall_identity (env : Env) (c : LedgerCall) (db : DB)
    (id : ObjectId) (u : User) :
  keyed_by_id db ->
  users db !! id = Some u ->
  exists u', users (runCall env c db) !! id = Some u' /\ same_identity u u'
             /\ (positive_amount c -> apiCreditsTotal u <= apiCreditsTotal u').
Proof.
  intros Hkey Hid.
  assert (Hrefl : same_identity u u) by (repeat split).
  destruct (runCall_lookup_keyed env c db Hkey)
    as [Hsame | (k & v & v' & _ & Hv & Hstep & _ & Hsame)];
    rewrite Hsame.
  - exists u. split; [exact Hid | split; [exact Hrefl | lia]].
  - case_decide as E.
    + subst id. assert (v = u) by congruence. subst v.
      exists (saved_doc env u v'). split; [reflexivity |].
      split; [apply same_identity_saved_doc;
              eapply counters_step_identity; eassumption |].
      intros Hpos.
      destruct (saved_doc_fields env u v') as (_ & _ & -> & _).
      destruct c; simpl in *;
        [ destruct Hstep as (cost & _ & _ & ->) | destruct Hstep as (_ & ->)
          | subst v' ]; simpl; lia.
    + exists u. split; [exact Hid | split; [exact Hrefl | lia]].
Qed.

Lemma same_identity_trans (u v w : User) :
  same_identity u v -> same_identity v w -> same_identity u w.
Proof. unfold same_identity. intuition congruence. Qed.

Lemma runCall_no_new_account (env : Env) (c : LedgerCall) (db : DB)
    (id : ObjectId) :
  keyed_by_id db ->
  users db !! id = None -> users (runCall env c db) !! id = None.
Proof.
  intros Hkey Hid.
  destruct (runCall_lookup_keyed env c db Hkey)
    as [Hsame | (k & v & v' & _ & Hv & _ & _ & Hsame)];
    rewrite Hsame; [exact Hid |].
  case_decide as E; [congruence | exact Hid].
Qed.

(** X6.  The ledger only ever moves the two counters.  In a database whose
    documents are stored under their own ids, after any sequence of calls
    every account is still there with the same id, name, email, password,
    Google id, API key and admin flag, and no account has been added. *)
Theorem accounts_keep_identity (cs : list (Env * LedgerCall)) (db : DB) :
  keyed_by_id db ->
  (forall id u, users db !! id = Some u ->
     exists u', users (runCalls cs db) !! id = Some u' /\ same_identity u u')
  /\ (forall id, users db !! id = None -> users (runCalls cs db) !! id = None).
Proof.
  revert db. induction cs as [| [env c] cs IH]; intros db Hkey; simpl.
  - split; [| auto]. intros id u Hu. exists u. split; [exact Hu | repeat split].
  - destruct (IH (runCall env c db) (runCall_keyed env c db Hkey)) as [IH1 IH2].
    split.
    + intros id u Hu.
      destruct (runCall_identity env c db id u Hkey Hu) as (v & Hv & Huv & _).
      destruct (IH1 id v Hv) as (w & Hw & Hvw).
      exists w. split; [exact Hw | eapply same_identity_trans; eassumption].
    + intros id Hid. apply IH2. apply runCall_no_new_account; assumption.
Qed.

Lemma accounts_keep_identity_witness :
  (forall id u, users Sample.db0 !! id = Some u ->
     exists u', users (runCalls Sample.calls Sample.db0) !! id = Some u'
                /\ same_identity u u')
  /\ (forall id, users Sample.db0 !! id = None ->
        users (runCalls Sample.calls Sample.db0) !! id = None).
Proof.
  exact (accounts_keep_identity Sample.calls Sample.db0 db0_keyed).
Defined.

(** X7.  Credits granted are never taken back: with positive amounts, after
    any sequence of calls the total of every account is at least what it
    was. *)
Theorem total_never_decreases (cs : list (Env * LedgerCall)) (db : DB)
    (id : ObjectId) (u : User) :
  keyed_by_id db ->
  Forall (fun ec => positive_amount (snd ec)) cs ->
  users db !! id = Some u ->
  exists u', users (runCalls cs db) !! id = Some u'
             /\ apiCreditsTotal u <= apiCreditsTotal u'.
Proof.
  revert db u. induction cs as [| [env c] cs IH]; intros db u Hkey Hall Hu; simpl.
  - exists u. split; [exact Hu | lia].
  - inversion Hall as [| ? ? Hc Hcs]; subst. simpl in Hc.
    destruct (runCall_identity env c db id u Hkey Hu) as (v & Hv & _ & Hle).
    destruct (IH (runCall env c db) v (runCall_keyed env c db Hkey) Hcs Hv)
      as (w & Hw & Hvw).
    exists w. split; [exact Hw |]. specialize (Hle Hc). lia.
Qed.

Lemma total_never_decreases_witness :
  exists u', users (runCalls Sample.calls Sample.db0) !! _id Sample.alice = Some u'
             /\ apiCreditsTotal Sample.alice <= apiCreditsTotal u'.
Proof.
  apply total_never_decreases.
  - exact db0_keyed.
  - repeat constructor; simpl; lia.
  - reflexivity.
Defined.

(* ===================================================================== *)
(** ** The log and the balances                                           *)
(* ===================================================================== *)

Lemma of_user_snoc_same (id : ObjectId) (log : list CreditTransaction)
    (t : CreditTransaction) :
  user t = id -> of_user id (log ++ [t]) = of_user id log ++ [t].
Proof.
  intros H. unfold of_user. rewrite filter_app, filter_cons.
  case_decide; [reflexivity | contradiction].
Qed.

Lemma of_user_snoc_other (id : ObjectId) (log : list CreditTransaction)
    (t : CreditTransaction) :
  user t <> id -> of_user id (log ++ [t]) = of_user id log.
Proof.
  intros H. unfold of_user. rewrite filter_app, filter_cons.
  case_decide; [contradiction | apply app_nil_r].
Qed.

Lemma replay_snoc_same (id : ObjectId) (log : list CreditTransaction)
    (t : CreditTransaction) :
  user t = id -> replay id (log ++ [t]) = replay_step (replay id log) t.
Proof.
  intros H. unfold replay. rewrite of_user_snoc_same by exact H.
  apply fold_left_app.
Qed.

Lemma replay_snoc_other (id : ObjectId) (log : list CreditTransaction)
    (t : CreditTransaction) :
  user t <> id -> replay id (log ++ [t]) = replay id log.
Proof.
  intros H. unfold replay. rewrite of_user_snoc_other by exact H. reflexivity.
Qed.

Lemma sum_amounts_snoc_same (id : ObjectId) (log : list CreditTransaction)
    (t : CreditTransaction) :
  user t = id -> sum_amounts id (log ++ [t]) = sum_amounts id log + amount t.
Proof.
  intros H. unfold sum_amounts. rewrite of_user_snoc_same by exact H.
  induction (of_user id log) as [| x l IH]; simpl; lia.
Qed.

Lemma sum_amounts_snoc_other (id : ObjectId) (log : list CreditTransaction)
    (t : CreditTransaction) :
  user t <> id -> sum_amounts id (log ++ [t]) = sum_amounts id log.
Proof.
  intros H. unfold sum_amounts. rewrite of_user_snoc_other by exact H.
  reflexivity.
Qed.

(** The entry a call logs replays to the counters it has saved. *)
Lemma logged_step (c : LedgerCall) (u u' : User) (t : CreditTransaction) :
  counters_step c u u' ->
  type t = callType c ->
  amount t = remaining u' - remaining u ->
  replay_step (apiCreditsTotal u, apiCreditsUsed u) t
  = (apiCreditsTotal u', apiCreditsUsed u').
Proof.
  intros Hstep Hty Ham. unfold replay_step. rewrite Hty.
  destruct c; simpl in *;
    [ destruct Hstep as (cost & _ & _ & ->) | destruct Hstep as (_ & ->)
      | subst u' ];
    unfold remaining in Ham; simpl in *; f_equal; lia.
Qed.

Section LogAndBalances.

Variables (env : Env) (c : LedgerCall) (db : DB).
Hypothesis keyed : keyed_by_id db.
Hypothesis appended : append_accepted env c.

(** What a call with its log entry does to a database whose documents are
    stored under their own ids: nothing, or the document found under [k] is
    stored there again as [u'], stamped if changed, and [t] is appended. *)
Lemma runCall_committed :
  runCall env c db = db
  \/ exists k u u' t,
       users db !! k = Some u /\ counters_step c u u' /\ _id u = k
       /\ user t = k /\ type t = callType c
       /\ amount t = remaining u' - remaining u
       /\ balanceAfter t = remaining u'
       /\ transactions (runCall env c db) = transactions db ++ [t]
       /\ forall id, users (runCall env c db) !! id =
                     if decide (id = k) then Some (saved_doc env u u')
                     else users db !! id.
Proof.
  destruct (runCall_effect env db c)
    as [Hfail | k u u' Hk Hu Hstep Hval Hrej H500
        | k u u' t Hk Hu Hstep Hval Hok Ht1 Ht2 Ht3 Ht4 Ht5];
    [left; reflexivity | contradiction |].
  right. exists k, u, u', t.
  pose proof (counters_step_identity c u u' Hstep) as (Hid & _).
  pose proof (keyed k u Hu) as Hidk.
  repeat (split; [first [assumption | congruence] |]).
  split; [reflexivity |].
  intros id. cbn [users]. rewrite <- Hidk, <- Hid.
  apply saved_lookup_keyed. rewrite Hid, Hidk. exact Hu.
Qed.

Lemma runCall_accounted_log :
  log_accounts_for_balances db ->
  log_accounts_for_balances (runCall env c db).
Proof.
  intros Hlog.
  destruct runCall_committed
    as [-> | (k & u & u' & t & Hu & Hstep & Hidk & Ht1 & Ht2 & Ht3 & _
              & Hlog' & Husers)]; [exact Hlog |].
  intros id v. rewrite Husers, Hlog'. case_decide as E; intros Hv.
  - injection Hv as <-. subst id.
    rewrite replay_snoc_same by exact Ht1.
    rewrite (Hlog _ _ Hu).
    destruct (saved_doc_fields env u u') as (_ & -> & -> & _).
    eapply logged_step; eassumption.
  - rewrite replay_snoc_other by congruence. apply Hlog. exact Hv.
Qed.

Lemma runCall_balances_add_up :
  balances_add_up db -> balances_add_up (runCall env c db).
Proof.
  intros Hsum.
  destruct runCall_committed
    as [-> | (k & u & u' & t & Hu & Hstep & Hidk & Ht1 & Ht2 & Ht3 & _
              & Hlog' & Husers)]; [exact Hsum |].
  intros id v. rewrite Husers, Hlog'. case_decide as E; intros Hv.
  - injection Hv as <-. subst id.
    rewrite sum_amounts_snoc_same by exact Ht1.
    destruct (saved_doc_fields env u u') as (_ & _ & _ & _ & ->).
    pose proof (Hsum _ _ Hu) as Hbefore. lia.
  - rewrite sum_amounts_snoc_other by congruence. apply Hsum. exact Hv.
Qed.

Lemma runCall_newest_entry_current :
  newest_entry_current db -> newest_entry_current (runCall env c db).
Proof.
  intros Hnew.
  destruct runCall_committed
    as [-> | (k & u & u' & t & Hu & Hstep & Hidk & Ht1 & Ht2 & Ht3 & Ht4
              & Hlog' & Husers)]; [exact Hnew |].
  intros id v t0. rewrite Husers, Hlog'. case_decide as E; intros Hv Hlast.
  - injection Hv as <-. subst id.
    rewrite of_user_snoc_same, last_snoc in Hlast by exact Ht1.
    injection Hlast as <-.
    destruct (saved_doc_fields env u u') as (_ & _ & _ & _ & ->). exact Ht4.
  - rewrite of_user_snoc_other in Hlast by congruence.
    eapply Hnew; eassumption.
Qed.

(** With positive amounts under the ceiling, every amount logged is an
    integer between -1000 and 1000. *)
Lemma runCall_amounts_bounded :
  positive_amount c -> credits_ok db -> capped db ->
  Forall (fun t => -1000 <= amount t <= 1000) (transactions db) ->
  Forall (fun t => -1000 <= amount t <= 1000) (transactions (runCall env c db)).
Proof.
  intros Hpos Hok Hcap Hall.
  destruct runCall_committed
    as [-> | (k & u & u' & t & Hu & Hstep & Hidk & Ht1 & Ht2 & Ht3 & _
              & Hlog' & Husers)]; [exact Hall |].
  rewrite Hlog'. apply Forall_app. split; [exact Hall |].
  constructor; [| constructor].
  destruct (Hok k u Hu) as [H0 H1]. pose proof (Hcap k u Hu) as H2.
  destruct (counters_step_bounds c u u' Hstep H0 H1) as [Hb Hc].
  destruct (Hb Hpos) as (? & ? & ?). specialize (Hc H2).
  unfold MAX_CREDITS in *. unfold remaining in Ht3. lia.
Qed.

End LogAndBalances.

Lemma runCall_accounted (env : Env) (c : LedgerCall) (db : DB) :
  append_accepted env c -> accounted db -> accounted (runCall env c db).
Proof.
  intros Happ [Hkey Hlog]. split.
  - apply runCall_keyed. exact Hkey.
  - apply runCall_accounted_log; assumption.
Qed.

(** Registration leaves nothing in the log to account for. *)
Lemma fresh_accounted (db : DB) :
  keyed_by_id db -> freshly_registered db -> transactions db = [] ->
  accounted db.
Proof.
  intros Hkey Hfresh Hlog. split; [exact Hkey |].
  intros id u Hu. rewrite Hlog. destruct (Hfresh _ _ Hu) as [-> ->].
  reflexivity.
Qed.

(** As long as the three service functions are the only writers and every
    transaction document is taken, replaying the log reproduces the
    counters of every account. *)
Lemma runCalls_accounted (cs : list (Env * LedgerCall)) (db : DB) :
  Forall (fun ec => append_accepted (fst ec) (snd ec)) cs ->
  accounted db -> accounted (runCalls cs db).
Proof.
  apply (runCalls_preserves accounted
           (fun ec => append_accepted (fst ec) (snd ec))).
  intros env c d. apply runCall_accounted.
Qed.

(** C5 at the sequence "one charge, then [POST /api/users/:id/reset-count]".
    The charge is accounted for; the route then answers 200 and writes
    [apiCreditsUsed = 0] without creating a transaction, so the log still
    holds the single [-1] entry and its replay from [(100, 0)] gives
    [(100, 1)] while the account stores [(100, 0)]. *)
Theorem reset_count_route_unlogged :
  let charged :=
    snd (consumeCredits Sample.alice Sample.estimate
           (calm 1717000000000) Sample.db0) in
  let run := resetCountRoute (_id Sample.alice) (calm 1717000001000) charged in
  let final := snd run in
  log_accounts_for_balances charged
  /\ (exists b, fst run = Returned {| status := 200; body := b |})
  /\ users final !! _id Sample.alice
     = Some (set_updatedAt 1717000001000 Sample.alice)
  /\ (apiCreditsTotal Sample.alice, apiCreditsUsed Sample.alice) = (100, 0)
  /\ transactions final = transactions charged
  /\ replay (_id Sample.alice) (transactions final) = (100, 1)
  /\ ~ log_accounts_for_balances final.
Proof.
  intros charged run final.
  assert (Hfinal : users final !! _id Sample.alice
                   = Some (set_updatedAt 1717000001000 Sample.alice))
    by (vm_compute; reflexivity).
  assert (Hreplay : replay (_id Sample.alice) (transactions final) = (100, 1))
    by (vm_compute; reflexivity).
  split.
  { apply (runCall_accounted (calm 1717000000000)
             (Consume Sample.alice Sample.estimate) Sample.db0).
    - split; [reflexivity | discriminate].
    - apply fresh_accounted;
        [exact db0_keyed | exact db0_fresh | reflexivity]. }
  split; [eexists; vm_compute; reflexivity |].
  split; [exact Hfinal |].
  split; [reflexivity |].
  split; [vm_compute; reflexivity |].
  split; [exact Hreplay |].
  intros H. specialize (H _ _ Hfinal). rewrite Hreplay in H. discriminate H.
Qed.

(** X8.  The balance is the initial grant plus the logged amounts.  Starting
    from freshly registered accounts and an empty log, after any sequence of
    calls whose amounts are positive integers and whose transaction
    documents are all taken, the remaining credits of every account equal
    100 plus the sum of the [amount]s of its transactions.  Every counter
    stays between 0 and 1000 and every logged amount between -1000 and 1000,
    so all the numbers involved are integers the code computes exactly. *)
Theorem balance_is_grant_plus_log (cs : list (Env * LedgerCall)) (db : DB) :
  keyed_by_id db ->
  freshly_registered db ->
  transactions db = [] ->
  Forall (fun ec => positive_amount (snd ec)) cs ->
  Forall (fun ec => append_accepted (fst ec) (snd ec)) cs ->
  (forall (id : ObjectId) (u : User),
     users (runCalls cs db) !! id = Some u ->
     apiCreditsTotal u - apiCreditsUsed u
     = 100 + sum_amounts id (transactions (runCalls cs db))
     /\ 0 <= apiCreditsUsed u
     /\ apiCreditsUsed u <= apiCreditsTotal u
     /\ apiCreditsTotal u <= 1000)
  /\ Forall (fun t => -1000 <= amount t <= 1000)
            (transactions (runCalls cs db)).
Proof.
  intros Hkey Hfresh Hlog Hpos Happ.
  set (P := fun d : DB =>
              keyed_by_id d /\ balances_add_up d /\ credits_ok d /\ capped d
              /\ Forall (fun t => -1000 <= amount t <= 1000) (transactions d)).
  assert (H : P (runCalls cs db)).
  { apply (runCalls_preserves P
             (fun ec => positive_amount (snd ec)
                        /\ append_accepted (fst ec) (snd ec))).
    - intros env c d [Hc Ha] (Hk & Hs & Ho & Hcap & Hb).
      split; [apply runCall_keyed; exact Hk |].
      split; [apply runCall_balances_add_up; assumption |].
      split; [apply runCall_credits_ok; assumption |].
      split; [apply runCall_capped; assumption |].
      apply runCall_amounts_bounded; assumption.
    - apply Forall_and. split; assumption.
    - split; [exact Hkey |].
      split.
      { intros id u Hu. rewrite Hlog.
        destruct (Hfresh _ _ Hu) as [Ht Hu0]. unfold remaining.
        rewrite Ht, Hu0. reflexivity. }
      split; [apply freshly_registered_credits_ok; exact Hfresh |].
      split.
      { intros id u Hu. destruct (Hfresh _ _ Hu) as [-> _].
        unfold default_apiCreditsTotal, MAX_CREDITS. lia. }
      rewrite Hlog. constructor. }
  destruct H as (_ & Hs & Ho & Hcap & Hb).
  split; [| exact Hb].
  intros id u Hu. split; [exact (Hs id u Hu) |].
  destruct (Ho id u Hu). specialize (Hcap id u Hu).
  unfold MAX_CREDITS in Hcap. auto.
Qed.

(** X9.  The newest entry of an account's history shows its current
    balance.  If that holds at the start (for instance because the log is
    empty), it holds after any sequence of calls whose transaction
    documents are all taken (the store accepts them and their descriptions
    are not empty): the [balanceAfter] of the last transaction logged for
    an account is its stored [apiCreditsTotal - apiCreditsUsed]. *)
Theorem newest_entry_shows_balance (cs : list (Env * LedgerCall)) (db : DB) :
  keyed_by_id db ->
  newest_entry_current db ->
  Forall (fun ec => append_accepted (fst ec) (snd ec)) cs ->
  forall (id : ObjectId) (u : User) (t : CreditTransaction),
    users (runCalls cs db) !! id = Some u ->
    last (of_user id (transactions (runCalls cs db))) = Some t ->
    balanceAfter t = apiCreditsTotal u - apiCreditsUsed u.
Proof.
  intros Hkey Hnew Hall.
  assert (H : keyed_by_id (runCalls cs db)
              /\ newest_entry_current (runCalls cs db)).
  { apply (runCalls_preserves
             (fun d => keyed_by_id d /\ newest_entry_current d)
             (fun ec => append_accepted (fst ec) (snd ec))); [| exact Hall |].
    - intros env c d Hc [Hk Hs]. split.
      + apply runCall_keyed. exact Hk.
      + apply runCall_newest_entry_current; assumption.
    - split; assumption. }
  destruct H as [_ H]. exact H.
Qed.

Lemma calls_ok_positive :
  Forall (fun ec : Env * LedgerCall => positive_amount (snd ec)) Scenario.calls_ok.
Proof. repeat constructor; simpl; lia. Qed.

Lemma calls_ok_appended :
  Forall (fun ec : Env * LedgerCall => append_accepted (fst ec) (snd ec))
         Scenario.calls_ok.
Proof. repeat constructor; simpl; discriminate. Qed.

Lemma balance_is_grant_plus_log_witness :
  users (runCalls Scenario.calls_ok Sample.db0) !! _id Sample.alice
    = Some Scenario.alice_final
  /\ apiCreditsTotal Scenario.alice_final - apiCreditsUsed Scenario.alice_final
     = 100 + sum_amounts (_id Sample.alice)
               (transactions (runCalls Scenario.calls_ok Sample.db0))
  /\ 0 <= apiCreditsUsed Scenario.alice_final
  /\ apiCreditsUsed Scenario.alice_final <= apiCreditsTotal Scenario.alice_final
  /\ apiCreditsTotal Scenario.alice_final <= 1000.
Proof.
  split; [reflexivity |].
  apply (proj1 (balance_is_grant_plus_log Scenario.calls_ok Sample.db0
                  db0_keyed db0_fresh eq_refl
                  calls_ok_positive calls_ok_appended)).
  reflexivity.
Defined.

Lemma db0_newest : newest_entry_current Sample.db0.
Proof. intros id u t _ H. discriminate H. Qed.

Lemma newest_entry_shows_balance_witness :
  last (of_user (_id Sample.alice)
          (transactions (runCalls Scenario.calls_ok Sample.db0)))
    = Some Scenario.last_entry
  /\ balanceAfter Scenario.last_entry
     = apiCreditsTotal Scenario.alice_final - apiCreditsUsed Scenario.alice_final.
Proof.
  split; [reflexivity |].
  apply (newest_entry_shows_balance Scenario.calls_ok Sample.db0
           db0_keyed db0_newest calls_ok_appended) with (id := _id Sample.alice).
  - reflexivity.
  - reflexivity.
Defined.

(* ===================================================================== *)
(** ** Spending an account down                                           *)
(* ===================================================================== *)

Lemma consume_once (env : Env) (caller : User) (path : string) (db : DB)
    (u : User) :
  writes_accepted env ->
  users db !! _id caller = Some u ->
  validates u = true ->
  getEndpointCreditCost path = JsNumber 1 ->
  (1 <= remaining u ->
     callSucceeds env (Consume caller path) db = true /\
     users (runCall env (Consume caller path) db)
       = <[_id u := set_updatedAt (save_time env)
                      (set_apiCreditsUsed (apiCreditsUsed u + 1) u)]>
           (users db))
  /\ (remaining u < 1 ->
        callSucceeds env (Consume caller path) db = false /\
        runCall env (Consume caller path) db = db).
Proof.
  intros (Hf & Hs & Hc) Hlook Hval Hcost. unfold remaining. simpl.
  split; intros H.
  - rewrite (consumeCredits_writes env caller path db u 1) by assumption.
    rewrite Hc. simpl. auto.
  - unfold consumeCredits. rewrite Hcost. unfold_store. cbn [castObjectId].
    rewrite Hf, Hlook.
    apply Z.ltb_lt in H. rewrite H. simpl. auto.
Qed.

(** X10.  Requests served one after the other spend exactly what is left.
    When [n] charges for a path are served in turn by a healthy store on an
    account with [k >= 0] credits remaining, whose document passes the
    validators of the schema, [min n k] of them succeed: the account ends
    with [apiCreditsUsed] raised by [min n k], its total unchanged, and the
    remaining charges are refused without any write. *)
Theorem consume_until_exhausted
    (envs : list Env) (caller : User) (path : string) (db : DB) (u : User)
    (cost : Z) :
  Forall writes_accepted envs ->
  getEndpointCreditCost path = JsNumber cost ->
  users db !! _id caller = Some u ->
  _id u = _id caller ->
  validates u = true ->
  0 <= remaining u ->
  let cs := map (fun e => (e, Consume caller path)) envs in
  let served := Z.min (Z.of_nat (length envs)) (remaining u) in
  exists u',
    users (runCalls cs db) !! _id caller = Some u'
    /\ apiCreditsUsed u' = apiCreditsUsed u + served
    /\ apiCreditsTotal u' = apiCreditsTotal u
    /\ successes cs db = Z.to_nat served.
Proof.
  intros Hall Hcost. pose proof (getEndpointCreditCost_number _ _ Hcost). subst cost.
  revert db u.
  induction envs as [| env envs IH]; intros db u Hlook Hid Hval Hrem; simpl.
  - exists u. rewrite Z.min_l by exact Hrem. simpl. repeat split; auto; lia.
  - inversion Hall as [| ? ? Henv Henvs]; subst.
    destruct (consume_once env caller path db u Henv Hlook Hval Hcost)
      as [Hyes Hno].
    destruct (Z_lt_le_dec (remaining u) 1) as [Hlt | Hge].
    + destruct (Hno Hlt) as [Hfail Hsame]. simpl in Hsame.
      simpl in Hfail. rewrite Hfail, Hsame.
      destruct (IH Henvs db u Hlook Hid Hval Hrem) as (u' & H1 & H2 & H3 & H4).
      exists u'. rewrite H4.
      assert (remaining u = 0) by lia.
      repeat split; auto; lia.
    + destruct (Hyes Hge) as [Hok Husers]. simpl in Hok, Husers.
      rewrite Hok.
      set (u1 := set_updatedAt (save_time env)
                   (set_apiCreditsUsed (apiCreditsUsed u + 1) u)) in *.
      set (db1 := snd (consumeCredits caller path env db)) in *.
      assert (Hlook1 : users db1 !! _id caller = Some u1)
        by (rewrite Husers, Hid; apply lookup_insert_eq).
      assert (Hrem1 : remaining u1 = remaining u - 1)
        by (unfold remaining, u1; simpl; lia).
      assert (Hpos1 : 0 <= remaining u1) by (rewrite Hrem1; lia).
      destruct (IH Henvs db1 u1 Hlook1 Hid Hval Hpos1)
        as (u' & H1 & H2 & H3 & H4).
      exists u'. rewrite H4, Hrem1.
      split; [exact H1 |].
      change (apiCreditsUsed u1) with (apiCreditsUsed u + 1) in H2.
      change (apiCreditsTotal u1) with (apiCreditsTotal u) in H3.
      split; [lia |]. split; [exact H3 | lia].
Qed.

(** Five charges on an account with three credits left: three are served. *)
Lemma consume_until_exhausted_witness :
  exists u',
    users (runCalls (map (fun e => (e, Consume Scenario.dave Sample.estimate))
                         Scenario.five_envs)
                    Scenario.db_dave) !! _id Scenario.dave = Some u'
    /\ apiCreditsUsed u' = 97 + 3
    /\ apiCreditsTotal u' = 100
    /\ successes (map (fun e => (e, Consume Scenario.dave Sample.estimate))
                      Scenario.five_envs)
                 Scenario.db_dave = 3%nat.
Proof.
  apply (consume_until_exhausted Scenario.five_envs Scenario.dave
           Sample.estimate Scenario.db_dave Scenario.dave 1).
  - repeat constructor.
  - reflexivity.
  - reflexivity.
  - reflexivity.
  - reflexivity.
  - unfold remaining. simpl. lia.
Defined.

(* ===================================================================== *)
(** ** POST /api/users/:id/reset-count                                    *)
(* ===================================================================== *)

(** X11.  The two administrative reset paths always leave the same
    accounts: for every id, database and behaviour of the store,
    [POST /api/users/:id/reset-count] stores exactly the user documents
    that [creditService.resetCredits] stores, and it never adds to the
    transaction log. *)
Theorem reset_paths_agree (env : Env) (id : string) (db : DB) :
  users (snd (resetCountRoute id env db)) = users (snd (resetCredits id env db))
  /\ transactions (snd (resetCountRoute id env db)) = transactions db.
Proof.
  unfold resetCountRoute, resetCredits. unfold_store.
  destruct (castObjectId env (IdString id)); [| split; reflexivity].
  destruct (findById_rejects env); [split; reflexivity |].
  destruct (users db !! o) as [u|]; [| split; reflexivity].
  destruct (negb (validates _)); [split; reflexivity |].
  destruct (save_rejects env); [split; reflexivity |].
  cbn [f_description truthy_string negb].
  destruct (create_rejects env);
    (split; [reflexivity | apply saved_transactions]).
Qed.



(* ===================================================================== *)
(** ** The credit routes                                                  *)
(* ===================================================================== *)

Lemma or_else_nonzero (a b : Z) : a <> 0 -> or_else a b = a.
Proof. intros H. unfold or_else. destruct (Z.eqb_spec a 0); congruence. Qed.

(** [addCredits] fails with a status code that is not 0. *)
Lemma addCredits_code_nonzero (env : Env) (userId : string) (a : Z)
    (d : option string) (db : DB) (m : string) (c : Z) :
  fst (addCredits userId a d env db) = Returned (Failure m c) -> c <> 0.
Proof.
  assert (Hfail : forall (m0 : string) (c0 : Z),
            c0 <> 0 ->
            Returned (A := ServiceResult AddResult.t) (Failure m0 c0)
              = Returned (Failure m c) -> c <> 0).
  { intros m0 c0 Hc [= _ <-]. exact Hc. }
  unfold addCredits. unfold_store.
  destruct (castObjectId env (IdString userId));
    [| apply Hfail; discriminate].
  destruct (findById_rejects env); [apply Hfail; discriminate |].
  destruct (users db !! o) as [u|]; [| apply Hfail; discriminate].
  destruct (_ >? _); [apply Hfail; discriminate |].
  destruct (negb (validates _)); [apply Hfail; discriminate |].
  destruct (save_rejects env); [apply Hfail; discriminate |].
  destruct (negb (truthy_string _)); [apply Hfail; discriminate |].
  destruct (create_rejects env); [apply Hfail; discriminate | discriminate].
Qed.

(** X13.  [POST /api/credits/:userId/add] lets only positive amounts
    through.  A request whose [amount] is missing, zero or negative is
    answered 400 before any store call and nothing is written.  For a
    positive amount the route does what [addCredits] does with the
    description "Admin credit addition by <name of the caller>", and relays
    its outcome: 200 with the new totals, or the service's own status code
    and message. *)
Theorem addCreditsRoute_spec
    (env : Env) (reqUser : User) (userId : string) (db : DB) :
  (forall amount0,
     amount0 = None \/ (exists a, amount0 = Some a /\ a <= 0) ->
     addCreditsRoute reqUser userId amount0 env db =
       (Returned {| credits_status := 400;
                    credits_body :=
                      CreditsMessage "Please provide a valid positive amount" |},
        db))
  /\ (forall a, 0 < a ->
        let run := addCredits userId a
                     (Some ("Admin credit addition by " +:+ name reqUser))
                     env db in
        snd (addCreditsRoute reqUser userId (Some a) env db) = snd run
        /\ forall r, fst run = Returned r ->
             fst (addCreditsRoute reqUser userId (Some a) env db) =
               Returned
                 match r with
                 | Success payload =>
                     {| credits_status := 200;
                        credits_body := CreditsAdded payload |}
                 | Failure message code =>
                     {| credits_status := code;
                        credits_body := CreditsMessage message |}
                 end).
Proof.
  split.
  - intros amount0 [-> | (a & -> & Ha)]; [reflexivity |].
    unfold addCreditsRoute, invalid_amount. unfold_store.
    replace (a <=? 0) with true by (symmetry; apply Z.leb_le; exact Ha).
    rewrite orb_true_r. reflexivity.
  - intros a Ha run.
    assert (Hvalid : invalid_amount (Some a) = false).
    { unfold invalid_amount.
      replace (a =? 0) with false by (symmetry; apply Z.eqb_neq; lia).
      replace (a <=? 0) with false by (symmetry; apply Z.leb_gt; lia).
      reflexivity. }
    unfold addCreditsRoute. rewrite Hvalid. unfold try_catch, bind, ret. simpl.
    fold run.
    assert (Hcodes : forall m c d, run = (Returned (Failure m c), d) -> c <> 0).
    { intros m c d Hrun.
      apply (addCredits_code_nonzero env userId a
               (Some ("Admin credit addition by " +:+ name reqUser)) db m).
      fold run. rewrite Hrun. reflexivity. }
    destruct run as [[[payload | m c] | e] d] eqn:Erun; simpl.
    + split; [reflexivity |]. intros r [= <-]. reflexivity.
    + split; [reflexivity |]. intros r [= <-].
      rewrite or_else_nonzero by (eapply Hcodes; reflexivity). reflexivity.
    + split; [reflexivity |]. discriminate.
Qed.

Lemma addCreditsRoute_spec_witness :
  addCreditsRoute Sample.carol (_id Sample.alice) (Some (-5))
      (calm 1717000000000) Sample.db1 =
    (Returned {| credits_status := 400;
                 credits_body :=
                   CreditsMessage "Please provide a valid positive amount" |},
     Sample.db1)
  /\ snd (addCreditsRoute Sample.carol (_id Sample.alice) (Some 50)
            (calm 1717000000000) Sample.db1)
     = snd (addCredits (_id Sample.alice) 50
              (Some "Admin credit addition by Carol")
              (calm 1717000000000) Sample.db1).
Proof.
  split.
  - apply (proj1 (addCreditsRoute_spec (calm 1717000000000) Sample.carol
                    (_id Sample.alice) Sample.db1)).
    right. exists (-5). split; [reflexivity | lia].
  - apply (proj2 (addCreditsRoute_spec (calm 1717000000000) Sample.carol
                    (_id Sample.alice) Sample.db1) 50).
    reflexivity.
Defined.

Lemma history_of_user (userId : ObjectId) (db : DB) (t : CreditTransaction) :
  t ∈ history userId db -> user t = userId /\ t ∈ transactions db.
Proof.
  intros H. apply of_user_spec.
  rewrite <- (history_perm userId db). exact H.
Qed.

(** X14.  [GET /api/credits] is a read of the caller's own data.  It never
    writes.  When the query is answered it replies 200 with the balance
    taken from the request's user document and with at most 20
    transactions, every one of them the caller's own and recorded in the
    log, newest first; when the query is refused it replies 500. *)
Theorem getCreditsRoute_spec (env : Env) (reqUser : User) (db : DB) :
  snd (getCreditsRoute reqUser env db) = db
  /\ (find_rejects env = false ->
        exists txs,
          fst (getCreditsRoute reqUser env db) =
            Returned
              {| credits_status := 200;
                 credits_body :=
                   CreditsOverview (apiCreditsTotal reqUser)
                     (apiCreditsUsed reqUser)
                     (apiCreditsTotal reqUser - apiCreditsUsed reqUser) txs |}
          /\ (length txs <= 20)%nat
          /\ (forall t, t ∈ txs ->
                user t = _id reqUser /\ t ∈ transactions db)
          /\ StronglySorted newer_first txs)
  /\ (find_rejects env = true ->
        fst (getCreditsRoute reqUser env db) =
          Returned
            {| credits_status := 500;
               credits_body :=
                 CreditsMessage "Error fetching credit transaction history" |}).
Proof.
  unfold getCreditsRoute, getTransactionHistory. unfold_store.
  cbn [castObjectId].
  destruct (find_rejects env); simpl.
  - split; [reflexivity |]. split; [discriminate | reflexivity].
  - split; [reflexivity |]. split; [| discriminate]. intros _.
    rewrite Query_limit_positive by lia.
    change (Z.to_nat 20) with 20%nat.
    exists (take 20 (history (_id reqUser) db)).
    split; [reflexivity |].
    split; [rewrite length_take; lia |].
    split.
    + intros t Ht. apply history_of_user.
      eapply (subseteq_take 20). exact Ht.
    + pose proof (history_sorted (_id reqUser) db) as Hs.
      rewrite <- (take_drop 20 (history (_id reqUser) db)) in Hs.
      eapply StronglySorted_app_1_l. exact Hs.
Qed.

Lemma getCreditsRoute_spec_witness :
  exists txs,
    fst (getCreditsRoute Scenario.alice_seen (calm 1717000009000) Sample.db2) =
      Returned
        {| credits_status := 200;
           credits_body := CreditsOverview 150 2 148 txs |}
    /\ (length txs <= 20)%nat
    /\ (forall t, t ∈ txs ->
          user t = _id Scenario.alice_seen /\ t ∈ transactions Sample.db2)
    /\ StronglySorted newer_first txs.
Proof.
  exact (proj1 (proj2 (getCreditsRoute_spec (calm 1717000009000)
                         Scenario.alice_seen Sample.db2)) eq_refl).
Defined.

(* ===================================================================== *)
(** ** The invariant at the HTTP layer                                    *)
(* ===================================================================== *)

Lemma getCreditsRoute_reads (env : Env) (reqUser : User) (db : DB) :
  snd (getCreditsRoute reqUser env db) = db.
Proof.
  unfold getCreditsRoute, getTransactionHistory. unfold_store.
  cbn [castObjectId].
  destruct (find_rejects env); reflexivity.
Qed.

Lemma addCreditsRoute_state (env : Env) (reqUser : User) (userId : string)
    (amount0 : option Z) (db : DB) :
  snd (addCreditsRoute reqUser userId amount0 env db)
  = if invalid_amount amount0 then db
    else snd (addCredits userId (default 0 amount0)
                (Some ("Admin credit addition by " +:+ name reqUser)) env db).
Proof.
  unfold addCreditsRoute, try_catch, bind, ret.
  destruct (invalid_amount amount0); [reflexivity |].
  destruct (addCredits _ _ _ env db) as [[[r | m c] | e] d]; reflexivity.
Qed.

Lemma invalid_amount_false (amount0 : option Z) :
  invalid_amount amount0 = false -> exists a, amount0 = Some a /\ 0 < a.
Proof.
  destruct amount0 as [a|]; [| discriminate]. simpl.
  rewrite orb_false_r. intros H. apply orb_false_iff in H as [_ H].
  apply Z.leb_gt in H. eauto.
Qed.

Lemma resetCountRoute_users (env : Env) (id : string) (db : DB) :
  users (snd (resetCountRoute id env db)) = users (snd (resetCredits id env db)).
Proof.
  unfold resetCountRoute, resetCredits. unfold_store.
  destruct (castObjectId env (IdString id)); [| reflexivity].
  destruct (findById_rejects env); [reflexivity |].
  destruct (users db !! o) as [u|]; [| reflexivity].
  destruct (negb (validates _)); [reflexivity |].
  destruct (save_rejects env); [reflexivity |].
  cbn [f_description truthy_string negb].
  destruct (create_rejects env); reflexivity.
Qed.

Lemma estimate_gate_state (reqUser : User) (hasFile : bool)
    (env : Env) (db : DB) :
  snd (estimateCalories_gate reqUser hasFile env db)
  = if hasFile
    then snd (consumeCredits reqUser "/api/estimate-calories" env db)
    else db.
Proof.
  unfold estimateCalories_gate, bind, ret.
  destruct hasFile; [| reflexivity]. simpl.
  destruct (consumeCredits reqUser "/api/estimate-calories" env db)
    as [[[r | m c] | e] d]; reflexivity.
Qed.

(** Every handler leaves the accounts as they were, or as one of the three
    service calls, made with a positive amount, leaves them. *)
Lemma runHttp_accounts (env : Env) (h : HttpCall) (db : DB) :
  users (runHttp env h db) = users db
  \/ exists c, positive_amount c
               /\ users (runHttp env h db) = users (runCall env c db).
Proof.
  destruct h as [reqUser | reqUser userId a | userId | id | reqUser hasFile]; simpl.
  - left. f_equal. apply getCreditsRoute_reads.
  - rewrite addCreditsRoute_state.
    destruct (invalid_amount a) eqn:Hinv; [left; reflexivity |].
    apply invalid_amount_false in Hinv as (a' & -> & Ha).
    right. eexists (AddCredits userId a' _). split; [exact Ha |]. reflexivity.
  - right. exists (ResetUsed userId). split; [exact I |]. simpl. f_equal.
    unfold resetCreditsRoute, try_catch, bind, ret.
    destruct (resetCredits userId env db) as [[[r | m c] | e] d]; reflexivity.
  - right. exists (ResetUsed id). split; [exact I |]. simpl.
    apply resetCountRoute_users.
  - rewrite estimate_gate_state.
    destruct hasFile; [| left; reflexivity].
    right. exists (Consume reqUser "/api/estimate-calories").
    split; [exact I | reflexivity].
Qed.

Lemma capped_same_users (db db' : DB) :
  users db' = users db -> capped db -> capped db'.
Proof. unfold capped. intros ->. auto. Qed.

Lemma runHttp_invariant (env : Env) (h : HttpCall) (db : DB) :
  credits_ok db /\ capped db ->
  credits_ok (runHttp env h db) /\ capped (runHttp env h db).
Proof.
  intros [Hok Hcap].
  destruct (runHttp_accounts env h db) as [E | (c & Hpos & E)].
  - split; [eapply credits_ok_same_users | eapply capped_same_users]; eauto.
  - split.
    + eapply credits_ok_same_users; [exact E |].
      apply runCall_credits_ok; assumption.
    + eapply capped_same_users; [exact E |].
      apply runCall_capped; assumption.
Qed.

(** X15.  At the HTTP layer the invariant needs no assumption on the
    amounts.  Starting from freshly registered accounts, after any sequence
    of requests to the credit routes, to the estimation endpoint and to the
    reset-count route, with any request bodies and whatever the store does,
    every account satisfies
    [0 <= apiCreditsUsed <= apiCreditsTotal <= 1000]. *)
Theorem http_credits_invariant (hs : list (Env * HttpCall)) (db : DB) :
  freshly_registered db ->
  forall (id : ObjectId) (u : User),
    users (runHttps hs db) !! id = Some u ->
    0 <= apiCreditsUsed u
    /\ apiCreditsUsed u <= apiCreditsTotal u
    /\ apiCreditsTotal u <= 1000.
Proof.
  intros Hfresh.
  assert (H0 : credits_ok db /\ capped db).
  { split; [apply freshly_registered_credits_ok; exact Hfresh |].
    intros id u Hu. destruct (Hfresh _ _ Hu) as [-> _].
    unfold default_apiCreditsTotal, MAX_CREDITS. lia. }
  clear Hfresh. revert db H0.
  induction hs as [| [env h] hs IH]; intros db H0 id u Hu; simpl in Hu.
  - destruct H0 as [Hok Hcap]. destruct (Hok _ _ Hu).
    specialize (Hcap _ _ Hu). unfold MAX_CREDITS in Hcap. auto.
  - eapply IH; [| exact Hu]. apply runHttp_invariant. exact H0.
Qed.

Lemma http_credits_invariant_witness :
  users (runHttps Scenario.requests Sample.db0) !! _id Sample.alice
    = Some Scenario.alice_served
  /\ 0 <= apiCreditsUsed Scenario.alice_served
  /\ apiCreditsUsed Scenario.alice_served <= apiCreditsTotal Scenario.alice_served
  /\ apiCreditsTotal Scenario.alice_served <= 1000.
Proof.
  split; [reflexivity |].
  apply (http_credits_invariant Scenario.requests Sample.db0 db0_fresh
           (_id Sample.alice)).
  reflexivity.
Defined.

(* ===================================================================== *)
(** ** protect and admin                                                  *)
(* ===================================================================== *)

(** X16.  An API key never authenticates.  For every request that takes the
    API-key branch (no [Authorization] header starting with "Bearer", a
    non-empty [x-api-key]), whatever the key, the database and the store,
    [protect] never calls [next()]: it sets status 401 and throws
    "API key authentication failed", also when the key is the stored key of
    an account, because the branch assigns to a [const]. *)
Theorem protect_api_key_never_authenticates
    (aenv : AuthEnv) (headers : Headers) (env : Env) (db : DB) (key : string) :
  bearer headers = false ->
  x_api_key headers = Some key ->
  key <> "" ->
  protect aenv headers env db =
    (Returned (Halt 401 (Error "API key authentication failed")), db).
Proof.
  intros Hb Hk Hne. unfold protect. rewrite Hb, Hk. simpl.
  rewrite (truthy_string_nonempty key Hne).
  unfold User_findOne. unfold_store.
  destruct (findOne_rejects aenv); [reflexivity |].
  destruct (head _) as [[k u]|]; simpl; [| reflexivity].
  destruct (findById_rejects env); reflexivity.
Qed.

(** The sample request presents the very key stored for [alice]. *)
Lemma protect_api_key_never_authenticates_witness :
  apiKey Sample.alice = x_api_key Scenario.with_api_key
  /\ protect Scenario.aenv Scenario.with_api_key (calm 1717000000000) Sample.db0 =
       (Returned (Halt 401 (Error "API key authentication failed")), Sample.db0).
Proof.
  split; [reflexivity |].
  apply (protect_api_key_never_authenticates _ _ _ _
           "0b9c2f6e-5d4a-4c1b-9a77-3f2e1d0c9b8a");
    [reflexivity | reflexivity | discriminate].
Defined.

(** X17.  What [protect] can do.  It never writes.  If it calls [next()],
    the request carried a Bearer header whose token verified to the id of a
    stored account, and the request object holds that account's document
    without its password, with
    [creditInfo.remaining = apiCreditsTotal - apiCreditsUsed] and
    [creditInfo.used = apiCreditsUsed].  Otherwise it sets status 401 and
    throws one of three errors; "Not authorized, user not found" is never
    among them, the [catch] replaces it. *)
Theorem protect_outcome
    (aenv : AuthEnv) (headers : Headers) (env : Env) (db : DB) :
  exists g : Guard AuthedRequest,
    protect aenv headers env db = (Returned g, db)
    /\ match g with
       | Next req =>
           bearer headers = true
           /\ exists id u,
                jwt_verify aenv
                  (bearer_token (default "" (authorization headers)))
                  = Returned id
                /\ users db !! id = Some u
                /\ req_user req = without_password u
                /\ password (req_user req) = None
                /\ CreditInfo.remaining (req_creditInfo req)
                   = apiCreditsTotal u - apiCreditsUsed u
                /\ CreditInfo.used (req_creditInfo req) = apiCreditsUsed u
       | Halt s e =>
           s = 401
           /\ (e = Error "Not authorized, token failed" /\ bearer headers = true
               \/ e = Error "API key authentication failed"
                  /\ bearer headers = false
               \/ e = Error "Not authorized, no token or API key"
                  /\ bearer headers = false)
       end.
Proof.
  unfold protect.
  destruct (bearer headers) eqn:Hb.
  - unfold_store.
    destruct (jwt_verify aenv _) as [id | e] eqn:Hv;
      [| eexists; split; [reflexivity | simpl; auto]].
    cbn [castObjectId].
    destruct (findById_rejects env);
      [eexists; split; [reflexivity | simpl; auto] |].
    destruct (users db !! id) as [u|] eqn:Hu;
      [| eexists; split; [reflexivity | simpl; auto]].
    eexists. split; [reflexivity |]. simpl. split; [reflexivity |].
    exists id, u. repeat split; assumption.
  - destruct (truthy_string _);
      [| eexists; split; [reflexivity | simpl; auto]].
    unfold User_findOne. unfold_store.
    destruct (findOne_rejects aenv);
      [eexists; split; [reflexivity | simpl; auto] |].
    destruct (head _) as [[k u]|]; simpl;
      [| eexists; split; [reflexivity | simpl; auto]].
    destruct (findById_rejects env); eexists; split; try reflexivity; simpl; auto.
Qed.

Lemma split_on_no_space (t : string) :
  no_space t = true -> split_on Ascii.Space t = [t].
Proof.
  induction t as [| ch t IH]; simpl; [reflexivity |].
  intros H. apply andb_true_iff in H as [Hch Ht].
  apply negb_true_iff in Hch. rewrite Hch, (IH Ht). reflexivity.
Qed.

(** The token is what follows "Bearer " in the header. *)
Lemma bearer_token_header (t : string) :
  no_space t = true -> bearer_token ("Bearer " +:+ t) = Some t.
Proof.
  intros H. unfold bearer_token.
  simpl. change ("" +:+ t) with t.
  rewrite (split_on_no_space t H).
  reflexivity.
Qed.

Lemma bearer_header (t : string) (k : option string) :
  bearer {| authorization := Some ("Bearer " +:+ t); x_api_key := k |} = true.
Proof. reflexivity. Qed.

(** X18.  A signed token opens the door.  A request whose [Authorization]
    header is "Bearer " followed by a token without spaces is verified on
    exactly that token; when it verifies to the id of a stored account and
    the lookup is answered, [protect] calls [next()] with that account's
    document and credit information, whatever the [x-api-key] header says. *)
Theorem protect_accepts_bearer
    (aenv : AuthEnv) (env : Env) (db : DB)
    (t : string) (k : option string) (id : ObjectId) (u : User) :
  no_space t = true ->
  jwt_verify aenv (Some t) = Returned id ->
  findById_rejects env = false ->
  users db !! id = Some u ->
  protect aenv {| authorization := Some ("Bearer " +:+ t); x_api_key := k |}
          env db =
    (Returned
       (Next {| req_user := without_password u;
                req_creditInfo :=
                  {| CreditInfo.remaining :=
                       apiCreditsTotal u - apiCreditsUsed u;
                     CreditInfo.used := apiCreditsUsed u;
                     CreditInfo.total := None |} |}),
     db).
Proof.
  intros Hns Hv Hf Hu. unfold protect. rewrite bearer_header.
  cbn [authorization default from_option Datatypes.id].
  rewrite (bearer_token_header t Hns), Hv.
  unfold_store. cbn [castObjectId]. rewrite Hf, Hu. reflexivity.
Qed.

Lemma protect_accepts_bearer_witness :
  protect Scenario.aenv Scenario.with_token (calm 1717000000000) Sample.db1 =
    (Returned
       (Next {| req_user := without_password Sample.carol;
                req_creditInfo :=
                  {| CreditInfo.remaining := 60;
                     CreditInfo.used := 40;
                     CreditInfo.total := None |} |}),
     Sample.db1).
Proof.
  exact (protect_accepts_bearer Scenario.aenv (calm 1717000000000) Sample.db1
           Scenario.carol_token None (_id Sample.carol) Sample.carol
           eq_refl eq_refl eq_refl eq_refl).
Defined.

(** X19.  The handler of an admin route runs only for a verified
    administrator.  For a route declared with [protect, admin], either the
    request is halted with status 401 and the database is untouched, or the
    Bearer token verified to the id of a stored account whose [isAdmin] flag
    is set and the outcome is that of the handler run on that account's
    document.  By X16 an API key never gets that far. *)
Theorem admin_route_guard {A : Type}
    (aenv : AuthEnv) (headers : Headers) (handler : AuthedRequest -> Store A)
    (env : Env) (db : DB) :
  (exists e, protect_admin aenv headers handler env db
             = (Returned (Halt 401 e), db))
  \/ (exists (id : ObjectId) (u : User) (req : AuthedRequest),
        bearer headers = true
        /\ jwt_verify aenv (bearer_token (default "" (authorization headers)))
           = Returned id
        /\ users db !! id = Some u
        /\ isAdmin u = true
        /\ req_user req = without_password u
        /\ protect_admin aenv headers handler env db
           = bind (handler req) (fun a => ret (Next a)) env db).
Proof.
  unfold protect_admin, protect, admin, bind.
  destruct (bearer headers) eqn:Hb.
  - unfold_store.
    destruct (jwt_verify aenv _) as [id | e0] eqn:Hv;
      [| left; eexists; reflexivity].
    cbn [castObjectId].
    destruct (findById_rejects env); [left; eexists; reflexivity |].
    destruct (users db !! id) as [u|] eqn:Hu; [| left; eexists; reflexivity].
    cbn [req_user isAdmin without_password].
    destruct (isAdmin u) eqn:Hadm; [| left; eexists; reflexivity].
    right. eexists id, u, _. repeat split; try eassumption; reflexivity.
  - left. destruct (truthy_string _); [| eexists; reflexivity].
    unfold User_findOne. unfold_store.
    destruct (findOne_rejects aenv); [eexists; reflexivity |].
    destruct (head _) as [[k u]|]; simpl; [| eexists; reflexivity].
    destruct (findById_rejects env); eexists; reflexivity.
Qed.

(* ===================================================================== *)
(** ** POST /api/estimate-calories: the credit check                      *)
(* ===================================================================== *)

Lemma estimate_cost : getEndpointCreditCost "/api/estimate-calories" = JsNumber 1.
Proof. reflexivity. Qed.

(** X20.  The estimation endpoint calls the model only after a charge.
    Without an uploaded file it answers 400 and no credit is touched.  With a
    file, it goes on to the model exactly when the stored account had at
    least one credit left, one credit has been written as used and the
    matching [consume] transaction of amount [-1] is in the log.  Otherwise
    it answers with the failure of [consumeCredits]: 429 with nothing
    written when the stored balance is below 1, else 500 with the log
    untouched; the [credits] it reports are those of the request's user
    document, not a fresh read. *)
Theorem estimate_gate_spec
    (env : Env) (reqUser : User) (hasFile : bool) (db : DB) :
  exists (g : EstimateGate) (db' : DB),
    estimateCalories_gate reqUser hasFile env db = (Returned g, db')
    /\ match g with
       | NoFile s m =>
           hasFile = false /\ s = 400 /\ db' = db
       | Charged =>
           hasFile = true
           /\ exists u,
                users db !! _id reqUser = Some u
                /\ 1 <= remaining u
                /\ db' =
                   {| users :=
                        <[_id u :=
                            set_updatedAt (save_time env)
                              (set_apiCreditsUsed (apiCreditsUsed u + 1) u)]>
                          (users db);
                      transactions :=
                        transactions db ++
                        [ {| user := _id u; amount := -1; type := consume;
                             description :=
                               "API request to /api/estimate-calories";
                             endpointPath := Some "/api/estimate-calories";
                             balanceAfter :=
                               apiCreditsTotal u - (apiCreditsUsed u + 1);
                             createdAt := now env |} ] |}
       | Refused s m used0 total0 remaining0 =>
           hasFile = true
           /\ used0 = apiCreditsUsed reqUser
           /\ total0 = apiCreditsTotal reqUser
           /\ remaining0 = apiCreditsTotal reqUser - apiCreditsUsed reqUser
           /\ (s = 429 /\ db' = db
               /\ (exists u, users db !! _id reqUser = Some u
                             /\ remaining u < 1)
               \/ s = 500 /\ transactions db' = transactions db)
       end.
Proof.
  unfold estimateCalories_gate.
  destruct hasFile; simpl;
    [| eexists _, _; split; [reflexivity | simpl; repeat split]].
  unfold consumeCredits. rewrite estimate_cost. unfold_store.
  cbn [castObjectId].
  assert (Hrefused : forall (m : string) (d : DB),
            transactions d = transactions db ->
            true = true
            /\ apiCreditsUsed reqUser = apiCreditsUsed reqUser
            /\ apiCreditsTotal reqUser = apiCreditsTotal reqUser
            /\ apiCreditsTotal reqUser - apiCreditsUsed reqUser
               = apiCreditsTotal reqUser - apiCreditsUsed reqUser
            /\ (or_else 500 429 = 429 /\ d = db
                /\ (exists u, users db !! _id reqUser = Some u
                              /\ remaining u < 1)
                \/ or_else 500 429 = 500 /\ transactions d = transactions db)).
  { intros m d Hd. repeat (split; [reflexivity |]). right.
    split; [reflexivity | exact Hd]. }
  destruct (findById_rejects env);
    [eexists _, _; split; [reflexivity | apply (Hrefused ""); reflexivity] |].
  destruct (users db !! _id reqUser) as [u|] eqn:Hu;
    [| eexists _, _; split; [reflexivity | apply (Hrefused ""); reflexivity]].
  destruct (Z.ltb_spec (apiCreditsTotal u - apiCreditsUsed u) 1) as [Hlt | Hge].
  { eexists _, _. split; [reflexivity |]. simpl.
    repeat (split; [reflexivity |]). left.
    repeat (split; [reflexivity |]). exists u. auto. }
  destruct (negb (validates _));
    [eexists _, _; split; [reflexivity | apply (Hrefused ""); reflexivity] |].
  destruct (save_rejects env);
    [eexists _, _; split; [reflexivity | apply (Hrefused ""); reflexivity] |].
  change (negb (truthy_string (f_description _))) with false.
  rewrite saved_modified by (apply set_apiCreditsUsed_changes; lia).
  cbn [users transactions]. destruct (create_rejects env).
  - eexists _, _. split; [reflexivity |]. apply (Hrefused ""). reflexivity.
  - eexists _, _. split; [reflexivity |]. simpl.
    split; [reflexivity |]. exists u. auto.
Qed.

(* ===================================================================== *)
(** ** DELETE /api/users/:id                                              *)
(* ===================================================================== *)

(** X21.  Deleting an account.  For an id that is an ObjectId, with the
    lookup answered: an unknown id is answered 400 with "User not found"
    (the 404 set before the [throw] is overwritten); the caller's own
    account is never deleted, the answer is 400 with "Cannot delete your own
    account"; in both cases nothing is written.  Any other stored account is
    removed, with answer 200, and the transaction log is left as it is. *)
Theorem deleteUserRoute_spec
    (deleteOne_rejects : bool) (reqUser : User) (id : string) (oid : ObjectId)
    (env : Env) (db : DB) :
  castObjectId env (IdString id) = Some oid ->
  findById_rejects env = false ->
  (users db !! oid = None ->
     deleteUserRoute deleteOne_rejects reqUser id env db =
       (Returned {| delete_status := 400;
                    delete_body := DeleteError (Error "User not found") |},
        db))
  /\ (forall u, users db !! oid = Some u ->
        (_id u = _id reqUser ->
           deleteUserRoute deleteOne_rejects reqUser id env db =
             (Returned
                {| delete_status := 400;
                   delete_body :=
                     DeleteError (Error "Cannot delete your own account") |},
              db))
        /\ (_id u <> _id reqUser ->
            deleteOne_rejects = false ->
            deleteUserRoute deleteOne_rejects reqUser id env db =
              (Returned {| delete_status := 200;
                           delete_body := DeleteMessage "User removed" |},
               {| users := delete (_id u) (users db);
                  transactions := transactions db |}))).
Proof.
  intros Hcast Hf. unfold deleteUserRoute, User_deleteOne. unfold_store.
  rewrite Hcast, Hf. split.
  - intros ->. reflexivity.
  - intros u ->. split.
    + intros E. rewrite bool_decide_eq_true_2 by exact E. reflexivity.
    + intros E ->. rewrite bool_decide_eq_false_2 by exact E. reflexivity.
Qed.

Lemma deleteUserRoute_spec_witness :
  deleteUserRoute false Sample.carol Sample.nobody
      (calm 1717000000000) Sample.db1 =
    (Returned {| delete_status := 400;
                 delete_body := DeleteError (Error "User not found") |},
     Sample.db1)
  /\ deleteUserRoute false Sample.carol (_id Sample.carol)
       (calm 1717000000000) Sample.db1 =
     (Returned
        {| delete_status := 400;
           delete_body :=
             DeleteError (Error "Cannot delete your own account") |},
      Sample.db1)
  /\ deleteUserRoute false Sample.carol (_id Sample.bob)
       (calm 1717000000000) Sample.db1 =
     (Returned {| delete_status := 200;
                  delete_body := DeleteMessage "User removed" |},
      {| users := delete (_id Sample.bob) (users Sample.db1);
         transactions := transactions Sample.db1 |}).
Proof.
  split; [| split].
  - exact (proj1 (deleteUserRoute_spec false Sample.carol Sample.nobody
                    Sample.nobody (calm 1717000000000) Sample.db1
                    eq_refl eq_refl) eq_refl).
  - exact (proj1 (proj2 (deleteUserRoute_spec false Sample.carol
                           (_id Sample.carol) (_id Sample.carol)
                           (calm 1717000000000) Sample.db1 eq_refl eq_refl)
                        Sample.carol eq_refl) eq_refl).
  - apply (proj2 (proj2 (deleteUserRoute_spec false Sample.carol
                           (_id Sample.bob) (_id Sample.bob)
                           (calm 1717000000000) Sample.db1 eq_refl eq_refl)
                        Sample.bob eq_refl));
      [discriminate | reflexivity].
Defined.

(** X22.  A deleted account leaves its history behind and can no longer be
    charged.  After [DELETE /api/users/:id] has removed an account, its
    transactions are still returned by [getTransactionHistory] exactly as
    before, every other account is untouched, and a charge made with the
    deleted user's document fails with status 500 and writes nothing. *)
Theorem deleted_account_history_survives
    (reqUser victim : User) (id : string) (env : Env) (db : DB) :
  castObjectId env (IdString id) = Some (_id victim) ->
  findById_rejects env = false ->
  users db !! _id victim = Some victim ->
  _id victim <> _id reqUser ->
  let db' := snd (deleteUserRoute false reqUser id env db) in
  users db' !! _id victim = None
  /\ (forall other, other <> _id victim -> users db' !! other = users db !! other)
  /\ (forall env' userId limit0,
        fst (getTransactionHistory userId limit0 env' db')
        = fst (getTransactionHistory userId limit0 env' db))
  /\ (forall env' path,
        consumeCredits victim path env' db' =
          (Returned (Failure "Error processing API credits" 500), db')).
Proof.
  intros Hcast Hf Hv Hne db'.
  assert (E : db' = {| users := delete (_id victim) (users db);
                       transactions := transactions db |}).
  { unfold db', deleteUserRoute, User_deleteOne. unfold_store.
    rewrite Hcast, Hf, Hv. rewrite bool_decide_eq_false_2 by exact Hne.
    reflexivity. }
  assert (Hgone : users db' !! _id victim = None)
    by (rewrite E; apply lookup_delete_eq).
  split; [exact Hgone |]. split; [| split].
  - intros other Ho. rewrite E. simpl. apply lookup_delete_ne. congruence.
  - intros env' userId limit0. unfold getTransactionHistory. unfold_store.
    rewrite E. unfold history. simpl.
    destruct (castObjectId env' userId); [| reflexivity].
    destruct (find_rejects env'); reflexivity.
  - intros env' path. unfold consumeCredits. unfold_store.
    cbn [castObjectId]. rewrite Hgone.
    destruct (findById_rejects env'); reflexivity.
Qed.

Lemma deleted_account_history_survives_witness :
  users (snd (deleteUserRoute false Sample.carol (_id Scenario.alice_seen)
                (calm 1717000009000) Sample.db2)) !! _id Scenario.alice_seen
    = None
  /\ (forall other, other <> _id Scenario.alice_seen ->
        users (snd (deleteUserRoute false Sample.carol (_id Scenario.alice_seen)
                      (calm 1717000009000) Sample.db2)) !! other
        = users Sample.db2 !! other)
  /\ (forall env' userId limit0,
        fst (getTransactionHistory userId limit0 env'
               (snd (deleteUserRoute false Sample.carol
                       (_id Scenario.alice_seen)
                       (calm 1717000009000) Sample.db2)))
        = fst (getTransactionHistory userId limit0 env' Sample.db2))
  /\ (forall env' path,
        consumeCredits Scenario.alice_seen path env'
          (snd (deleteUserRoute false Sample.carol (_id Scenario.alice_seen)
                  (calm 1717000009000) Sample.db2)) =
          (Returned (Failure "Error processing API credits" 500),
           snd (deleteUserRoute false Sample.carol (_id Scenario.alice_seen)
                  (calm 1717000009000) Sample.db2))).
Proof.
  apply (deleted_account_history_survives Sample.carol Scenario.alice_seen
           (_id Scenario.alice_seen) (calm 1717000009000) Sample.db2).
  - reflexivity.
  - reflexivity.
  - reflexivity.
  - discriminate.
Defined.

(* ===================================================================== *)
(** ** Account creation                                                   *)
(* ===================================================================== *)

Lemma inherits_refl (db : DB) : inherits db db.
Proof.
  split; [reflexivity |]. intros id u Hu. left. exists id, u. auto.
Qed.

Lemma inherits_trans (a b c : DB) : inherits a b -> inherits b c -> inherits a c.
Proof.
  intros [Hl1 H1] [Hl2 H2]. split; [congruence |].
  intros id w Hw.
  destruct (H2 id w Hw) as [(k & v & Hv & Ht & Hu & Ha) | Hnew];
    [| right; exact Hnew].
  destruct (H1 k v Hv) as [(k0 & u & Hu0 & Ht0 & Hus0 & Ha0) | (Ht0 & Hu0 & Ha0)].
  - left. exists k0, u. repeat split; congruence.
  - right. repeat split; congruence.
Qed.

Lemma inherits_saved (env : Env) (db : DB) (k : ObjectId) (loaded u : User) :
  users db !! k = Some loaded ->
  apiCreditsTotal u = apiCreditsTotal loaded ->
  apiCreditsUsed u = apiCreditsUsed loaded ->
  isAdmin u = isAdmin loaded ->
  inherits db (saved env loaded u db).
Proof.
  intros Hk Ht Hu Ha. split; [apply saved_transactions |].
  intros id v Hv. apply saved_lookup in Hv as [Hv | (-> & -> & _)].
  - left. exists id, v. auto.
  - left. exists k, loaded. simpl. auto.
Qed.

(** A [save()] of a stored document with its counters and its admin flag as
    they were: what it leaves, and where the document it returns is
    stored. *)
Lemma User_save_inherits (env : Env) (db : DB) (k : ObjectId) (loaded u : User) :
  users db !! k = Some loaded ->
  apiCreditsTotal u = apiCreditsTotal loaded ->
  apiCreditsUsed u = apiCreditsUsed loaded ->
  isAdmin u = isAdmin loaded ->
  exists o db',
    User_save loaded u env db = (o, db')
    /\ inherits db db'
    /\ forall u2, o = Returned u2 -> exists k', users db' !! k' = Some u2.
Proof.
  intros Hk Ht Hu Ha. unfold User_save.
  destruct (negb (validates u));
    [eexists _, _; split; [reflexivity |];
     split; [apply inherits_refl | discriminate] |].
  destruct (save_rejects env);
    [eexists _, _; split; [reflexivity |];
     split; [apply inherits_refl | discriminate] |].
  eexists _, _. split; [reflexivity |].
  split; [eapply inherits_saved; eauto |].
  intros u2 [= <-]. unfold saved_doc, saved. case_decide as Hm.
  - subst u. exists k. exact Hk.
  - exists (_id u). simpl. apply lookup_insert_eq.
Qed.

Lemma User_findOne_reads (rejects : bool) (matches : User -> bool)
    (env : Env) (db : DB) :
  snd (User_findOne rejects matches env db) = db.
Proof. unfold User_findOne. destruct rejects; reflexivity. Qed.

Lemma User_findOne_stored (rejects : bool) (matches : User -> bool)
    (env : Env) (db : DB) (u : User) :
  fst (User_findOne rejects matches env db) = Returned (Some u) ->
  exists k, users db !! k = Some u.
Proof.
  unfold User_findOne. destruct rejects; [discriminate |]. simpl.
  destruct (head _) as [[k v]|] eqn:Hh; [| discriminate].
  intros [= <-]. exists k.
  apply head_Some_elem_of in Hh.
  apply list_elem_of_filter in Hh as [_ Hh].
  apply elem_of_map_to_list in Hh. exact Hh.
Qed.

Lemma User_create_inherits (senv : SignupEnv) (f : UserFields)
    (env : Env) (db : DB) :
  (new_apiCreditsUsed f = None \/ new_apiCreditsUsed f = Some 0) ->
  (new_apiCreditsTotal f = None \/ new_apiCreditsTotal f = Some 100) ->
  inherits db (snd (User_create senv f env db)).
Proof.
  intros Hu Ht. unfold User_create.
  destruct (_ || _); [apply inherits_refl |].
  destruct (user_create_rejects senv); [apply inherits_refl |].
  destruct (users db !! generated_id senv); [apply inherits_refl |].
  split; [reflexivity |].
  intros id v. simpl. rewrite lookup_insert. case_decide; intros Hv.
  - injection Hv as <-. right. simpl.
    destruct Hu as [-> | ->], Ht as [-> | ->]; simpl; auto.
  - left. exists id, v. auto.
Qed.

(** Case analysis on a [User.findOne]: it rejects, finds nothing, or
    returns a stored document; the database is as before. *)
Ltac on_findOne :=
  match goal with
  | |- context [User_findOne ?r ?m ?env ?db] =>
      let o := fresh "o" in
      let d := fresh "d" in
      let E := fresh "E" in
      let Hst := fresh "Hstored" in
      pose proof (User_findOne_stored r m env db) as Hst;
      destruct (User_findOne r m env db) as [o d] eqn:E;
      assert (d = db)
        by (rewrite <- (User_findOne_reads r m env db), E; reflexivity);
      subst d; simpl in Hst;
      destruct o as [[?u |] | ?e];
      [ destruct (Hst _ eq_refl) as [?k ?Hk] | | ]; clear Hst E
  end.

(** Case analysis on a [User.create]. *)
Ltac on_create :=
  match goal with
  | |- context [User_create ?senv ?f ?env ?db] =>
      let Hc := fresh "Hcreated" in
      assert (Hc : inherits db (snd (User_create senv f env db)))
        by (apply User_create_inherits; simpl; auto);
      destruct (User_create senv f env db) as [[?u | ?e] ?d]; simpl in Hc
  end.

(** Case analysis on a [save()] of the document found under [k]. *)
Ltac on_save k Hk :=
  match goal with
  | |- context [User_save ?l ?u ?env ?db] =>
      let o := fresh "o" in
      let d := fresh "d" in
      let E := fresh "E" in
      let Hi := fresh "Hsaved" in
      let Hst := fresh "Hdoc" in
      destruct (User_save_inherits env db k l u) as (o & d & E & Hi & Hst);
      [ exact Hk
      | try reflexivity; destruct (negb (truthy_opt (apiKey _))); reflexivity
      | try reflexivity; destruct (negb (truthy_opt (apiKey _))); reflexivity
      | try reflexivity; destruct (negb (truthy_opt (apiKey _))); reflexivity
      | rewrite E; clear E ]
  end.

Lemma registerRoute_inherits (senv : SignupEnv)
    (name0 : option string) (email0 : string) (password0 : option string)
    (env : Env) (db : DB) :
  inherits db (snd (registerRoute senv name0 email0 password0 env db)).
Proof.
  unfold registerRoute, try_catch, bind, ret, throw.
  on_findOne; simpl; try apply inherits_refl.
  on_create; simpl; exact Hcreated.
Qed.

Lemma googleIosRoute_inherits (senv : SignupEnv) (idToken : option string)
    (env : Env) (db : DB) :
  inherits db (snd (googleIosRoute senv idToken env db)).
Proof.
  unfold googleIosRoute, try_catch, bind, ret, throw.
  destruct (negb (truthy_opt idToken)); [apply inherits_refl |].
  destruct (verifyGoogleIdToken senv _) as [[[[sub0 email0] ok] name0] | e];
    [| apply inherits_refl].
  on_findOne; cbn [fst snd]; try apply inherits_refl.
  - destruct (negb (truthy_opt (googleId u))); [| apply inherits_refl].
    on_save k Hk. destruct o; exact Hsaved.
  - on_create; simpl; exact Hcreated.
Qed.

Lemma passportVerify_inherits (senv : SignupEnv)
    (profile_id : string) (emails : list string) (displayName : string)
    (env : Env) (db : DB) :
  inherits db (snd (passportVerify senv profile_id emails displayName env db)).
Proof.
  unfold passportVerify, try_catch, bind, ret, throw.
  on_findOne; cbn [fst snd]; try apply inherits_refl.
  - (* found by Google id *)
    destruct emails;
      (destruct (negb (truthy_opt (apiKey u))); [| apply inherits_refl];
       on_save k Hk; destruct o; exact Hsaved).
  - (* not found by Google id *)
    destruct emails as [| email0 emails]; [apply inherits_refl |].
    on_findOne; cbn [fst snd]; try apply inherits_refl.
    + on_save k Hk. destruct o as [u2 | e]; [| exact Hsaved].
      destruct (Hdoc u2 eq_refl) as [k2 Hk2].
      destruct (negb (truthy_opt (apiKey u2))); [| exact Hsaved].
      on_save k2 Hk2. destruct o; exact (inherits_trans _ _ _ Hsaved Hsaved0).
    + on_create; simpl; exact Hcreated.
Qed.

Lemma same_account_refl (u : User) : same_account u u.
Proof. repeat split. Qed.

Lemma same_account_trans (u v w : User) :
  same_account u v -> same_account v w -> same_account u w.
Proof. unfold same_account. intuition congruence. Qed.

Lemma same_account_saved_doc (env : Env) (loaded u : User) :
  same_account loaded u -> same_account loaded (saved_doc env loaded u).
Proof. unfold saved_doc. case_decide; [auto |]. unfold same_account. simpl. auto. Qed.

Lemma keeps_refl (db : DB) : keeps_credits_and_privileges db db.
Proof.
  split; [reflexivity |]. split.
  - intros id u Hu. exists u. split; [exact Hu | apply same_account_refl].
  - intros id u Hu Hnone. congruence.
Qed.

Lemma keeps_trans (a b c : DB) :
  keeps_credits_and_privileges a b -> keeps_credits_and_privileges b c ->
  keeps_credits_and_privileges a c.
Proof.
  intros (Hl1 & Hold1 & Hnew1) (Hl2 & Hold2 & Hnew2).
  split; [congruence |]. split.
  - intros id u Hu.
    destruct (Hold1 id u Hu) as (v & Hv & Huv).
    destruct (Hold2 id v Hv) as (w & Hw & Hvw).
    exists w. split; [exact Hw | eapply same_account_trans; eassumption].
  - intros id w Hw Hnone.
    destruct (users b !! id) as [v|] eqn:Hv.
    + destruct (Hold2 id v Hv) as (w' & Hw' & (Hi & Ht & Hu & Ha)).
      assert (w' = w) by congruence. subst w'.
      destruct (Hnew1 id v Hv Hnone) as (Hi0 & Ht0 & Hu0 & Ha0).
      repeat split; congruence.
    + exact (Hnew2 id w Hw Hv).
Qed.

Lemma saved_keyed (env : Env) (db : DB) (loaded u : User) :
  keyed_by_id db -> keyed_by_id (saved env loaded u db).
Proof.
  intros Hkeyed id v Hv. apply saved_lookup in Hv as [Hv | (-> & -> & _)].
  - exact (Hkeyed id v Hv).
  - reflexivity.
Qed.

Lemma keeps_saved (env : Env) (db : DB) (loaded u : User) :
  users db !! _id loaded = Some loaded ->
  same_account loaded u ->
  keeps_credits_and_privileges db (saved env loaded u db).
Proof.
  intros Hl Hsame.
  assert (Hid : _id u = _id loaded) by apply Hsame.
  split; [apply saved_transactions |]. split.
  - intros id v Hv. destruct (decide (id = _id u)) as [-> | Hne].
    + rewrite saved_lookup_eq by (rewrite Hid; exact Hl).
      exists (saved_doc env loaded u). split; [reflexivity |].
      rewrite Hid, Hl in Hv. injection Hv as <-.
      apply same_account_saved_doc. exact Hsame.
    + rewrite saved_lookup_ne by exact Hne.
      exists v. split; [exact Hv | apply same_account_refl].
  - intros id v Hv Hnone. apply saved_lookup in Hv as [Hv | (-> & _ & _)];
      congruence.
Qed.

(** A [save()] of a stored document of the same account with the same
    credits and privileges. *)
Lemma User_save_keeps (env : Env) (db : DB) (loaded u : User) :
  keyed_by_id db ->
  users db !! _id loaded = Some loaded ->
  same_account loaded u ->
  exists o db',
    User_save loaded u env db = (o, db')
    /\ keeps_credits_and_privileges db db'
    /\ keyed_by_id db'
    /\ forall u2, o = Returned u2 -> users db' !! _id u2 = Some u2.
Proof.
  intros Hkeyed Hl Hsame. unfold User_save.
  destruct (negb (validates u));
    [eexists _, _; split; [reflexivity |];
     split; [apply keeps_refl | split; [exact Hkeyed | discriminate]] |].
  destruct (save_rejects env);
    [eexists _, _; split; [reflexivity |];
     split; [apply keeps_refl | split; [exact Hkeyed | discriminate]] |].
  eexists _, _. split; [reflexivity |].
  split; [apply keeps_saved; assumption |].
  split; [apply saved_keyed; exact Hkeyed |].
  intros u2 [= <-].
  assert (Hid : _id u = _id loaded) by apply Hsame.
  replace (_id (saved_doc env loaded u)) with (_id u)
    by (unfold saved_doc; case_decide; reflexivity).
  apply saved_lookup_eq. rewrite Hid. exact Hl.
Qed.

Lemma User_create_keeps (senv : SignupEnv) (f : UserFields)
    (env : Env) (db : DB) :
  (new_apiCreditsUsed f = None \/ new_apiCreditsUsed f = Some 0) ->
  (new_apiCreditsTotal f = None \/ new_apiCreditsTotal f = Some 100) ->
  keeps_credits_and_privileges db (snd (User_create senv f env db)).
Proof.
  intros Hu Ht. unfold User_create.
  destruct (_ || _); [apply keeps_refl |].
  destruct (user_create_rejects senv); [apply keeps_refl |].
  destruct (users db !! generated_id senv) eqn:Hfree; [apply keeps_refl |].
  split; [reflexivity |]. split.
  - intros id v Hv. exists v. split; [| apply same_account_refl].
    simpl. rewrite lookup_insert_ne; [exact Hv | congruence].
  - intros id v. simpl. rewrite lookup_insert. case_decide as Hid.
    + intros [= <-] _. simpl.
      destruct Hu as [-> | ->], Ht as [-> | ->]; simpl; auto.
    + congruence.
Qed.

(** As [on_findOne], for a database keyed by id. *)
Ltac on_findOne_keyed Hkeyed :=
  on_findOne;
  [ match goal with
    | Hk : users _ !! ?k = Some ?u |- _ =>
        let Hid := fresh "Hid" in
        pose proof (Hkeyed _ _ Hk) as Hid; rewrite <- Hid in Hk; clear Hid
    end
  | | ].

Ltac on_create_keeps :=
  match goal with
  | |- context [User_create ?senv ?f ?env ?db] =>
      let Hc := fresh "Hcreated" in
      assert (Hc : keeps_credits_and_privileges db
                     (snd (User_create senv f env db)))
        by (apply User_create_keeps; simpl; auto);
      destruct (User_create senv f env db) as [[?u | ?e] ?d]; simpl in Hc
  end.

Ltac on_save_keeps Hkeyed Hk :=
  match goal with
  | |- context [User_save ?l ?u ?env ?db] =>
      let o := fresh "o" in
      let d := fresh "d" in
      let E := fresh "E" in
      let Hi := fresh "Hsaved" in
      let Hkd := fresh "Hkeyed" in
      let Hst := fresh "Hdoc" in
      destruct (User_save_keeps env db l u) as (o & d & E & Hi & Hkd & Hst);
      [ exact Hkeyed
      | exact Hk
      | try (repeat split; fail);
        destruct (negb (truthy_opt (apiKey _))); repeat split
      | rewrite E; clear E ]
  end.

Lemma registerRoute_keeps (senv : SignupEnv)
    (name0 : option string) (email0 : string) (password0 : option string)
    (env : Env) (db : DB) :
  keeps_credits_and_privileges db
    (snd (registerRoute senv name0 email0 password0 env db)).
Proof.
  unfold registerRoute, try_catch, bind, ret, throw.
  on_findOne; simpl; try apply keeps_refl.
  on_create_keeps; simpl; exact Hcreated.
Qed.

Lemma googleIosRoute_keeps (senv : SignupEnv) (idToken : option string)
    (env : Env) (db : DB) :
  keyed_by_id db ->
  keeps_credits_and_privileges db (snd (googleIosRoute senv idToken env db)).
Proof.
  intros Hkeyed. unfold googleIosRoute, try_catch, bind, ret, throw.
  destruct (negb (truthy_opt idToken)); [apply keeps_refl |].
  destruct (verifyGoogleIdToken senv _) as [[[[sub0 email0] ok] name0] | e];
    [| apply keeps_refl].
  on_findOne_keyed Hkeyed; cbn [fst snd]; try apply keeps_refl.
  - destruct (negb (truthy_opt (googleId u))); [| apply keeps_refl].
    on_save_keeps Hkeyed Hk. destruct o; exact Hsaved.
  - on_create_keeps; simpl; exact Hcreated.
Qed.

Lemma passportVerify_keeps (senv : SignupEnv)
    (profile_id : string) (emails : list string) (displayName : string)
    (env : Env) (db : DB) :
  keyed_by_id db ->
  keeps_credits_and_privileges db
    (snd (passportVerify senv profile_id emails displayName env db)).
Proof.
  intros Hkeyed. unfold passportVerify, try_catch, bind, ret, throw.
  on_findOne_keyed Hkeyed; cbn [fst snd]; try apply keeps_refl.
  - (* found by Google id *)
    destruct emails;
      (destruct (negb (truthy_opt (apiKey u))); [| apply keeps_refl];
       on_save_keeps Hkeyed Hk; destruct o; exact Hsaved).
  - (* not found by Google id *)
    destruct emails as [| email0 emails]; [apply keeps_refl |].
    on_findOne_keyed Hkeyed; cbn [fst snd]; try apply keeps_refl.
    + on_save_keeps Hkeyed Hk. destruct o as [u2 | e]; [| exact Hsaved].
      pose proof (Hdoc u2 eq_refl) as Hk2.
      destruct (negb (truthy_opt (apiKey u2))); [| exact Hsaved].
      on_save_keeps Hkeyed0 Hk2.
      destruct o; exact (keeps_trans _ _ _ Hsaved Hsaved0).
    + on_create_keeps; simpl; exact Hcreated.
Qed.

(** X23.  Signing up never touches credits or privileges.  On a database
    that stores every account under its own id, registration
    ([POST /api/users]), the iOS Google sign-in and the Google OAuth verify
    callback leave the transaction log as it is; every account that was
    stored is still stored under its id, with its own [apiCreditsTotal],
    [apiCreditsUsed] and [isAdmin]; and an account stored under an id that
    was free is a new account with [apiCreditsTotal = 100],
    [apiCreditsUsed = 0] and [isAdmin = false]. *)
Theorem signup_keeps_credits_and_privileges
    (senv : SignupEnv) (env : Env) (db : DB) :
  keyed_by_id db ->
  (forall name0 email0 password0,
     keeps_credits_and_privileges db
       (snd (registerRoute senv name0 email0 password0 env db)))
  /\ (forall idToken,
        keeps_credits_and_privileges db
          (snd (googleIosRoute senv idToken env db)))
  /\ (forall profile_id emails displayName,
        keeps_credits_and_privileges db
          (snd (passportVerify senv profile_id emails displayName env db))).
Proof.
  intros Hkeyed. split; [| split]; intros.
  - apply registerRoute_keeps.
  - apply googleIosRoute_keeps. exact Hkeyed.
  - apply passportVerify_keeps. exact Hkeyed.
Qed.

(** A Google sign-in of the stored account [alice], found by its e-mail
    address: the Google id is linked, the counters stay. *)
Lemma signup_keeps_credits_and_privileges_witness :
  users (snd (passportVerify Scenario.senv "2093847561029384757"
                ["alice@example.com"] "Alice" (calm 1717000000000) Sample.db1))
    !! _id Sample.alice
  = Some (set_updatedAt 1717000000000
            (set_googleId (Some "2093847561029384757") Sample.alice))
  /\ keeps_credits_and_privileges Sample.db1
       (snd (passportVerify Scenario.senv "2093847561029384757"
               ["alice@example.com"] "Alice" (calm 1717000000000) Sample.db1)).
Proof.
  split; [vm_compute; reflexivity |].
  apply (proj2 (proj2 (signup_keeps_credits_and_privileges Scenario.senv
                         (calm 1717000000000) Sample.db1 db1_keyed))).
Defined.

(* ===================================================================== *)
(** ** The whole API                                                      *)
(* ===================================================================== *)

Lemma protect_cases (aenv : AuthEnv) (headers : Headers) (env : Env) (db : DB) :
  exists g : Guard AuthedRequest,
    protect aenv headers env db = (Returned g, db)
    /\ match g with
       | Next req => exists id u, users db !! id = Some u
                                  /\ req_user req = without_password u
       | Halt _ _ => True
       end.
Proof.
  unfold protect.
  destruct (bearer headers).
  - unfold_store.
    destruct (jwt_verify aenv _) as [id | e];
      [| eexists; split; [reflexivity | exact I]].
    cbn [castObjectId].
    destruct (findById_rejects env);
      [eexists; split; [reflexivity | exact I] |].
    destruct (users db !! id) as [u|] eqn:Hu;
      [| eexists; split; [reflexivity | exact I]].
    eexists. split; [reflexivity |]. exists id, u. auto.
  - destruct (truthy_string _); [| eexists; split; [reflexivity | exact I]].
    unfold User_findOne. unfold_store.
    destruct (findOne_rejects aenv);
      [eexists; split; [reflexivity | exact I] |].
    destruct (head _) as [[k u]|]; simpl;
      [| eexists; split; [reflexivity | exact I]].
    destruct (findById_rejects env); eexists; split; try reflexivity; exact I.
Qed.

Lemma bind_next_state {A} (m : Store A) (env : Env) (db : DB) :
  snd (bind m (fun a => ret (Next a)) env db) = snd (m env db).
Proof. unfold bind, ret. destruct (m env db) as [[a | e] d]; reflexivity. Qed.

Lemma bind_returned {A B} (m : Store A) (k : A -> Store B)
    (env : Env) (db db' : DB) (a : A) :
  m env db = (Returned a, db') -> bind m k env db = k a env db'.
Proof. intros E. unfold bind. rewrite E. reflexivity. Qed.

Lemma protect_then_state {A} (aenv : AuthEnv) (headers : Headers)
    (handler : AuthedRequest -> Store A) (env : Env) (db : DB) :
  snd (protect_then aenv headers handler env db) = db
  \/ exists id u req,
       users db !! id = Some u
       /\ req_user req = without_password u
       /\ snd (protect_then aenv headers handler env db)
          = snd (handler req env db).
Proof.
  destruct (protect_cases aenv headers env db) as (g & E & Hg).
  unfold protect_then. rewrite (bind_returned _ _ _ _ _ _ E).
  destruct g as [req | s e]; [| left; reflexivity].
  destruct Hg as (id & u & Hu & Hreq).
  right. exists id, u, req. repeat split; auto. apply bind_next_state.
Qed.

Lemma protect_admin_state {A} (aenv : AuthEnv) (headers : Headers)
    (handler : AuthedRequest -> Store A) (env : Env) (db : DB) :
  snd (protect_admin aenv headers handler env db) = db
  \/ exists id u req,
       users db !! id = Some u
       /\ isAdmin u = true
       /\ req_user req = without_password u
       /\ snd (protect_admin aenv headers handler env db)
          = snd (handler req env db).
Proof.
  destruct (protect_cases aenv headers env db) as (g & E & Hg).
  unfold protect_admin. rewrite (bind_returned _ _ _ _ _ _ E).
  destruct g as [req | s e]; [| left; reflexivity].
  destruct Hg as (id & u & Hu & Hreq).
  assert (Hadm : isAdmin (req_user req) = isAdmin u)
    by (rewrite Hreq; reflexivity).
  unfold admin. rewrite Hadm.
  destruct (isAdmin u) eqn:Ha; [| left; reflexivity].
  right. exists id, u, req. repeat split; auto. apply bind_next_state.
Qed.

Lemma apiKeyRoute_inherits (senv : SignupEnv) (reqUser : User)
    (env : Env) (db : DB) :
  inherits db (snd (apiKeyRoute senv reqUser env db)).
Proof.
  unfold apiKeyRoute, try_catch, bind, ret, throw, User_findById.
  cbn [castObjectId].
  destruct (findById_rejects env); [apply inherits_refl |].
  destruct (users db !! _id reqUser) as [u|] eqn:Hu; [| apply inherits_refl].
  on_save (_id reqUser) Hu. destruct o; exact Hsaved.
Qed.

Lemma deleteUserRoute_inherits (rejects : bool) (reqUser : User)
    (id : string) (env : Env) (db : DB) :
  inherits db (snd (deleteUserRoute rejects reqUser id env db)).
Proof.
  unfold deleteUserRoute, User_deleteOne. unfold_store.
  destruct (castObjectId env (IdString id)); [| apply inherits_refl].
  destruct (findById_rejects env); [apply inherits_refl |].
  destruct (users db !! o) as [u|]; [| apply inherits_refl].
  destruct (bool_decide _); [apply inherits_refl |].
  destruct rejects; [apply inherits_refl |]. simpl.
  split; [reflexivity |]. intros k v. simpl. intros Hv.
  apply lookup_delete_Some in Hv as [_ Hv]. left. exists k, v. auto.
Qed.

Lemma within_bounds_split (db : DB) :
  within_bounds db <-> credits_ok db /\ capped db.
Proof.
  unfold within_bounds, credits_ok, capped. split.
  - intros H. split; intros id u Hu; destruct (H id u Hu) as (? & ? & ?); auto.
  - intros [H1 H2] id u Hu. destruct (H1 id u Hu). specialize (H2 id u Hu). auto.
Qed.

Lemma inherits_within_bounds (db db' : DB) :
  inherits db db' -> within_bounds db -> within_bounds db'.
Proof.
  intros [_ H] Hb id u' Hu'.
  destruct (H id u' Hu') as [(k & u & Hu & -> & -> & _) | (-> & -> & _)].
  - exact (Hb k u Hu).
  - unfold MAX_CREDITS. lia.
Qed.

Lemma updateUserRoute_within_bounds (senv : SignupEnv) (id : string)
    (name0 email0 : option string) (isAdmin0 : option bool)
    (env : Env) (db : DB) :
  within_bounds db ->
  within_bounds (snd (updateUserRoute senv id name0 email0 isAdmin0 env db)).
Proof.
  intros Hb. unfold updateUserRoute. unfold_store.
  destruct (castObjectId env (IdString id)); [| exact Hb].
  destruct (findById_rejects env); [exact Hb |].
  destruct (users db !! o) as [u|] eqn:Hu; [| exact Hb].
  destruct (negb (validates _)); [exact Hb |].
  destruct (save_rejects env); [exact Hb |]. simpl.
  intros k v Hv. apply saved_lookup in Hv as [Hv | (-> & -> & _)].
  - exact (Hb k v Hv).
  - simpl. exact (Hb o u Hu).
Qed.

Lemma runHttp_within_bounds (env : Env) (h : HttpCall) (db : DB) :
  within_bounds db -> within_bounds (runHttp env h db).
Proof.
  intros Hb. apply within_bounds_split. apply runHttp_invariant.
  apply within_bounds_split. exact Hb.
Qed.

Lemma Served_within_bounds (db db' : DB) :
  Served db db' -> within_bounds db -> within_bounds db'.
Proof.
  intros Hs Hb.
  destruct Hs as
    [ senv env name0 email0 password0 db
    | senv env idToken db
    | senv env profile_id emails displayName db
    | aenv headers senv env db
    | aenv headers hasFile env db
    | aenv headers env db
    | aenv headers userId amount0 env db
    | aenv headers userId env db
    | aenv headers id env db
    | aenv headers senv id name0 email0 isAdmin0 env db
    | aenv headers rejects id env db ].
  - eapply inherits_within_bounds; [apply registerRoute_inherits | exact Hb].
  - eapply inherits_within_bounds; [apply googleIosRoute_inherits | exact Hb].
  - eapply inherits_within_bounds; [apply passportVerify_inherits | exact Hb].
  - destruct (protect_then_state aenv headers
                (fun req => apiKeyRoute senv (req_user req)) env db)
      as [-> | (i & u & req & _ & _ & ->)]; [exact Hb |].
    eapply inherits_within_bounds; [apply apiKeyRoute_inherits | exact Hb].
  - destruct (protect_then_state aenv headers
                (fun req => estimateCalories_gate (req_user req) hasFile) env db)
      as [-> | (i & u & req & _ & _ & ->)]; [exact Hb |].
    apply (runHttp_within_bounds env (PostEstimate (req_user req) hasFile)).
    exact Hb.
  - destruct (protect_then_state aenv headers
                (fun req => getCreditsRoute (req_user req)) env db)
      as [-> | (i & u & req & _ & _ & ->)]; [exact Hb |].
    apply (runHttp_within_bounds env (GetCredits (req_user req))). exact Hb.
  - destruct (protect_admin_state aenv headers
                (fun req => addCreditsRoute (req_user req) userId amount0) env db)
      as [-> | (i & u & req & _ & _ & _ & ->)]; [exact Hb |].
    apply (runHttp_within_bounds env
             (PostAddCredits (req_user req) userId amount0)).
    exact Hb.
  - destruct (protect_admin_state aenv headers
                (fun _ => resetCreditsRoute userId) env db)
      as [-> | (i & u & req & _ & _ & _ & ->)]; [exact Hb |].
    apply (runHttp_within_bounds env (PostResetCredits userId)). exact Hb.
  - destruct (protect_admin_state aenv headers
                (fun _ => resetCountRoute id) env db)
      as [-> | (i & u & req & _ & _ & _ & ->)]; [exact Hb |].
    apply (runHttp_within_bounds env (PostResetCount id)). exact Hb.
  - destruct (protect_admin_state aenv headers
                (fun _ => updateUserRoute senv id name0 email0 isAdmin0) env db)
      as [-> | (i & u & req & _ & _ & _ & ->)]; [exact Hb |].
    apply updateUserRoute_within_bounds. exact Hb.
  - destruct (protect_admin_state aenv headers
                (fun req => deleteUserRoute rejects (req_user req) id) env db)
      as [-> | (i & u & req & _ & _ & _ & ->)]; [exact Hb |].
    eapply inherits_within_bounds; [apply deleteUserRoute_inherits | exact Hb].
Qed.

(** X24.  The bounds are an invariant of the whole API.  If every account
    satisfies [0 <= apiCreditsUsed <= apiCreditsTotal <= 1000], then so does
    every account after any number of requests to any of the writing routes
    (registration, the Google sign-ins, API-key regeneration, estimation,
    the credit routes, reset-count, user update and deletion), each behind
    the middlewares it is declared with, whatever the requests carry and
    whatever the store and the other collaborators do. *)
Theorem api_keeps_bounds (db db' : DB) :
  within_bounds db ->
  Reaches db db' ->
  forall (id : ObjectId) (u : User),
    users db' !! id = Some u ->
    0 <= apiCreditsUsed u
    /\ apiCreditsUsed u <= apiCreditsTotal u
    /\ apiCreditsTotal u <= 1000.
Proof.
  intros Hb Hr. induction Hr as [| db1 db2 Hr IH Hs].
  - exact Hb.
  - exact (Served_within_bounds db1 db2 Hs IH).
Qed.

Lemma api_keeps_bounds_witness :
  users (snd (protect_then Scenario.aenv Scenario.with_token
                (fun req => estimateCalories_gate (req_user req) true)
                (calm 1717000000000) Sample.db1)) !! _id Sample.carol
    = Some (set_updatedAt 1717000000000 (set_apiCreditsUsed 41 Sample.carol))
  /\ 0 <= 41 /\ 41 <= 100 /\ 100 <= 1000.
Proof.
  split; [reflexivity |].
  apply (api_keeps_bounds Sample.db1
           (snd (protect_then Scenario.aenv Scenario.with_token
                   (fun req => estimateCalories_gate (req_user req) true)
                   (calm 1717000000000) Sample.db1)))
    with (id := _id Sample.carol)
         (u := set_updatedAt 1717000000000 (set_apiCreditsUsed 41 Sample.carol)).
  - intros id u. unfold Sample.db1. cbn [users].
    rewrite !lookup_insert. repeat case_decide; subst.
    + intros [= <-]. unfold MAX_CREDITS. simpl. lia.
    + intros [= <-]. unfold MAX_CREDITS. simpl. lia.
    + intros Hu. apply lookup_singleton_Some in Hu as [_ <-].
      unfold MAX_CREDITS. simpl. lia.
  - eapply reaches_step; [apply reaches_refl | apply served_estimate].
  - reflexivity.
Defined.

(* ===================================================================== *)
(** ** A fresh deployment                                                 *)
(* ===================================================================== *)

Lemma inherits_unprivileged (db db' : DB) :
  inherits db db' -> unprivileged db -> unprivileged db'.
Proof.
  intros [Hlog H] [Hacc Hl]. split.
  - intros id u' Hu'.
    destruct (H id u' Hu') as [(k & u & Hu & -> & -> & ->) | (-> & -> & ->)].
    + exact (Hacc k u Hu).
    + repeat split; lia.
  - rewrite Hlog. exact Hl.
Qed.

Lemma consumeCredits_unprivileged (caller : User) (path : string)
    (env : Env) (db : DB) :
  unprivileged db -> unprivileged (snd (consumeCredits caller path env db)).
Proof.
  intros [Hacc Hl].
  change (unprivileged (runCall env (Consume caller path) db)).
  split.
  - intros id v Hv.
    apply runCall_lookup in Hv
      as [Hv | (k & u & u' & _ & Hu & Hstep & _ & ->)];
      [exact (Hacc id v Hv) |].
    simpl in Hstep. destruct Hstep as (cost & Hcost & Hle & ->).
    apply getEndpointCreditCost_number in Hcost. subst cost.
    destruct (Hacc _ _ Hu) as (Ha & Htot & Hlo & Hhi). unfold remaining in *.
    simpl. repeat split; auto; lia.
  - destruct (runCall_effect env db (Consume caller path))
      as [Hfail | k u u' Hk Hu Hstep Hval Hrej H500
          | k u u' t Hk Hu Hstep Hval Hok Huser Hty Ham Hbal Hat].
    + exact Hl.
    + rewrite saved_transactions. exact Hl.
    + intros t0 Ht0. simpl in Ht0. apply elem_of_app in Ht0 as [Ht0 | Ht0];
        [exact (Hl t0 Ht0) |].
      apply list_elem_of_singleton in Ht0. subst t0.
      split; [exact Hty |].
      simpl in Hstep. destruct Hstep as (cost & Hcost & Hle & ->).
      apply getEndpointCreditCost_number in Hcost. subst cost.
      rewrite Ham. unfold remaining. simpl. lia.
Qed.

Lemma Served_unprivileged (db db' : DB) :
  Served db db' -> unprivileged db -> unprivileged db'.
Proof.
  intros Hs Hp.
  assert (Hnone : forall i u, users db !! i = Some u -> isAdmin u = true -> False).
  { intros i u Hu Ha. destruct Hp as [Hacc _].
    destruct (Hacc i u Hu) as [Hf _]. congruence. }
  destruct Hs as
    [ senv env name0 email0 password0 db
    | senv env idToken db
    | senv env profile_id emails displayName db
    | aenv headers senv env db
    | aenv headers hasFile env db
    | aenv headers env db
    | aenv headers userId amount0 env db
    | aenv headers userId env db
    | aenv headers id env db
    | aenv headers senv id name0 email0 isAdmin0 env db
    | aenv headers rejects id env db ].
  - eapply inherits_unprivileged; [apply registerRoute_inherits | exact Hp].
  - eapply inherits_unprivileged; [apply googleIosRoute_inherits | exact Hp].
  - eapply inherits_unprivileged; [apply passportVerify_inherits | exact Hp].
  - destruct (protect_then_state aenv headers
                (fun req => apiKeyRoute senv (req_user req)) env db)
      as [-> | (i & u & req & _ & _ & ->)]; [exact Hp |].
    eapply inherits_unprivileged; [apply apiKeyRoute_inherits | exact Hp].
  - destruct (protect_then_state aenv headers
                (fun req => estimateCalories_gate (req_user req) hasFile) env db)
      as [-> | (i & u & req & _ & _ & ->)]; [exact Hp |].
    rewrite estimate_gate_state.
    destruct hasFile; [| exact Hp].
    apply consumeCredits_unprivileged. exact Hp.
  - destruct (protect_then_state aenv headers
                (fun req => getCreditsRoute (req_user req)) env db)
      as [-> | (i & u & req & _ & _ & ->)]; [exact Hp |].
    rewrite getCreditsRoute_reads. exact Hp.
  - destruct (protect_admin_state aenv headers
                (fun req => addCreditsRoute (req_user req) userId amount0) env db)
      as [-> | (i & u & req & Hu & Ha & _)]; [exact Hp |].
    destruct (Hnone i u Hu Ha).
  - destruct (protect_admin_state aenv headers
                (fun _ => resetCreditsRoute userId) env db)
      as [-> | (i & u & req & Hu & Ha & _)]; [exact Hp |].
    destruct (Hnone i u Hu Ha).
  - destruct (protect_admin_state aenv headers
                (fun _ => resetCountRoute id) env db)
      as [-> | (i & u & req & Hu & Ha & _)]; [exact Hp |].
    destruct (Hnone i u Hu Ha).
  - destruct (protect_admin_state aenv headers
                (fun _ => updateUserRoute senv id name0 email0 isAdmin0) env db)
      as [-> | (i & u & req & Hu & Ha & _)]; [exact Hp |].
    destruct (Hnone i u Hu Ha).
  - destruct (protect_admin_state aenv headers
                (fun req => deleteUserRoute rejects (req_user req) id) env db)
      as [-> | (i & u & req & Hu & Ha & _)]; [exact Hp |].
    destruct (Hnone i u Hu Ha).
Qed.

(** X25.  Through the API alone no administrator ever comes into being.
    Starting from an empty database, after any number of requests to any
    route, whatever they carry and whatever tokens verify, no account has
    [isAdmin] set; so no handler behind [admin] ever runs: every account
    still has exactly the initial grant of 100 credits with between 0 and
    100 of them used, and the log holds nothing but [consume] transactions
    of amount [-1]. *)
Theorem fresh_deployment_has_no_admin (db : DB) :
  Reaches empty_db db ->
  (forall id u, users db !! id = Some u ->
     isAdmin u = false /\ apiCreditsTotal u = 100
     /\ 0 <= apiCreditsUsed u /\ apiCreditsUsed u <= 100)
  /\ (forall t, t ∈ transactions db -> type t = consume /\ amount t = -1).
Proof.
  intros Hr. change (unprivileged db).
  induction Hr as [| db1 db2 Hr IH Hs].
  - split.
    + intros id u Hu. simpl in Hu. rewrite lookup_empty in Hu. discriminate.
    + intros t Ht. simpl in Ht. apply elem_of_nil in Ht. destruct Ht.
  - exact (Served_unprivileged db1 db2 Hs IH).
Qed.

Lemma fresh_deployment_has_no_admin_witness :
  users Scenario.registered !! _id Scenario.erin = Some Scenario.erin
  /\ isAdmin Scenario.erin = false
  /\ apiCreditsTotal Scenario.erin = 100
  /\ 0 <= apiCreditsUsed Scenario.erin
  /\ apiCreditsUsed Scenario.erin <= 100.
Proof.
  split; [vm_compute; reflexivity |].
  apply (proj1 (fresh_deployment_has_no_admin Scenario.registered
                  (reaches_step empty_db empty_db Scenario.registered
                     (reaches_refl empty_db)
                     (served_register Scenario.senv (calm 1717000000000)
                        (Some "Erin") "erin@example.com" (Some "s3cret")
                        empty_db)))
               (_id Scenario.erin)).
  vm_compute. reflexivity.
Defined.

(* ===================================================================== *)
(** ** The iOS Google sign-in                                             *)
(* ===================================================================== *)

(** X26.  The iOS sign-in accepts only tokens issued for this application.
    When Google's tokeninfo endpoint fails for the submitted token, or
    answers with an audience other than [GOOGLE_CLIENT_ID], the route
    replies 401 "Invalid Google token" and neither creates nor links an
    account. *)
Theorem googleIos_rejects_foreign_token
    (senv : SignupEnv) (env : Env) (db : DB) (tok : string) :
  tok <> "" ->
  (forall aud sub email1 verified name1,
     tokeninfo senv tok = Returned (aud, sub, email1, verified, name1) ->
     aud <> GOOGLE_CLIENT_ID senv) ->
  googleIosRoute senv (Some tok) env db =
    (Returned {| user_status := 401;
                 user_body := TextBody "Invalid Google token" |},
     db).
Proof.
  intros Hne Haud. unfold googleIosRoute, verifyGoogleIdToken.
  unfold try_catch, bind, ret, throw. simpl.
  rewrite (truthy_string_nonempty tok Hne). simpl.
  destruct (tokeninfo senv tok) as [[[[[aud sub] email1] verified] name1] | e]
    eqn:E; [| reflexivity].
  rewrite bool_decide_eq_false_2 by (eapply Haud; reflexivity).
  reflexivity.
Qed.

Lemma googleIos_rejects_foreign_token_witness :
  googleIosRoute Scenario.senv (Some "google-id-token")
      (calm 1717000000000) Sample.db0 =
    (Returned {| user_status := 401;
                 user_body := TextBody "Invalid Google token" |},
     Sample.db0).
Proof.
  apply googleIos_rejects_foreign_token; [discriminate |].
  intros aud sub email1 verified name1 E.
  vm_compute in E. injection E as <- _ _ _ _. discriminate.
Defined.
